(** * WhaleScope: process orchestration and export pipeline of the Electron
      main process, embedded in Rocq.

    The repository holds two variants of the main-process script: the
    complete one ("Electron Main Process": every handler of the preload
    bridge, module [Main]) and a shorter one ("DEV + DMG READY", module
    [MainDmg]).  Both are embedded; a statement about "every handler" is
    settled on both.

    Around them the other ends of the same paths are embedded: the
    channels of the preload bridge, the renderer's listeners that call
    the handlers (configuration form, CSV and PDF buttons, the text layout
    of the PDF report), and the packaging hook that marks the bundled
    interpreter executable.

    JavaScript strings are sequences of UTF-16 code units ([list N]).
    Functions of the JavaScript platform that the scripts call
    ([String.prototype.trim], [path.posix.join], ...) are written out
    after the ECMAScript / Node.js definitions and kept apart from the
    definitions that embed the repository's own code. *)

From Stdlib Require Import ZArith NArith List Lia Decimal DecimalN DecimalZ.
From Stdlib Require Import String Ascii.
From Stdlib Require Floats.SpecFloat.
From stdpp Require Import base option list gmap.

Open Scope N_scope.
Set Warnings "-register-all".

(* ===================================================================== *)
(** * Part I. Definitions                                                  *)
(* ===================================================================== *)

(** ** JavaScript strings *)

Abbreviation jsstring := (list N).

(** A string literal of the source (all literals used are ASCII). *)
Definition u (s : string) : jsstring :=
  map N_of_ascii (list_ascii_of_string s).

(** [WhiteSpace] and [LineTerminator] code points of ECMAScript, the set
    that [String.prototype.trim] removes. *)
Definition isWhiteSpace (c : N) : bool :=
  ((9 <=? c) && (c <=? 13))          (* TAB LF VT FF CR *)
  || (c =? 32) || (c =? 160)         (* SP, NBSP *)
  || (c =? 5760)                     (* U+1680 *)
  || ((8192 <=? c) && (c <=? 8202))  (* U+2000 .. U+200A *)
  || (c =? 8232) || (c =? 8233)      (* LS, PS *)
  || (c =? 8239) || (c =? 8287)      (* U+202F, U+205F *)
  || (c =? 12288) || (c =? 65279).   (* U+3000, U+FEFF *)

Fixpoint trimStart (s : jsstring) : jsstring :=
  match s with
  | [] => []
  | c :: t => if isWhiteSpace c then trimStart t else s
  end.

Definition trimEnd (s : jsstring) : jsstring := rev (trimStart (rev s)).

(** [s.trim()] *)
Definition trim (s : jsstring) : jsstring := trimEnd (trimStart s).

Definition LF : N := 10.
Definition SLASH : N := 47.

(** Splitting at a separator code unit, as [s.split(sep)]: the result is
    never empty. *)
Fixpoint split_on (sep : N) (s : jsstring) : list jsstring :=
  match s with
  | [] => [[]]
  | c :: t =>
      if c =? sep then [] :: split_on sep t
      else match split_on sep t with
           | [] => [[c]]
           | w :: ws => (c :: w) :: ws
           end
  end.

(** The lines a process wrote: the pieces between line feeds; a line feed
    at the very end closes the last line and opens no further one. *)
Definition lines_written (out : jsstring) : list jsstring :=
  let ls := split_on LF out in
  match List.last ls [] with
  | [] => removelast ls
  | _ :: _ => ls
  end.

Definition final_line (out : jsstring) : jsstring := List.last (lines_written out) [].

(** ** Numbers in template literals *)

Fixpoint uint_units (d : Decimal.uint) : jsstring :=
  match d with
  | Nil => []
  | D0 d => 48 :: uint_units d
  | D1 d => 49 :: uint_units d
  | D2 d => 50 :: uint_units d
  | D3 d => 51 :: uint_units d
  | D4 d => 52 :: uint_units d
  | D5 d => 53 :: uint_units d
  | D6 d => 54 :: uint_units d
  | D7 d => 55 :: uint_units d
  | D8 d => 56 :: uint_units d
  | D9 d => 57 :: uint_units d
  end.

(** [String(n)] for a non-negative integer below 1e21 (a millisecond clock
    reading). *)
Definition N_toString (n : N) : jsstring := uint_units (N.to_uint n).

(** [String(z)] for an integer (an exit status). *)
Definition Z_toString (z : Z) : jsstring :=
  match Z.to_int z with
  | Pos d => uint_units d
  | Neg d => 45 :: uint_units d
  end.

(** The [code] argument of the child's ['close'] event: a number, or [null]
    when the child was ended by a signal. *)
Definition code_toString (code : option Z) : jsstring :=
  match code with
  | Some z => Z_toString z
  | None => u "null"
  end.

(** ** The one-shot worker: [runPythonScript]

    The function registers three listeners on the child: ['data'] on its
    standard output, ['data'] on its standard error and ['close'].  What the
    child does is a sequence of events; the promise is settled by the first
    [resolve]/[reject] call and later calls have no effect. *)

Record JsError := mkError { message : jsstring }.

Inductive ChildEvent :=
| StdoutData (d : jsstring)       (* proc.stdout 'data', payload d.toString() *)
| StderrData (d : jsstring)       (* proc.stderr 'data' *)
| Close (code : option Z)         (* proc 'close' *)
| ErrorEvent (e : JsError).       (* proc 'error': the spawn itself failed *)

Inductive Promise (A : Type) :=
| Pending
| Fulfilled (v : A)
| Rejected (e : JsError).
Arguments Pending {A}.
Arguments Fulfilled {A} v.
Arguments Rejected {A} e.

(** First settlement wins. *)
Definition settle {A} (p new : Promise A) : Promise A :=
  match p with
  | Pending => new
  | _ => p
  end.

Record Invocation := mkInvocation {
  stdout : jsstring;             (* let stdout = "" *)
  stderr : jsstring;             (* let stderr = "" *)
  promise : Promise jsstring;
  unhandled : list JsError       (* 'error' events met by no listener *)
}.

Definition invocation_start : Invocation :=
  {| stdout := []; stderr := []; promise := Pending; unhandled := [] |}.

(** [stderr || `Python exited with code ${code}`]: the empty string is the
    only falsy string. *)
Definition failure_message (stderr : jsstring) (code : option Z) : jsstring :=
  match stderr with
  | [] => u "Python exited with code " ++ code_toString code
  | _ :: _ => stderr
  end.

(** The body of the ['close'] listener. *)
Definition on_close (stdout stderr : jsstring) (code : option Z) : Promise jsstring :=
  match code with
  | Some 0%Z => Fulfilled (trim stdout)
  | _ => Rejected (mkError (failure_message stderr code))
  end.

Definition on_event (st : Invocation) (ev : ChildEvent) : Invocation :=
  match ev with
  | StdoutData d =>
      {| stdout := stdout st ++ d; stderr := stderr st;
         promise := promise st; unhandled := unhandled st |}
  | StderrData d =>
      {| stdout := stdout st; stderr := stderr st ++ d;
         promise := promise st; unhandled := unhandled st |}
  | Close code =>
      {| stdout := stdout st; stderr := stderr st;
         promise := settle (promise st) (on_close (stdout st) (stderr st) code);
         unhandled := unhandled st |}
  | ErrorEvent e =>
      (* no listener for 'error' is registered on the child *)
      {| stdout := stdout st; stderr := stderr st;
         promise := promise st; unhandled := unhandled st ++ [e] |}
  end.

(** The promise body of [runPythonScript] against the events of its child. *)
Definition run_events (evs : list ChildEvent) : Invocation :=
  fold_left on_event evs invocation_start.

(** Everything the child wrote on each stream. *)
Fixpoint written_stdout (evs : list ChildEvent) : jsstring :=
  match evs with
  | [] => []
  | StdoutData d :: t => d ++ written_stdout t
  | _ :: t => written_stdout t
  end.

Fixpoint written_stderr (evs : list ChildEvent) : jsstring :=
  match evs with
  | [] => []
  | StderrData d :: t => d ++ written_stderr t
  | _ :: t => written_stderr t
  end.

Definition is_close (ev : ChildEvent) : bool :=
  match ev with Close _ => true | _ => false end.

Definition no_close (evs : list ChildEvent) : bool := forallb (fun ev => negb (is_close ev)) evs.

(** ** Node's [path] module (POSIX flavour; the application is packaged
       for macOS)

    Paths are taken apart at ['/'].  [normalizeString] of Node walks the
    segments from left to right and keeps a stack: empty segments and ["."]
    are skipped, [".."] removes the last kept segment (or is kept itself,
    for a relative path with nothing left to remove), any other segment is
    kept. *)

Definition DOT : N := 46.

Definition is_empty (s : jsstring) : bool :=
  match s with [] => true | _ :: _ => false end.

Definition jsstring_eqb (a b : jsstring) : bool := bool_decide (a = b).

Definition is_dot (s : jsstring) : bool := jsstring_eqb s [DOT].
Definition is_dotdot (s : jsstring) : bool := jsstring_eqb s [DOT; DOT].

(** The stack is kept with its top first. *)
Definition norm_step (allowAboveRoot : bool) (stack : list jsstring) (seg : jsstring)
  : list jsstring :=
  if is_empty seg || is_dot seg then stack
  else if is_dotdot seg then
    match stack with
    | top :: below =>
        if is_dotdot top
        then (if allowAboveRoot then seg :: stack else stack)
        else below
    | [] => if allowAboveRoot then [seg] else []
    end
  else seg :: stack.

Definition norm_stack (allowAboveRoot : bool) (segs : list jsstring) : list jsstring :=
  fold_left (norm_step allowAboveRoot) segs [].

(** [segs.join("/")] *)
Fixpoint join_with_slash (segs : list jsstring) : jsstring :=
  match segs with
  | [] => []
  | [s] => s
  | s :: t => s ++ SLASH :: join_with_slash t
  end.

Definition normalizeString (p : jsstring) (allowAboveRoot : bool) : jsstring :=
  join_with_slash (rev (norm_stack allowAboveRoot (split_on SLASH p))).

Definition starts_with_slash (p : jsstring) : bool :=
  match p with c :: _ => c =? SLASH | [] => false end.

Definition ends_with_slash (p : jsstring) : bool := starts_with_slash (rev p).

(** [path.normalize(p)] *)
Definition path_normalize (p : jsstring) : jsstring :=
  if is_empty p then [DOT]
  else
    let isAbsolute := starts_with_slash p in
    let trailingSeparator := ends_with_slash p in
    let q := normalizeString p (negb isAbsolute) in
    if is_empty q then
      (if isAbsolute then [SLASH]
       else if trailingSeparator then [DOT; SLASH] else [DOT])
    else
      let q := if trailingSeparator then q ++ [SLASH] else q in
      if isAbsolute then SLASH :: q else q.

(** [path.join(...args)]: the non-empty arguments, put together with ['/']
    and normalized. *)
Definition path_join (args : list jsstring) : jsstring :=
  match List.filter (fun a => negb (is_empty a)) args with
  | [] => [DOT]
  | parts => path_normalize (join_with_slash parts)
  end.

(** [path.basename(p)]: trailing slashes do not count; what follows the last
    remaining slash. *)
Definition path_basename (p : jsstring) : jsstring :=
  List.last (List.filter (fun s => negb (is_empty s)) (split_on SLASH p)) [].

(** [path.resolve(...args)]: arguments are taken from the right until an
    absolute one is met, the working directory standing in when none is. *)
Fixpoint resolve_collect (rev_args : list jsstring) (cwd : jsstring) (acc : jsstring)
  : jsstring * bool :=
  match rev_args with
  | [] =>
      if is_empty cwd then (acc, false)
      else (cwd ++ SLASH :: acc, starts_with_slash cwd)
  | a :: rest =>
      if is_empty a then resolve_collect rest cwd acc
      else if starts_with_slash a then (a ++ SLASH :: acc, true)
      else resolve_collect rest cwd (a ++ SLASH :: acc)
  end.

Definition path_resolve (cwd : jsstring) (args : list jsstring) : jsstring :=
  let '(resolvedPath, resolvedAbsolute) := resolve_collect (rev args) cwd [] in
  let q := normalizeString resolvedPath (negb resolvedAbsolute) in
  if resolvedAbsolute then SLASH :: q
  else if is_empty q then [DOT] else q.

(** A segment that names an entry of a directory: not empty, no slash, and
    neither ["."] nor [".."]. *)
Definition is_entry_name (s : jsstring) : bool :=
  negb (is_empty s) && negb (is_dot s) && negb (is_dotdot s)
  && forallb (fun c => negb (c =? SLASH)) s.

(** ** JavaScript values and JSON

    Values that cross the IPC boundary or come out of [JSON.parse].  A
    number is kept as the decimal literal it was read from, mantissa and
    power of ten (the rounding to binary64 is not represented); the
    properties of an object are kept in the order in which they were
    created (the reordering of integer-like keys is not represented). *)

Inductive JsValue :=
| VUndefined
| VNull
| VBool (b : bool)
| VNumber (mantissa exponent : Z)
| VString (s : jsstring)
| VArray (items : list JsValue)
| VObject (props : list (jsstring * JsValue)).

(** The credentials object [{provider-key: credential-value}]. *)
Abbreviation KeySet := (list (jsstring * jsstring)).

Definition keyset_value (k : KeySet) : JsValue :=
  VObject (map (fun kv => (fst kv, VString (snd kv))) k).

Definition QUOTE : N := 34.
Definition BACKSLASH : N := 92.

Definition hex_digit (d : N) : N := if d <? 10 then 48 + d else 87 + d.

Definition hex4 (c : N) : jsstring :=
  [hex_digit (c / 4096 mod 16); hex_digit (c / 256 mod 16);
   hex_digit (c / 16 mod 16); hex_digit (c mod 16)].

(** [\uXXXX] *)
Definition unicode_escape (c : N) : jsstring := BACKSLASH :: 117 :: hex4 c.

Definition is_lead_surrogate (c : N) : bool := (55296 <=? c) && (c <=? 56319).
Definition is_trail_surrogate (c : N) : bool := (56320 <=? c) && (c <=? 57343).

(** One code unit that is not a surrogate, as [QuoteJSONString] writes it. *)
Definition quote_unit (c : N) : jsstring :=
  if c =? 8 then [BACKSLASH; 98]
  else if c =? 9 then [BACKSLASH; 116]
  else if c =? 10 then [BACKSLASH; 110]
  else if c =? 12 then [BACKSLASH; 102]
  else if c =? 13 then [BACKSLASH; 114]
  else if c =? QUOTE then [BACKSLASH; QUOTE]
  else if c =? BACKSLASH then [BACKSLASH; BACKSLASH]
  else if c <? 32 then unicode_escape c
  else [c].

(** The string is read by code points: a surrogate pair is written as it
    is, a surrogate on its own is escaped. *)
Fixpoint quote_body (s : jsstring) : jsstring :=
  match s with
  | [] => []
  | c :: t =>
      if is_lead_surrogate c then
        match t with
        | d :: t' =>
            if is_trail_surrogate d then c :: d :: quote_body t'
            else unicode_escape c ++ quote_body t
        | [] => unicode_escape c
        end
      else if is_trail_surrogate c then unicode_escape c ++ quote_body t
      else quote_unit c ++ quote_body t
  end.

Definition JSON_quote (s : jsstring) : jsstring := QUOTE :: quote_body s ++ [QUOTE].

Definition stringify_member (kv : jsstring * jsstring) : jsstring :=
  u "  " ++ JSON_quote (fst kv) ++ u ": " ++ JSON_quote (snd kv).

Fixpoint stringify_members (k : KeySet) : jsstring :=
  match k with
  | [] => []
  | [kv] => stringify_member kv
  | kv :: t => stringify_member kv ++ 44 :: LF :: stringify_members t
  end.

(** [JSON.stringify(keys, null, 2)] on a credentials object. *)
Definition JSON_stringify (k : KeySet) : jsstring :=
  match k with
  | [] => u "{}"
  | _ :: _ => 123 :: LF :: stringify_members k ++ [LF; 125]
  end.

(** [JSON.parse]. *)

Definition is_json_ws (c : N) : bool :=
  (c =? 32) || (c =? 9) || (c =? 10) || (c =? 13).

Fixpoint skip_ws (s : jsstring) : jsstring :=
  match s with
  | [] => []
  | c :: t => if is_json_ws c then skip_ws t else s
  end.

Definition hex_value (c : N) : option N :=
  if (48 <=? c) && (c <=? 57) then Some (c - 48)
  else if (97 <=? c) && (c <=? 102) then Some (c - 87)
  else if (65 <=? c) && (c <=? 70) then Some (c - 55)
  else None.

Definition hex4_value (a b c d : N) : option N :=
  match hex_value a, hex_value b, hex_value c, hex_value d with
  | Some a, Some b, Some c, Some d => Some (a * 4096 + b * 256 + c * 16 + d)
  | _, _, _, _ => None
  end.

Definition unescape (e : N) : option N :=
  if e =? QUOTE then Some QUOTE
  else if e =? BACKSLASH then Some BACKSLASH
  else if e =? SLASH then Some SLASH
  else if e =? 98 then Some 8
  else if e =? 102 then Some 12
  else if e =? 110 then Some 10
  else if e =? 114 then Some 13
  else if e =? 116 then Some 9
  else None.

Definition cons_unit (c : N) (r : option (jsstring * jsstring)) : option (jsstring * jsstring) :=
  match r with
  | Some (body, rest) => Some (c :: body, rest)
  | None => None
  end.

(** After the opening quote: the string's value and what follows the
    closing quote. *)
Fixpoint parse_string_body (s : jsstring) : option (jsstring * jsstring) :=
  match s with
  | [] => None
  | c :: t =>
      if c =? QUOTE then Some ([], t)
      else if c =? BACKSLASH then
        match t with
        | [] => None
        | e :: t' =>
            if e =? 117 then
              match t' with
              | h1 :: h2 :: h3 :: h4 :: t'' =>
                  match hex4_value h1 h2 h3 h4 with
                  | Some v => cons_unit v (parse_string_body t'')
                  | None => None
                  end
              | _ => None
              end
            else
              match unescape e with
              | Some v => cons_unit v (parse_string_body t')
              | None => None
              end
        end
      else if c <? 32 then None
      else cons_unit c (parse_string_body t)
  end.

Definition is_digit (c : N) : bool := (48 <=? c) && (c <=? 57).

Fixpoint take_digits (s : jsstring) : list N * jsstring :=
  match s with
  | c :: t =>
      if is_digit c then let '(ds, rest) := take_digits t in (c :: ds, rest)
      else ([], s)
  | [] => ([], [])
  end.

Definition digits_value (ds : list N) : Z :=
  fold_left (fun acc d => (acc * 10 + Z.of_N (d - 48))%Z) ds 0%Z.

(** [-? int frac? exp?] *)
Definition parse_number (s : jsstring) : option (JsValue * jsstring) :=
  let '(neg, s1) := match s with
                    | 45 :: t => (true, t)
                    | _ => (false, s)
                    end in
  let '(int_ds, s2) := take_digits s1 in
  match int_ds with
  | [] => None
  | d :: more =>
      if (d =? 48) && negb (is_empty more) then None
      else
        let frac := match s2 with
                    | 46 :: t =>
                        let '(ds, r) := take_digits t in
                        if is_empty ds then None else Some (ds, r)
                    | _ => Some ([], s2)
                    end in
        match frac with
        | None => None
        | Some (frac_ds, s3) =>
            let expo := match s3 with
                        | e :: t =>
                            if (e =? 101) || (e =? 69) then
                              let '(eneg, t1) := match t with
                                                 | 45 :: t' => (true, t')
                                                 | 43 :: t' => (false, t')
                                                 | _ => (false, t)
                                                 end in
                              let '(ds, r) := take_digits t1 in
                              if is_empty ds then None
                              else Some ((if eneg then - digits_value ds else digits_value ds)%Z, r)
                            else Some (0%Z, s3)
                        | [] => Some (0%Z, s3)
                        end in
            match expo with
            | None => None
            | Some (ex, s4) =>
                let m := digits_value (int_ds ++ frac_ds) in
                Some (VNumber (if neg then - m else m)%Z
                              (ex - Z.of_nat (length frac_ds))%Z, s4)
            end
        end
  end.

Definition strip_literal (lit s : jsstring) : option jsstring :=
  if bool_decide (take (length lit) s = lit) then Some (drop (length lit) s) else None.

(** A property read twice keeps its first place and takes the last value. *)
Fixpoint set_prop (props : list (jsstring * JsValue)) (k : jsstring) (v : JsValue)
  : list (jsstring * JsValue) :=
  match props with
  | [] => [(k, v)]
  | (k', v') :: t =>
      if jsstring_eqb k' k then (k', v) :: t else (k', v') :: set_prop t k v
  end.

Fixpoint parse_value (fuel : nat) (s : jsstring) : option (JsValue * jsstring) :=
  match fuel with
  | O => None
  | S fuel =>
      match skip_ws s with
      | [] => None
      | c :: t =>
          if c =? 123 then
            match skip_ws t with
            | 125 :: t' => Some (VObject [], t')
            | _ => parse_members fuel [] t
            end
          else if c =? 91 then
            match skip_ws t with
            | 93 :: t' => Some (VArray [], t')
            | _ => parse_items fuel [] t
            end
          else if c =? QUOTE then
            match parse_string_body t with
            | Some (str, rest) => Some (VString str, rest)
            | None => None
            end
          else if c =? 116 then
            match strip_literal (u "rue") t with
            | Some rest => Some (VBool true, rest)
            | None => None
            end
          else if c =? 102 then
            match strip_literal (u "alse") t with
            | Some rest => Some (VBool false, rest)
            | None => None
            end
          else if c =? 110 then
            match strip_literal (u "ull") t with
            | Some rest => Some (VNull, rest)
            | None => None
            end
          else parse_number (c :: t)
      end
  end
with parse_members (fuel : nat) (acc : list (jsstring * JsValue)) (s : jsstring)
  : option (JsValue * jsstring) :=
  match fuel with
  | O => None
  | S fuel =>
      match skip_ws s with
      | 34 :: t =>
          match parse_string_body t with
          | Some (k, t1) =>
              match skip_ws t1 with
              | 58 :: t2 =>
                  match parse_value fuel t2 with
                  | Some (v, t3) =>
                      match skip_ws t3 with
                      | 44 :: t4 => parse_members fuel (set_prop acc k v) t4
                      | 125 :: t4 => Some (VObject (set_prop acc k v), t4)
                      | _ => None
                      end
                  | None => None
                  end
              | _ => None
              end
          | None => None
          end
      | _ => None
      end
  end
with parse_items (fuel : nat) (acc : list JsValue) (s : jsstring)
  : option (JsValue * jsstring) :=
  match fuel with
  | O => None
  | S fuel =>
      match parse_value fuel s with
      | Some (v, t1) =>
          match skip_ws t1 with
          | 44 :: t2 => parse_items fuel (acc ++ [v]) t2
          | 93 :: t2 => Some (VArray (acc ++ [v]), t2)
          | _ => None
          end
      | None => None
      end
  end.

(** [JSON.parse(text)]: the value, or [None] for the [SyntaxError].  Of two
    nested calls in a row at least one comes after a code unit was read,
    so twice the length of the text bounds the depth of the calls. *)
Definition JSON_parse (text : jsstring) : option JsValue :=
  match parse_value (S (S (length text + length text))) text with
  | Some (v, rest) => if is_empty (skip_ws rest) then Some v else None
  | None => None
  end.

(** ** The world of the main process

    What a handler can change: the files, the child processes it started,
    the paths handed to the desktop shell and the save dialogs it showed;
    the [copyFileSync] calls are counted besides, whether they succeed or
    not.  Console output is left out. *)

Record SpawnCall := mkSpawn {
  spawn_file : jsstring;              (* the interpreter *)
  spawn_argv : list jsstring;         (* [script, ...args] *)
  spawn_cwd : option jsstring         (* options.cwd *)
}.

Record SaveDialogOptions := mkDialog {
  title : option jsstring;
  defaultPath : jsstring;
  filters : list (jsstring * list jsstring)
}.

Record SaveDialogResult := mkChoice {
  canceled : bool;
  filePath : jsstring
}.

Record World := mkWorld {
  files : gmap jsstring jsstring;     (* path |-> content *)
  spawned : list SpawnCall;
  opened : list jsstring;             (* shell.openPath *)
  prompts : list SaveDialogOptions;   (* dialog.showSaveDialog *)
  copies : list (jsstring * jsstring) (* fs.copyFileSync(src, dest) calls *)
}.

Definition with_files (fs : gmap jsstring jsstring) (w : World) : World :=
  {| files := fs; spawned := spawned w; opened := opened w;
     prompts := prompts w; copies := copies w |}.

(** What the surroundings answer during one request. *)
Record Env := mkEnv {
  isPackaged : bool;                  (* app.isPackaged *)
  resourcesPath : jsstring;           (* process.resourcesPath *)
  dirname : jsstring;                 (* __dirname *)
  cwd : jsstring;                     (* process.cwd() *)
  userData : jsstring;                (* app.getPath("userData") *)
  temp : jsstring;                    (* app.getPath("temp") *)
  user_choice : SaveDialogOptions -> SaveDialogResult;   (* the user at the dialog *)
  Date_now : N;                       (* Date.now() *)
  child : SpawnCall -> gmap jsstring jsstring ->
          list ChildEvent * gmap jsstring jsstring;
                                      (* a child's events, and the files it leaves *)
  fetch : jsstring -> Promise (Promise JsValue);    (* fetch(url), then res.json() *)
  toUpperCase : jsstring -> jsstring; (* String.prototype.toUpperCase *)
  base64_decode : jsstring -> jsstring;             (* Buffer.from(s, "base64") *)
  URLSearchParams_toString : list (jsstring * JsValue) -> jsstring;
  write_error : jsstring -> option JsError          (* paths that cannot be written *)
}.

(** How an [async] handler ends: it returns, it throws (its promise is
    rejected: the exception crosses the IPC boundary), or it waits for ever
    on a promise that is never settled. *)
Inductive Outcome (A : Type) :=
| Returned (a : A)
| Thrown (e : JsError)
| Unsettled.
Arguments Returned {A} a.
Arguments Thrown {A} e.
Arguments Unsettled {A}.

Definition M (A : Type) : Type := World -> Outcome A * World.

Definition ret {A} (a : A) : M A := fun w => (Returned a, w).

Definition throw {A} (e : JsError) : M A := fun w => (Thrown e, w).

Definition bind {A B} (m : M A) (k : A -> M B) : M B :=
  fun w =>
    match m w with
    | (Returned a, w') => k a w'
    | (Thrown e, w') => (Thrown e, w')
    | (Unsettled, w') => (Unsettled, w')
    end.

Declare Scope js_scope.
Delimit Scope js_scope with js.
Notation "'let*' x := m 'in' k" := (bind m (fun x => k))
  (at level 10, x name, m at level 100, k at level 200) : js_scope.
Notation "m ;; k" := (bind m (fun _ => k))
  (at level 100, k at level 200, right associativity) : js_scope.
Open Scope js_scope.

(** [try { body } catch (err) { handler }] *)
Definition try_catch {A} (body : M A) (handler : JsError -> M A) : M A :=
  fun w =>
    match body w with
    | (Thrown e, w') => handler e w'
    | r => r
    end.

(** [await p] *)
Definition await {A} (p : Promise A) : M A :=
  fun w =>
    (match p with
     | Fulfilled v => Returned v
     | Rejected e => Thrown e
     | Pending => Unsettled
     end, w).

(** [spawn(file, argv, options)], for a call that Node takes (see
    [spawn_accepts] below): the child exists from here on, and what it
    does is the environment's. *)
Definition spawn (env : Env) (call : SpawnCall) : M (list ChildEvent) :=
  fun w =>
    let '(evs, fs) := child env call (files w) in
    (Returned evs,
     {| files := fs; spawned := spawned w ++ [call];
        opened := opened w; prompts := prompts w; copies := copies w |}).

(** The calls [child_process.spawn] takes.  It validates its arguments
    before any process exists and throws a [TypeError] when the file is
    the empty string, or when the file, an argument or the working
    directory holds a NUL code unit; [spawn] above is for the calls it
    takes.  (What the operating system refuses for its size is the
    environment's and is not represented.) *)
Definition has_NUL (s : jsstring) : bool := existsb (N.eqb 0) s.

Definition spawn_accepts (call : SpawnCall) : bool :=
  negb (is_empty (spawn_file call))
  && negb (has_NUL (spawn_file call))
  && forallb (fun a => negb (has_NUL a)) (spawn_argv call)
  && match spawn_cwd call with
     | Some d => negb (has_NUL d)
     | None => true
     end.

(** [await dialog.showSaveDialog(options)] *)
Definition showSaveDialog (env : Env) (options : SaveDialogOptions) : M SaveDialogResult :=
  fun w =>
    (Returned (user_choice env options),
     {| files := files w; spawned := spawned w;
        opened := opened w; prompts := prompts w ++ [options];
        copies := copies w |}).

(** [shell.openPath(p)], not awaited. *)
Definition shell_openPath (p : jsstring) : M unit :=
  fun w =>
    (Returned tt,
     {| files := files w; spawned := spawned w;
        opened := opened w ++ [p]; prompts := prompts w;
        copies := copies w |}).

Definition set_file (p data : jsstring) (w : World) : World :=
  with_files (<[p := data]> (files w)) w.

Definition note_copy (src dest : jsstring) (w : World) : World :=
  {| files := files w; spawned := spawned w; opened := opened w;
     prompts := prompts w; copies := copies w ++ [(src, dest)] |}.

(** [fs.writeFileSync(p, data)] *)
Definition writeFileSync (env : Env) (p data : jsstring) : M unit :=
  fun w =>
    match write_error env p with
    | Some e => (Thrown e, w)
    | None => (Returned tt, set_file p data w)
    end.

Definition ENOENT (syscall : string) (detail : jsstring) : JsError :=
  mkError (u "ENOENT: no such file or directory, " ++ u syscall ++ u " '" ++ detail ++ u "'").

(** [fs.copyFileSync(src, dest)] *)
Definition copyFileSync (env : Env) (src dest : jsstring) : M unit :=
  fun w =>
    let w := note_copy src dest w in
    match files w !! src with
    | None => (Thrown (ENOENT "copyfile" (src ++ u "' -> '" ++ dest)), w)
    | Some data =>
        match write_error env dest with
        | Some e => (Thrown e, w)
        | None => (Returned tt, set_file dest data w)
        end
    end.

(** [fs.existsSync(p)] *)
Definition existsSync (p : jsstring) : M bool :=
  fun w => (Returned (bool_decide (is_Some (files w !! p))), w).

(** [fs.readFileSync(p, "utf8")] *)
Definition readFileSync (p : jsstring) : M jsstring :=
  fun w =>
    match files w !! p with
    | Some data => (Returned data, w)
    | None => (Thrown (ENOENT "open" p), w)
    end.

(** [JSON.parse(text)] inside a handler; the wording of the [SyntaxError]
    is not reproduced. *)
Definition parse_json (text : jsstring) : M JsValue :=
  match JSON_parse text with
  | Some v => ret v
  | None => throw (mkError (u "Unexpected token in JSON"))
  end.

(** [s.replace(/^data:image\/png;base64,/, "")] *)
Definition strip_data_url (s : jsstring) : jsstring :=
  let prefix := u "data:image/png;base64," in
  if bool_decide (take (length prefix) s = prefix) then drop (length prefix) s else s.

(** A string or [null]/[undefined] in a condition. *)
Definition truthy (s : option jsstring) : bool :=
  match s with
  | Some (_ :: _) => true
  | _ => false
  end.

Definition or_empty (s : option jsstring) : jsstring :=
  match s with Some s => s | None => [] end.

(** Request objects of the renderer. *)
Record CsvParams := mkCsv {
  csv_symbols : jsstring;             (* symbols, or symbol *)
  csv_startDate : jsstring;
  csv_endDate : jsstring
}.

Record PdfParams := mkPdf {
  section : jsstring;
  symbols : jsstring;
  startDate : jsstring;
  endDate : jsstring;
  chartImageBase64 : option jsstring
}.

Record LoadDataParams := mkLoad {
  load_section : jsstring;
  load_rest : list (jsstring * JsValue)   (* the other properties *)
}.

Definition obj_success (b : bool) : jsstring * JsValue := (u "success", VBool b).
Definition obj_error (e : JsError) : jsstring * JsValue := (u "error", VString (message e)).

(** The name of the chart image: [`allium_chart_${Date.now()}.png`] under
    the temporary directory. *)
Definition chart_file_name (now : N) : jsstring :=
  u "allium_chart_" ++ N_toString now ++ u ".png".

Definition chart_path (tempdir : jsstring) (now : N) : jsstring :=
  path_join [tempdir; chart_file_name now].

(** Whether [String(v)] returns, for a value received over IPC.  It
    throws a [TypeError] for an object with a property "toString" of its
    own: that property is no function (functions do not cross the IPC
    boundary), and [valueOf], own or inherited, gives no primitive
    either.  An array is joined, so it is converted when its elements
    are. *)
Fixpoint converts_to_string (v : JsValue) : bool :=
  match v with
  | VArray items => forallb converts_to_string items
  | VObject props => negb (existsb (fun kv => jsstring_eqb (fst kv) (u "toString")) props)
  | _ => true
  end.

Definition conversion_error : JsError :=
  mkError (u "Cannot convert object to primitive value").

(** [new URLSearchParams(q).toString()] for an object [q]: the
    constructor converts every value to a string, and throws when one
    cannot be converted. *)
Definition URLSearchParams_of (env : Env) (q : list (jsstring * JsValue)) : M jsstring :=
  if forallb (fun kv => converts_to_string (snd kv)) q
  then ret (URLSearchParams_toString env q)
  else throw conversion_error.

(** ** The complete main-process script ("Electron Main Process") *)

Module Main.
Section Handlers.
Variable env : Env.

Definition isDev : bool := negb (isPackaged env).

Definition apiKeysPath : jsstring := path_join [userData env; u "api_keys.json"].

Definition projectRoot : jsstring :=
  if isDev then path_resolve (cwd env) [dirname env; u ".."]
  else resourcesPath env.

Definition pythonPath : jsstring :=
  if isDev then path_join [projectRoot; u ".venv/bin/python3"]
  else path_join [resourcesPath env; u "pyapp/bin/python3"].

(** [realScriptPath] inside [runPythonScript]. *)
Definition realScriptPath (scriptPath : jsstring) : jsstring :=
  if isDev then scriptPath
  else path_join [resourcesPath env; u "python/whalescope_scripts";
                  path_basename scriptPath].

(** [spawn(pythonPath, [realScriptPath, ...args], { stdio })] *)
Definition python_call (scriptPath : jsstring) (args : list jsstring) : SpawnCall :=
  {| spawn_file := pythonPath;
     spawn_argv := realScriptPath scriptPath :: args;
     spawn_cwd := None |}.

Definition runPythonScript (scriptPath : jsstring) (args : list jsstring) : M jsstring :=
  let* evs := spawn env (python_call scriptPath args) in
  await (promise (run_events evs)).

Definition saveApiKeys (keys : KeySet) : M JsValue :=
  try_catch
    (writeFileSync env apiKeysPath (JSON_stringify keys) ;;
     ret (VObject [obj_success true]))
    (fun err => ret (VObject [obj_success false; obj_error err])).

Definition loadApiKeys : M JsValue :=
  try_catch
    (let* found := existsSync apiKeysPath in
     if found then
       let* text := readFileSync apiKeysPath in
       let* keys := parse_json text in
       ret (VObject [obj_success true; (u "keys", keys)])
     else ret (VObject [obj_success false; (u "keys", VObject [])]))
    (fun err => ret (VObject [obj_success false; obj_error err])).

(** The endpoint is worked out before the [try]: what the conversion of
    the parameters throws leaves the handler. *)
Definition loadData (params : LoadDataParams) : M JsValue :=
  let* endpoint :=
    if jsstring_eqb (load_section params) (u "binance_polar")
    then ret (u "http://127.0.0.1:5001/api/binance_polar")
    else
      let* query := URLSearchParams_of env (load_rest params) in
      ret (u "http://127.0.0.1:5001/api/" ++ load_section params ++ u "?" ++ query) in
  try_catch
    (let* res := await (fetch env endpoint) in
     await res)
    (fun err => ret (VObject [obj_error err])).

(** ["marketbrain:exportCsv"] *)
Definition marketbrain_exportCsv (p : CsvParams) : M JsValue :=
  let* saveDialog := showSaveDialog env
    {| title := Some (u "Export " ++ csv_symbols p ++ u " CSV");
       defaultPath := u "MarketBrain_" ++ csv_symbols p ++ u "_" ++ csv_startDate p
                        ++ u "_" ++ csv_endDate p ++ u ".csv";
       filters := [(u "CSV Files", [u "csv"])] |} in
  if canceled saveDialog then ret (VObject [(u "canceled", VBool true)])
  else
    let scriptPath :=
      if isDev
      then path_join [projectRoot; u "python/whalescope_scripts/export_marketbrain_csv.py"]
      else path_join [resourcesPath env;
                      u "python/whalescope_scripts/export_marketbrain_csv.py"] in
    try_catch
      (let* out := runPythonScript scriptPath
                     [csv_symbols p; csv_startDate p; csv_endDate p] in
       let tempCsvPath := trim out in
       copyFileSync env tempCsvPath (filePath saveDialog) ;;
       shell_openPath (filePath saveDialog) ;;
       ret (VObject [(u "canceled", VBool false);
                     (u "filePath", VString (filePath saveDialog))]))
      (fun err => ret (VObject [(u "canceled", VBool false); obj_error err])).

(** ["binance_market:exportCsv"] *)
Definition binance_market_exportCsv (p : CsvParams) : M JsValue :=
  let* saveDialog := showSaveDialog env
    {| title := Some (u "Export " ++ csv_symbols p ++ u " Binance Market CSV");
       defaultPath := u "WhaleScope_" ++ csv_symbols p ++ u "_" ++ csv_startDate p
                        ++ u "_" ++ csv_endDate p ++ u ".csv";
       filters := [(u "CSV Files", [u "csv"])] |} in
  if canceled saveDialog then ret (VObject [(u "canceled", VBool true)])
  else
    let scriptPath :=
      if isDev
      then path_join [projectRoot; u "python/whalescope_scripts/export_binance_market_csv.py"]
      else path_join [resourcesPath env;
                      u "python/whalescope_scripts/export_binance_market_csv.py"] in
    try_catch
      (let* out := runPythonScript scriptPath
                     [toUpperCase env (csv_symbols p);
                      u "--start-date"; csv_startDate p;
                      u "--end-date"; csv_endDate p] in
       let tempCsvPath := trim out in
       copyFileSync env tempCsvPath (filePath saveDialog) ;;
       shell_openPath (filePath saveDialog) ;;
       ret (VObject [(u "canceled", VBool false);
                     (u "filePath", VString (filePath saveDialog))]))
      (fun err => ret (VObject [(u "canceled", VBool false); obj_error err])).

(** The [if / else if] chain of ["exportPDF"]: it leaves the script and
    its arguments, or returns a value at once, or throws. *)
Definition exportPDF_select (p : PdfParams) : M (jsstring * list jsstring + JsValue) :=
  if jsstring_eqb (section p) (u "allium") then
    let scriptPath :=
      path_join [projectRoot; u "python/whalescope_scripts/export_pdf_allium.py"] in
    let* chartPath :=
      (if truthy (chartImageBase64 p) then
         let chartPath := chart_path (temp env) (Date_now env) in
         writeFileSync env chartPath
           (base64_decode env (strip_data_url (or_empty (chartImageBase64 p)))) ;;
         ret chartPath
       else ret []) in
    let args := [toUpperCase env (symbols p); startDate p; endDate p] in
    let args := if is_empty chartPath then args else args ++ [chartPath] in
    ret (inl (scriptPath, args))
  else if jsstring_eqb (section p) (u "binance_market") then
    let scriptPath :=
      path_join [projectRoot; u "python/whalescope_scripts/export_pdf_binance_market.py"] in
    ret (inl (scriptPath,
              [toUpperCase env (symbols p);
               u "--start-date"; startDate p; u "--end-date"; endDate p]))
  else if jsstring_eqb (section p) (u "binance_polar") then
    ret (inr (VObject [obj_success false;
                       (u "error", VString (u "Export is disabled for Binance Polar."))]))
  else throw (mkError (u "Unknown PDF export section: " ++ section p)).

(** ["exportPDF"] *)
Definition exportPDF (p : PdfParams) : M JsValue :=
  try_catch
    (let* saveDialog := showSaveDialog env
       {| title := Some (u "Export " ++ symbols p ++ u " Report (PDF)");
          defaultPath := u "WhaleScope_" ++ section p ++ u "_" ++ symbols p ++ u "_"
                           ++ startDate p ++ u "_" ++ endDate p ++ u ".pdf";
          filters := [(u "PDF Files", [u "pdf"])] |} in
     if canceled saveDialog then ret (VObject [obj_success false])
     else
       let* selected := exportPDF_select p in
       match selected with
       | inr early => ret early
       | inl (scriptPath, args) =>
           let* out := runPythonScript scriptPath args in
           let pdfTmpPath := trim out in
           copyFileSync env pdfTmpPath (filePath saveDialog) ;;
           shell_openPath (filePath saveDialog) ;;
           ret (VObject [obj_success true; (u "filePath", VString (filePath saveDialog))])
       end)
    (fun err => ret (VObject [obj_success false; obj_error err])).

(** ["openPath"] *)
Definition openPath (p : jsstring) : M JsValue :=
  shell_openPath p ;; ret VUndefined.

(** ["runPython"] *)
Definition runPython (scriptPath : jsstring) : M JsValue :=
  try_catch
    (let* result := runPythonScript scriptPath [] in
     ret (VObject [obj_success true; (u "output", VString result)]))
    (fun err => ret (VObject [obj_success false; obj_error err])).

(** ["getLidoData"] *)
Definition getLidoData : M JsValue :=
  let scriptPath := path_join [projectRoot; u "python/whalescope_scripts/lido_staking.py"] in
  try_catch
    (let* output := runPythonScript scriptPath [] in
     parse_json output)
    (fun err => ret (VObject [obj_error err])).

(** The child [startPythonBackend] starts: the interpreter is worked out
    again, the backend script and the working directory by mode. *)
Definition backendScript : jsstring :=
  if isDev
  then path_join [projectRoot; u "python/whalescope_scripts/backend_ultra_pro.py"]
  else path_join [resourcesPath env; u "pyapp/whalescope_scripts/backend_ultra_pro.py"].

Definition startPythonBackend : SpawnCall :=
  let pythonPath :=
    if isDev then path_join [projectRoot; u ".venv/bin/python3"]
    else path_join [resourcesPath env; u "pyapp/bin/python3"] in
  {| spawn_file := pythonPath;
     spawn_argv := [backendScript];
     spawn_cwd := Some (if isDev then projectRoot
                        else path_join [resourcesPath env; u "pyapp"]) |}.

End Handlers.
End Main.

(** ** The shorter main-process script ("DEV + DMG READY") *)

Module MainDmg.
Section Handlers.
Variable env : Env.

Definition isDev : bool := negb (isPackaged env).

Definition apiKeysPath : jsstring := path_join [userData env; u "api_keys.json"].

Definition projectRoot : jsstring :=
  if isDev then path_resolve (cwd env) [dirname env; u ".."; u "python"]
  else path_join [resourcesPath env; u "pyapp"].

Definition pythonPath : jsstring :=
  if isDev then path_join [projectRoot; u ".."; u ".venv/bin/python3"]
  else path_join [projectRoot; u "bin/python3"].

Definition getScriptPath (scriptName : jsstring) : jsstring :=
  if isDev then path_join [projectRoot; u "whalescope_scripts"; scriptName]
  else path_join [projectRoot; u "whalescope_scripts"; scriptName].

(** [spawn(pythonPath, [scriptPath, ...args], { cwd: projectRoot, env, stdio })] *)
Definition python_call (scriptName : jsstring) (args : list jsstring) : SpawnCall :=
  let scriptPath := getScriptPath scriptName in
  {| spawn_file := pythonPath;
     spawn_argv := scriptPath :: args;
     spawn_cwd := Some projectRoot |}.

Definition runPythonScript (scriptName : jsstring) (args : list jsstring) : M jsstring :=
  let* evs := spawn env (python_call scriptName args) in
  await (promise (run_events evs)).

Definition saveApiKeys (keys : KeySet) : M JsValue :=
  writeFileSync env apiKeysPath (JSON_stringify keys) ;;
  ret (VObject [obj_success true]).

Definition loadApiKeys : M JsValue :=
  let* found := existsSync apiKeysPath in
  if found then
    let* text := readFileSync apiKeysPath in
    let* keys := parse_json text in
    ret (VObject [obj_success true; (u "keys", keys)])
  else ret (VObject [obj_success false; (u "keys", VObject [])]).

(** The endpoint is worked out before the [try]: what the conversion of
    the parameters throws leaves the handler. *)
Definition loadData (params : LoadDataParams) : M JsValue :=
  let* endpoint :=
    if jsstring_eqb (load_section params) (u "binance_polar")
    then ret (u "http://127.0.0.1:5001/api/binance_polar")
    else
      let* query := URLSearchParams_of env (load_rest params) in
      ret (u "http://127.0.0.1:5001/api/" ++ load_section params ++ u "?" ++ query) in
  try_catch
    (let* res := await (fetch env endpoint) in
     await res)
    (fun err => ret (VObject [obj_error err])).

(** ["marketbrain:exportCsv"] *)
Definition marketbrain_exportCsv (p : CsvParams) : M JsValue :=
  let* saveDialog := showSaveDialog env
    {| title := Some (u "Export MarketBrain CSV");
       defaultPath := u "MarketBrain_" ++ csv_symbols p ++ u "_" ++ csv_startDate p
                        ++ u "_" ++ csv_endDate p ++ u ".csv";
       filters := [(u "CSV Files", [u "csv"])] |} in
  if canceled saveDialog then ret (VObject [(u "canceled", VBool true)])
  else
    try_catch
      (let* tempCsvPath := runPythonScript (u "export_marketbrain_csv.py")
                             [csv_symbols p; csv_startDate p; csv_endDate p] in
       copyFileSync env (trim tempCsvPath) (filePath saveDialog) ;;
       shell_openPath (filePath saveDialog) ;;
       ret (VObject [obj_success true; (u "filePath", VString (filePath saveDialog))]))
      (fun err => ret (VObject [obj_success false; obj_error err])).

(** ["binance_market:exportCsv"] *)
Definition binance_market_exportCsv (p : CsvParams) : M JsValue :=
  let* saveDialog := showSaveDialog env
    {| title := None;
       defaultPath := u "WhaleScope_" ++ csv_symbols p ++ u "_" ++ csv_startDate p
                        ++ u "_" ++ csv_endDate p ++ u ".csv";
       filters := [(u "CSV Files", [u "csv"])] |} in
  if canceled saveDialog then ret VUndefined
  else
    let* tempCsvPath := runPythonScript (u "export_binance_market_csv.py")
                          [toUpperCase env (csv_symbols p);
                           u "--start-date"; csv_startDate p;
                           u "--end-date"; csv_endDate p] in
    copyFileSync env tempCsvPath (filePath saveDialog) ;;
    shell_openPath (filePath saveDialog) ;;
    ret (VObject [obj_success true]).

(** The [if / else if] chain of ["exportPDF"]. *)
Definition exportPDF_select (p : PdfParams) : M (jsstring * list jsstring + JsValue) :=
  if jsstring_eqb (section p) (u "allium") then
    let scriptName := u "export_pdf_allium.py" in
    let* args :=
      (if truthy (chartImageBase64 p) then
         let chartPath := chart_path (temp env) (Date_now env) in
         writeFileSync env chartPath
           (base64_decode env (strip_data_url (or_empty (chartImageBase64 p)))) ;;
         ret [chartPath]
       else ret []) in
    ret (inl (scriptName,
              [toUpperCase env (symbols p); startDate p; endDate p] ++ args))
  else if jsstring_eqb (section p) (u "binance_market") then
    ret (inl (u "export_pdf_binance_market.py",
              [toUpperCase env (symbols p);
               u "--start-date"; startDate p; u "--end-date"; endDate p]))
  else
    ret (inr (VObject [obj_success false;
                       (u "error", VString (u "Export not supported here."))])).

(** ["exportPDF"] *)
Definition exportPDF (p : PdfParams) : M JsValue :=
  let* saveDialog := showSaveDialog env
    {| title := None;
       defaultPath := u "WhaleScope_" ++ section p ++ u "_" ++ symbols p ++ u "_"
                        ++ startDate p ++ u "_" ++ endDate p ++ u ".pdf";
       filters := [(u "PDF Files", [u "pdf"])] |} in
  if canceled saveDialog then ret VUndefined
  else
    let* selected := exportPDF_select p in
    match selected with
    | inr early => ret early
    | inl (scriptName, args) =>
        let* pdfTmpPath := runPythonScript scriptName args in
        copyFileSync env pdfTmpPath (filePath saveDialog) ;;
        shell_openPath (filePath saveDialog) ;;
        ret (VObject [obj_success true])
    end.

(** The child [startPythonBackend] starts. *)
Definition startPythonBackend : SpawnCall :=
  let backendScript := getScriptPath (u "backend_ultra_pro.py") in
  {| spawn_file := pythonPath;
     spawn_argv := [backendScript];
     spawn_cwd := Some projectRoot |}.

End Handlers.
End MainDmg.

(** ** The IPC channels

    [ipcMain.handle(channel, handler)]: a request names a channel and
    carries its argument. *)

Inductive ExportRequest :=
| MarketbrainCsv (p : CsvParams)        (* "marketbrain:exportCsv" *)
| BinanceMarketCsv (p : CsvParams)      (* "binance_market:exportCsv" *)
| ExportPdf (p : PdfParams).            (* "exportPDF" *)

Inductive Request :=
| SaveApiKeys (keys : KeySet)
| LoadApiKeys
| LoadData (p : LoadDataParams)
| Export (r : ExportRequest)
| OpenPath (p : jsstring)
| RunPython (scriptPath : jsstring)
| GetLidoData.

Inductive Script := CompleteScript | DmgScript.

Definition export_handler (s : Script) (env : Env) (r : ExportRequest) : M JsValue :=
  match s, r with
  | CompleteScript, MarketbrainCsv p => Main.marketbrain_exportCsv env p
  | CompleteScript, BinanceMarketCsv p => Main.binance_market_exportCsv env p
  | CompleteScript, ExportPdf p => Main.exportPDF env p
  | DmgScript, MarketbrainCsv p => MainDmg.marketbrain_exportCsv env p
  | DmgScript, BinanceMarketCsv p => MainDmg.binance_market_exportCsv env p
  | DmgScript, ExportPdf p => MainDmg.exportPDF env p
  end.

(** The handlers a script registers; [None] where it registers none for the
    channel. *)
Definition handler (s : Script) (env : Env) (r : Request) : option (M JsValue) :=
  match r with
  | Export e => Some (export_handler s env e)
  | SaveApiKeys keys =>
      Some (match s with
            | CompleteScript => Main.saveApiKeys env keys
            | DmgScript => MainDmg.saveApiKeys env keys
            end)
  | LoadApiKeys =>
      Some (match s with
            | CompleteScript => Main.loadApiKeys env
            | DmgScript => MainDmg.loadApiKeys env
            end)
  | LoadData p =>
      Some (match s with
            | CompleteScript => Main.loadData env p
            | DmgScript => MainDmg.loadData env p
            end)
  | OpenPath p =>
      match s with CompleteScript => Some (Main.openPath p) | DmgScript => None end
  | RunPython scriptPath =>
      match s with CompleteScript => Some (Main.runPython env scriptPath) | DmgScript => None end
  | GetLidoData =>
      match s with CompleteScript => Some (Main.getLidoData env) | DmgScript => None end
  end.

(** The script path resolution of each script, and the directory that
    holds the worker scripts of the packaged application. *)
Definition resolve_script (s : Script) (env : Env) (script : jsstring) : jsstring :=
  match s with
  | CompleteScript => Main.realScriptPath env script
  | DmgScript => MainDmg.getScriptPath env script
  end.

Definition packaged_scripts_dir (s : Script) (env : Env) : jsstring :=
  match s with
  | CompleteScript => path_join [resourcesPath env; u "python/whalescope_scripts"]
  | DmgScript => path_join [MainDmg.projectRoot env; u "whalescope_scripts"]
  end.

(** [runPythonScript] of each script, awaited, and the child it starts. *)
Definition invoke (s : Script) (env : Env) (script : jsstring) (args : list jsstring)
  : M jsstring :=
  match s with
  | CompleteScript => Main.runPythonScript env script args
  | DmgScript => MainDmg.runPythonScript env script args
  end.

Definition invoke_call (s : Script) (env : Env) (script : jsstring) (args : list jsstring)
  : SpawnCall :=
  match s with
  | CompleteScript => Main.python_call env script args
  | DmgScript => MainDmg.python_call env script args
  end.

(** The credentials handlers of each script. *)
Definition saveApiKeys_of (s : Script) (env : Env) (keys : KeySet) : M JsValue :=
  match s with
  | CompleteScript => Main.saveApiKeys env keys
  | DmgScript => MainDmg.saveApiKeys env keys
  end.

Definition loadApiKeys_of (s : Script) (env : Env) : M JsValue :=
  match s with
  | CompleteScript => Main.loadApiKeys env
  | DmgScript => MainDmg.loadApiKeys env
  end.

(** ** The preload script: [window.electronAPI]

    Each method of the bridge invokes one channel ([invoke] passes the
    channel it is given). *)

Inductive ApiMethod :=
| api_loadData
| api_exportMarketbrainCsv
| api_exportBinanceMarketCsv
| api_exportPDF
| api_openPath
| api_saveApiKeys
| api_runPython
| api_getLidoData.

Definition api_channel (m : ApiMethod) : jsstring :=
  match m with
  | api_loadData => u "loadData"
  | api_exportMarketbrainCsv => u "marketbrain:exportCsv"
  | api_exportBinanceMarketCsv => u "binance_market:exportCsv"
  | api_exportPDF => u "exportPDF"
  | api_openPath => u "openPath"
  | api_saveApiKeys => u "saveApiKeys"
  | api_runPython => u "runPython"
  | api_getLidoData => u "getLidoData"
  end.

(** The channels of the [ipcMain.handle] calls of each script, in the
    order of the calls. *)
Definition ipcMain_channels (s : Script) : list jsstring :=
  match s with
  | CompleteScript =>
      [u "saveApiKeys"; u "loadApiKeys"; u "loadData"; u "marketbrain:exportCsv";
       u "binance_market:exportCsv"; u "exportPDF"; u "openPath"; u "runPython";
       u "getLidoData"]
  | DmgScript =>
      [u "saveApiKeys"; u "loadApiKeys"; u "loadData"; u "marketbrain:exportCsv";
       u "binance_market:exportCsv"; u "exportPDF"]
  end.

(** The channel a request names. *)
Definition request_channel (r : Request) : jsstring :=
  match r with
  | SaveApiKeys _ => u "saveApiKeys"
  | LoadApiKeys => u "loadApiKeys"
  | LoadData _ => u "loadData"
  | Export (MarketbrainCsv _) => u "marketbrain:exportCsv"
  | Export (BinanceMarketCsv _) => u "binance_market:exportCsv"
  | Export (ExportPdf _) => u "exportPDF"
  | OpenPath _ => u "openPath"
  | RunPython _ => u "runPython"
  | GetLidoData => u "getLidoData"
  end.

(** ** The packaging hook (afterPackFix.js)

    The hook marks the embedded interpreter as executable.  The build
    directory is kept as the permission bits of its files. *)

Record PackContext := mkContext {
  appOutDir : jsstring;               (* context.appOutDir *)
  productFilename : jsstring          (* context.packager.appInfo.productFilename *)
}.

(** [fs.chmodSync(p, mode)] *)
Definition chmodSync (chmod_error : jsstring -> option JsError) (p : jsstring) (mode : N)
    (modes : gmap jsstring N) : Outcome unit * gmap jsstring N :=
  match modes !! p with
  | None => (Thrown (ENOENT "chmod" p), modes)
  | Some _ =>
      match chmod_error p with
      | Some e => (Thrown e, modes)
      | None => (Returned tt, <[p := mode]> modes)
      end
  end.

Definition afterPack_pythonPath (context : PackContext) : jsstring :=
  let appBaseName := productFilename context in
  path_join [appOutDir context; appBaseName ++ u ".app"; u "Contents"; u "Resources";
             u "python"; u "bin"; u "python3"].

(** [exports.default]; [0o755] is 493. *)
Definition afterPackFix (chmod_error : jsstring -> option JsError) (context : PackContext)
    (modes : gmap jsstring N) : Outcome unit * gmap jsstring N :=
  match chmodSync chmod_error (afterPack_pythonPath context) 493 modes with
  | (Thrown err, modes') => (Returned tt, modes')
  | r => r
  end.

(** ** The renderer: configuration and export buttons (renderer.js)

    The renderer runs in a process of its own and reaches the main
    process through the preload bridge only.  Of the page, what the
    handlers below read and change is kept.  The page is taken to hold
    the elements that the script looks up by id and uses without a test,
    and [window.showSection] (scripts.js, it catches its own errors) is
    taken to be loaded; elements the script tests for are optional. *)

(** [JSON.stringify(cfg)], without indentation. *)
Definition compact_member (kv : jsstring * jsstring) : jsstring :=
  JSON_quote (fst kv) ++ 58 :: JSON_quote (snd kv).

Fixpoint compact_members (k : KeySet) : jsstring :=
  match k with
  | [] => []
  | [kv] => compact_member kv
  | kv :: t => compact_member kv ++ 44 :: compact_members t
  end.

Definition JSON_stringify_compact (k : KeySet) : jsstring :=
  123 :: compact_members k ++ [125].

(** Whether the literal [mantissa * 10^exponent] is read as zero: it is
    zero, or at most half of the least positive binary64 number
    ([2^-1075], the tie going to zero). *)
Definition number_is_zero (mantissa exponent : Z) : bool :=
  (mantissa =? 0)%Z
  || ((exponent <? 0)%Z && (Z.abs mantissa * 2 ^ 1075 <=? 10 ^ (- exponent))%Z).

(** A value in a condition. *)
Definition truthy_value (v : JsValue) : bool :=
  match v with
  | VUndefined | VNull => false
  | VBool b => b
  | VNumber m e => negb (number_is_zero m e)
  | VString s => negb (is_empty s)
  | VArray _ | VObject _ => true
  end.

Fixpoint own_property (props : list (jsstring * JsValue)) (k : jsstring) : JsValue :=
  match props with
  | [] => VUndefined
  | (k', v) :: t => if jsstring_eqb k' k then v else own_property t k
  end.

(** [v.KEY], for a key that no prototype holds and that is neither an
    index nor ["length"]; [None] is the [TypeError] of a read on [null] or
    [undefined]. *)
Definition read_key (v : JsValue) (k : jsstring) : option JsValue :=
  match v with
  | VUndefined | VNull => None
  | VObject props => Some (own_property props k)
  | _ => Some VUndefined
  end.

(** [!result || result.canceled]: the test of an export button on the
    answer of the main process. *)
Definition answer_cancelled (result : JsValue) : bool :=
  negb (truthy_value result)
  || match read_key result (u "canceled") with
     | Some v => truthy_value v
     | None => false
     end.

(** An object whose values are all strings. *)
Fixpoint as_keyset_props (props : list (jsstring * JsValue)) : option KeySet :=
  match props with
  | [] => Some []
  | (k, VString v) :: t =>
      match as_keyset_props t with
      | Some ks => Some ((k, v) :: ks)
      | None => None
      end
  | _ => None
  end.

Definition as_keyset (v : JsValue) : option KeySet :=
  match v with
  | VObject props => as_keyset_props props
  | _ => None
  end.

Record Page := mkPage {
  localStorage : gmap jsstring jsstring;
  alerts : list jsstring;               (* alert(message) *)
  configSection_display : jsstring;     (* configSection.style.display *)
  mainApp_display : jsstring;           (* mainApp.style.display *)
  shownSections : list jsstring;        (* window.showSection(section) *)
  submit_listener : bool;               (* the form's 'submit' listener is registered *)
  ethRefresh_listener : bool;           (* the 'click' listener of #eth-refreshBtn is registered *)
  downloads : list jsstring;            (* the files offered for download, by name *)
  loadingDiv_display : option jsstring  (* loadingDiv.style.display; [None]: no such element *)
}.

(** How an [async] listener of the renderer ends: it returns, its promise
    is rejected (an unhandled rejection), or it waits for ever. *)
Inductive Ending := Done | Rejects | Waits.

Definition with_alert (message : jsstring) (pg : Page) : Page :=
  {| localStorage := localStorage pg; alerts := alerts pg ++ [message];
     configSection_display := configSection_display pg;
     mainApp_display := mainApp_display pg; shownSections := shownSections pg;
     submit_listener := submit_listener pg;
     ethRefresh_listener := ethRefresh_listener pg; downloads := downloads pg;
     loadingDiv_display := loadingDiv_display pg |}.

Definition with_storage (st : gmap jsstring jsstring) (pg : Page) : Page :=
  {| localStorage := st; alerts := alerts pg;
     configSection_display := configSection_display pg;
     mainApp_display := mainApp_display pg; shownSections := shownSections pg;
     submit_listener := submit_listener pg;
     ethRefresh_listener := ethRefresh_listener pg; downloads := downloads pg;
     loadingDiv_display := loadingDiv_display pg |}.

(** [if (loadingDiv) loadingDiv.style.display = value] *)
Definition with_loading (value : jsstring) (pg : Page) : Page :=
  {| localStorage := localStorage pg; alerts := alerts pg;
     configSection_display := configSection_display pg;
     mainApp_display := mainApp_display pg; shownSections := shownSections pg;
     submit_listener := submit_listener pg;
     ethRefresh_listener := ethRefresh_listener pg; downloads := downloads pg;
     loadingDiv_display := match loadingDiv_display pg with
                           | Some _ => Some value
                           | None => None
                           end |}.

(** The configuration screen gives way to the application:
    [configSection.style.display = 'none'; mainApp.style.display = 'block';
     window.showSection('marketbrain')]. *)
Definition show_app (pg : Page) : Page :=
  {| localStorage := localStorage pg; alerts := alerts pg;
     configSection_display := u "none";
     mainApp_display := u "block";
     shownSections := shownSections pg ++ [u "marketbrain"];
     submit_listener := submit_listener pg;
     ethRefresh_listener := ethRefresh_listener pg; downloads := downloads pg;
     loadingDiv_display := loadingDiv_display pg |}.

Definition with_submit_listener (pg : Page) : Page :=
  {| localStorage := localStorage pg; alerts := alerts pg;
     configSection_display := configSection_display pg;
     mainApp_display := mainApp_display pg; shownSections := shownSections pg;
     submit_listener := true;
     ethRefresh_listener := ethRefresh_listener pg; downloads := downloads pg;
     loadingDiv_display := loadingDiv_display pg |}.

Definition with_ethRefresh_listener (pg : Page) : Page :=
  {| localStorage := localStorage pg; alerts := alerts pg;
     configSection_display := configSection_display pg;
     mainApp_display := mainApp_display pg; shownSections := shownSections pg;
     submit_listener := submit_listener pg;
     ethRefresh_listener := true; downloads := downloads pg;
     loadingDiv_display := loadingDiv_display pg |}.

(** [window.electronAPI.<method>(data)], that is
    [ipcRenderer.invoke(channel, data)]: the handler of the channel runs in
    the main process; a channel without a handler makes the call reject. *)
Definition ipc_invoke (s : Script) (env : Env) (r : Request) : M JsValue :=
  match handler s env r with
  | Some h => h
  | None =>
      throw (mkError (u "Error invoking remote method '" ++ request_channel r
                      ++ u "': Error: No handler registered for '"
                      ++ request_channel r ++ u "'"))
  end.

(** The values of the configuration form. *)
Record ConfigForm := mkForm {
  apiKey : jsstring;
  apiSecret : jsstring;
  arkhamKey : jsstring;
  cmcKey : jsstring;
  alliumKey : jsstring;
  openaiKey : jsstring;
  coingeckoKey : option jsstring        (* [None]: no such element *)
}.

Definition whalescopeConfig : jsstring := u "whalescopeConfig".

(** [cfg] of the 'submit' listener. *)
Definition form_cfg (f : ConfigForm) : KeySet :=
  [(u "BINANCE_API_KEY", trim (apiKey f));
   (u "BINANCE_API_SECRET", trim (apiSecret f));
   (u "ARKHAM_API_KEY", trim (arkhamKey f));
   (u "CMC_API_KEY", trim (cmcKey f));
   (u "ALLIUM_API_KEY", trim (alliumKey f));
   (u "OPENAI_API_KEY", trim (openaiKey f));
   (u "COINGECKO_API_KEY",
    match coingeckoKey f with
    | Some value => trim value
    | None => []
    end)].

(** The 'submit' listener of the configuration form. *)
Definition on_submit (s : Script) (env : Env) (f : ConfigForm) (st : Page * World)
  : Ending * (Page * World) :=
  let '(pg, w) := st in
  let cfg := form_cfg f in
  if is_empty (trim (apiKey f)) || is_empty (trim (apiSecret f)) then
    (Done, (with_alert (u "Please enter Binance API keys") pg, w))
  else
    let pg := with_storage (<[whalescopeConfig := JSON_stringify_compact cfg]>
                              (localStorage pg)) pg in
    match ipc_invoke s env (SaveApiKeys cfg) w with
    | (Returned _, w') => (Done, (show_app pg, w'))
    | (Thrown _, w') => (Rejects, (pg, w'))
    | (Unsettled, w') => (Waits, (pg, w'))
    end.

(** What the start-up does with the stored configuration. *)
Inductive RestoreAction :=
| NoAction                              (* nothing stored *)
| Throws                                (* [JSON.parse] or the read of a key throws *)
| Resend (parsed : JsValue)             (* [saveApiKeys(parsed)], then the application *)
| RemoveItem.                           (* [localStorage.removeItem] *)

Definition restore_action (saved : option jsstring) : RestoreAction :=
  match saved with
  | None => NoAction
  | Some text =>
      if is_empty text then NoAction
      else
        match JSON_parse text with
        | None => Throws
        | Some parsed =>
            match read_key parsed (u "BINANCE_API_KEY"),
                  read_key parsed (u "BINANCE_API_SECRET") with
            | Some key, Some secret =>
                if truthy_value key && truthy_value secret then Resend parsed
                else RemoveItem
            | _, _ => Throws
            end
        end
  end.

(** The elements of the page that the start-up listener tests for. *)
Record StartupElements := mkElements {
  form : bool;                          (* #config-form *)
  refreshBtn : bool;                    (* #refreshBtn *)
  ethRefreshBtn : bool                  (* #eth-refreshBtn *)
}.

(** The end of the first 'DOMContentLoaded' listener, from "Save New
    Config" on: the 'submit' listener is registered when the page has the
    form; then, on a page with #refreshBtn, the listener reads
    [loadBitcoin], which no script defines, and ends in the
    [ReferenceError]; otherwise the 'click' listener of #eth-refreshBtn is
    registered when the page has that button. *)
Definition bind_listeners (els : StartupElements) (st : Page * World)
  : Ending * (Page * World) :=
  let '(pg, w) := st in
  let pg := if form els then with_submit_listener pg else pg in
  if refreshBtn els then (Rejects, (pg, w))
  else (Done, ((if ethRefreshBtn els then with_ethRefresh_listener pg else pg), w)).

(** The first 'DOMContentLoaded' listener, from "Restore Config" on: the
    stored configuration is restored, then the listeners are registered.
    (The default dates, set before, touch the date fields only.)  [None]:
    the stored object is not an object of strings, which the form never
    stores and for which [saveApiKeys] is not modelled. *)
Definition on_DOMContentLoaded (s : Script) (env : Env) (els : StartupElements)
    (st : Page * World) : option (Ending * (Page * World)) :=
  let '(pg, w) := st in
  match restore_action (localStorage pg !! whalescopeConfig) with
  | NoAction => Some (bind_listeners els (pg, w))
  | Throws => Some (Rejects, (pg, w))
  | RemoveItem =>
      Some (bind_listeners els
              (with_storage (delete whalescopeConfig (localStorage pg)) pg, w))
  | Resend parsed =>
      match as_keyset parsed with
      | None => None
      | Some keys =>
          match ipc_invoke s env (SaveApiKeys keys) w with
          | (Returned _, w') => Some (bind_listeners els (show_app pg, w'))
          | (Thrown _, w') => Some (Rejects, (pg, w'))
          | (Unsettled, w') => Some (Waits, (pg, w'))
          end
      end
  end.

(** The controls of the MarketBrain view that the export buttons read. *)
Record ExportControls := mkControls {
  activeSubtab : jsstring;
  inputSymbols_value : jsstring;
  startInput_value : option jsstring;   (* startInput?.value *)
  endInput_value : option jsstring;     (* endInput?.value *)
  firstChart : option (Promise jsstring)
    (* the first chart of the view, and what [Plotly.toImage] gives for it *)
}.

(** The section the PDF button asks for. *)
Definition pdf_section (subtab : jsstring) : option jsstring :=
  if jsstring_eqb subtab (u "allium") then Some (u "allium")
  else if jsstring_eqb subtab (u "binance") then Some (u "binance_market")
  else if jsstring_eqb subtab (u "polar") then Some (u "binance_polar")
  else None.

(** "⚠️ Esta pestaña no tiene exportación PDF disponible." *)
Definition no_pdf_export_message : jsstring :=
  [9888; 65039] ++ u " Esta pesta" ++ [241] ++ u "a no tiene exportaci" ++ [243]
  ++ u "n PDF disponible.".

(** The request of the PDF button, when it makes one. *)
Definition pdf_request (env : Env) (c : ExportControls) (sec : jsstring)
    (chartImageBase64 : option jsstring) : PdfParams :=
  {| section := sec;
     symbols := toUpperCase env (trim (inputSymbols_value c));
     startDate := or_empty (startInput_value c);
     endDate := or_empty (endInput_value c);
     chartImageBase64 := chartImageBase64 |}.

(** [chartImageBase64] of the PDF button: the chart is captured on the
    "allium" sub-tab only, and a failed capture leaves [null]; the outer
    [None] stands for a capture that never settles. *)
Definition captured_chart (c : ExportControls) : option (option jsstring) :=
  if jsstring_eqb (activeSubtab c) (u "allium") then
    match firstChart c with
    | None => Some None
    | Some (Fulfilled img) => Some (Some img)
    | Some (Rejected _) => Some None
    | Some Pending => None
    end
  else Some None.

(** The 'click' listener of the PDF button. *)
Definition on_exportPdf_click (s : Script) (env : Env) (c : ExportControls)
    (st : Page * World) : Ending * (Page * World) :=
  let '(pg, w) := st in
  match captured_chart c with
  | None => (Waits, (pg, w))
  | Some chartImageBase64 =>
      match pdf_section (activeSubtab c) with
      | None => (Done, (with_alert no_pdf_export_message pg, w))
      | Some sec =>
          match ipc_invoke s env
                  (Export (ExportPdf (pdf_request env c sec chartImageBase64))) w with
          | (Returned _, w') => (Done, (pg, w'))
          | (Thrown _, w') => (Rejects, (pg, w'))
          | (Unsettled, w') => (Waits, (pg, w'))
          end
      end
  end.

(** [link.click()] on a link with a [download] attribute. *)
Definition with_download (filename : jsstring) (pg : Page) : Page :=
  {| localStorage := localStorage pg; alerts := alerts pg;
     configSection_display := configSection_display pg;
     mainApp_display := mainApp_display pg; shownSections := shownSections pg;
     submit_listener := submit_listener pg;
     ethRefresh_listener := ethRefresh_listener pg;
     downloads := downloads pg ++ [filename];
     loadingDiv_display := loadingDiv_display pg |}.

(** [exportBinanceMarketCSV]: the flows table of the Binance view is
    offered as a CSV file.  [table] holds the rows of the table body with
    the texts of their cells, [None] when the page has no such element.
    Of the file its name is kept, not its text (the cells, the numbers
    shortened by [cleanNumber]).  The result [None] stands for the
    [TypeError] of reading a date field or a cell that is not there. *)
Definition exportBinanceMarketCSV (env : Env) (c : ExportControls)
    (table : option (list (list jsstring))) (pg : Page) : option Page :=
  match table with
  | None | Some [] => Some (with_alert (u "No Binance whale flow data available.") pg)
  | Some rows =>
      let symbol := toUpperCase env (trim (inputSymbols_value c)) in
      match startInput_value c, endInput_value c with
      | Some start, Some end_ =>
          if forallb (fun cells => (4 <=? length cells)%nat) rows then
            Some (with_download (u "binance_market_" ++ symbol ++ u "_" ++ start
                                 ++ u "_" ++ end_ ++ u ".csv") pg)
          else None
      | _, _ => None
      end
  end.

(** "⚠️ Esta pestaña no tiene exportación CSV disponible aún." *)
Definition no_csv_export_message : jsstring :=
  [9888; 65039] ++ u " Esta pesta" ++ [241] ++ u "a no tiene exportaci" ++ [243]
  ++ u "n CSV disponible a" ++ [250] ++ u "n.".

(** The request of the CSV button on the "allium" sub-tab. *)
Definition csv_request (env : Env) (c : ExportControls) : CsvParams :=
  {| csv_symbols := toUpperCase env (trim (inputSymbols_value c));
     csv_startDate := or_empty (startInput_value c);
     csv_endDate := or_empty (endInput_value c) |}.

(** The 'click' listener of the CSV button: the spinner is shown, the
    export of the sub-tab runs inside [try], what it throws is caught and
    logged, and [finally] hides the spinner. *)
Definition on_exportCsv_click (s : Script) (env : Env) (c : ExportControls)
    (table : option (list (list jsstring))) (st : Page * World)
  : Ending * (Page * World) :=
  let '(pg, w) := st in
  let pg := with_loading (u "block") pg in
  if jsstring_eqb (activeSubtab c) (u "allium") then
    match ipc_invoke s env (Export (MarketbrainCsv (csv_request env c))) w with
    | (Returned _, w') => (Done, (with_loading (u "none") pg, w'))
    | (Thrown _, w') => (Done, (with_loading (u "none") pg, w'))
    | (Unsettled, w') => (Waits, (pg, w'))
    end
  else if jsstring_eqb (activeSubtab c) (u "binance") then
    match exportBinanceMarketCSV env c table pg with
    | Some pg' => (Done, (with_loading (u "none") pg', w))
    | None => (Done, (with_loading (u "none") pg, w))
    end
  else (Done, (with_loading (u "none") (with_alert no_csv_export_message pg), w)).

(** ** The renderer: text layout of the PDF report (renderer.js)

    Coordinates are JavaScript numbers, binary64 floating point.  Of the
    jsPDF document the calls are kept, in order. *)
Abbreviation number := SpecFloat.spec_float.

Definition number_of_Z (z : Z) : number := SpecFloat.binary_normalize 53 1024 z 0 false.
Definition number_add (a b : number) : number := SpecFloat.SFadd 53 1024 a b.
Definition number_sub (a b : number) : number := SpecFloat.SFsub 53 1024 a b.
(** [a > b] *)
Definition number_gt (a b : number) : bool := SpecFloat.SFltb b a.

Inductive PdfCall :=
| AddPage                                       (* pdf.addPage() *)
| Text (line : jsstring) (x y : number).        (* pdf.text(line, x, y) *)

(** The loop of [addMultilineText], from line [i] on. *)
Fixpoint addMultilineText_lines (pageHeight : number) (lines : list jsstring)
    (x y lineHeight : number) : list PdfCall * number :=
  match lines with
  | [] => ([], y)
  | line :: rest =>
      let '(page, y) :=
        if number_gt y (number_sub pageHeight (number_of_Z 20))
        then ([AddPage], number_of_Z 20)
        else ([], y) in
      let '(calls, y') :=
        addMultilineText_lines pageHeight rest x (number_add y lineHeight) lineHeight in
      (page ++ Text line x y :: calls, y')
  end.

(** [addMultilineText(pdf, text, x, y, maxWidth, lineHeight = 6)], for
    [text] a string; [splitTextToSize] is jsPDF's, and [pageHeight] the
    height of the document's page. *)
Definition addMultilineText (splitTextToSize : jsstring -> number -> list jsstring)
    (pageHeight : number) (text : jsstring) (x y maxWidth : number)
    (lineHeight : option number) : list PdfCall * number :=
  let lineHeight := match lineHeight with
                    | Some h => h
                    | None => number_of_Z 6
                    end in
  addMultilineText_lines pageHeight (splitTextToSize text maxWidth) x y lineHeight.

(** The lines a sequence of calls prints, and where. *)
Fixpoint printed (calls : list PdfCall) : list (jsstring * number) :=
  match calls with
  | [] => []
  | AddPage :: t => printed t
  | Text line _ y :: t => (line, y) :: printed t
  end.

(** ** Notions used in the statements *)

(** What each handler returns when the save dialog is cancelled. *)
Definition cancel_value (s : Script) (r : ExportRequest) : JsValue :=
  match s, r with
  | CompleteScript, ExportPdf _ => VObject [obj_success false]
  | DmgScript, BinanceMarketCsv _ => VUndefined
  | DmgScript, ExportPdf _ => VUndefined
  | _, _ => VObject [(u "canceled", VBool true)]
  end.


Definition known_section (sec : jsstring) : bool :=
  jsstring_eqb sec (u "allium") || jsstring_eqb sec (u "binance_market")
  || jsstring_eqb sec (u "binance_polar").

(** A string that [trim] would leave as it is. *)
Definition no_outer_whitespace (s : jsstring) : Prop :=
  trimStart s = s /\ trimEnd s = s.

#[global] Instance no_outer_whitespace_dec (s : jsstring) : Decision (no_outer_whitespace s).
Proof. unfold no_outer_whitespace. apply _. Defined.

(** [p] names something below the directory [dir]. *)
Definition inside_directory (dir p : jsstring) : bool :=
  bool_decide (take (length dir + 1) p = dir ++ [SLASH])
  && (length dir + 1 <? length p)%nat.

(** What [path.normalize] writes before a further entry name appended to
    the path [j]: the root slash of an absolute path, and the normalized
    segments of [j], each followed by a slash. *)
Definition directory_prefix (j : jsstring) : jsstring :=
  let isAbsolute := starts_with_slash j in
  let stack := norm_stack (negb isAbsolute) (split_on SLASH j) in
  (if isAbsolute then [SLASH] else []) ++
  match stack with
  | [] => []
  | _ :: _ => join_with_slash (rev stack) ++ [SLASH]
  end.

(** The last argument given to the child process started last. *)
Definition last_spawn_argument (w : World) : jsstring :=
  match List.last (map Some (spawned w)) None with
  | Some call => List.last (spawn_argv call) []
  | None => []
  end.

(** [wp m w Q]: running [m] from world [w] ends in an outcome and a world
    that satisfy [Q]. *)

Definition wp {A} (m : M A) (w : World) (Q : Outcome A -> World -> Prop) : Prop :=
  Q (fst (m w)) (snd (m w)).

(** Whether a confirmed export request leads to a worker run: every CSV
    request does, a PDF request does for the sections "allium" and
    "binance_market". *)
Definition runs_worker (r : ExportRequest) : bool :=
  match r with
  | ExportPdf p =>
      jsstring_eqb (section p) (u "allium") || jsstring_eqb (section p) (u "binance_market")
  | _ => true
  end.

(** What each handler returns after a completed export to [dest]. *)
Definition success_value (s : Script) (r : ExportRequest) (dest : jsstring) : JsValue :=
  match s, r with
  | CompleteScript, ExportPdf _ => VObject [obj_success true; (u "filePath", VString dest)]
  | CompleteScript, _ => VObject [(u "canceled", VBool false); (u "filePath", VString dest)]
  | DmgScript, MarketbrainCsv _ => VObject [obj_success true; (u "filePath", VString dest)]
  | DmgScript, _ => VObject [obj_success true]
  end.

(** The worker script of an export request. *)
Definition worker_script (r : ExportRequest) : jsstring :=
  match r with
  | MarketbrainCsv _ => u "export_marketbrain_csv.py"
  | BinanceMarketCsv _ => u "export_binance_market_csv.py"
  | ExportPdf p =>
      if jsstring_eqb (section p) (u "allium") then u "export_pdf_allium.py"
      else u "export_pdf_binance_market.py"
  end.

(** The directory in which each script looks for the worker scripts. *)
Definition scripts_dir (s : Script) (env : Env) : jsstring :=
  match s with
  | CompleteScript => path_join [Main.projectRoot env; u "python/whalescope_scripts"]
  | DmgScript => path_join [MainDmg.projectRoot env; u "whalescope_scripts"]
  end.

(** The interpreter of each script. *)
Definition interpreter (s : Script) (env : Env) : jsstring :=
  match s with
  | CompleteScript => Main.pythonPath env
  | DmgScript => MainDmg.pythonPath env
  end.

(** The stacks [normalizeString] builds: entry names on top of the [".."]
    segments that could not be resolved (none of them for an absolute
    path). *)
Definition kept (a : bool) (stack : list jsstring) : Prop :=
  exists es ds,
    stack = es ++ ds /\
    Forall (fun e => is_entry_name e = true) es /\
    Forall (fun d => d = [DOT; DOT]) ds /\
    (a = false -> ds = []).

(** The arguments an export request gives to its worker script: the same
    in both scripts. *)
Definition worker_args (env : Env) (r : ExportRequest) : list jsstring :=
  match r with
  | MarketbrainCsv p => [csv_symbols p; csv_startDate p; csv_endDate p]
  | BinanceMarketCsv p =>
      [toUpperCase env (csv_symbols p);
       u "--start-date"; csv_startDate p; u "--end-date"; csv_endDate p]
  | ExportPdf p =>
      if jsstring_eqb (section p) (u "allium") then
        [toUpperCase env (symbols p); startDate p; endDate p]
        ++ (if truthy (chartImageBase64 p)
            then [chart_path (temp env) (Date_now env)] else [])
      else
        [toUpperCase env (symbols p);
         u "--start-date"; startDate p; u "--end-date"; endDate p]
  end.

(** The child an export request starts. *)
Definition worker_call (s : Script) (env : Env) (r : ExportRequest) : SpawnCall :=
  {| spawn_file := interpreter s env;
     spawn_argv := (scripts_dir s env ++ SLASH :: worker_script r) :: worker_args env r;
     spawn_cwd := match s with
                  | CompleteScript => None
                  | DmgScript => Some (MainDmg.projectRoot env)
                  end |}.

(** The files the worker of an export request finds: the chart image is
    written before an "allium" PDF export with a chart starts its worker. *)
Definition prepared_files (env : Env) (r : ExportRequest) (fs : gmap jsstring jsstring)
  : gmap jsstring jsstring :=
  match r with
  | ExportPdf p =>
      if jsstring_eqb (section p) (u "allium") && truthy (chartImageBase64 p)
      then <[chart_path (temp env) (Date_now env) :=
               base64_decode env (strip_data_url (or_empty (chartImageBase64 p)))]> fs
      else fs
  | _ => fs
  end.

(** Whether the parameters of a request are converted without an
    exception: those of "loadData" are put into a query string, unless
    the section is "binance_polar"; no other handler converts values. *)
Definition request_converts (r : Request) : bool :=
  match r with
  | LoadData p =>
      jsstring_eqb (load_section p) (u "binance_polar")
      || forallb (fun kv => converts_to_string (snd kv)) (load_rest p)
  | _ => true
  end.

(** ** Sample surroundings

    Concrete surroundings for the statements that are checked by running
    the handlers. *)

(** [toUpperCase] on ASCII letters. *)
Definition ascii_upper (s : jsstring) : jsstring :=
  map (fun c => if (97 <=? c) && (c <=? 122) then c - 32 else c) s.

Definition sample_env (packaged : bool) (answer : SaveDialogResult) (now : N)
    (worker : SpawnCall -> gmap jsstring jsstring ->
              list ChildEvent * gmap jsstring jsstring) : Env :=
  {| isPackaged := packaged;
     resourcesPath := u "/Applications/WhaleScope.app/Contents/Resources";
     dirname := u "/Users/dev/whalescope/electron";
     cwd := u "/Users/dev/whalescope";
     userData := u "/Users/dev/Library/Application Support/WhaleScope";
     temp := u "/tmp";
     user_choice := fun _ => answer;
     Date_now := now;
     child := worker;
     fetch := fun _ => Rejected (mkError (u "fetch failed"));
     toUpperCase := ascii_upper;
     base64_decode := fun s => s;
     URLSearchParams_toString := fun _ => [];
     write_error := fun _ => None |}.

Definition empty_world : World :=
  {| files := ∅; spawned := []; opened := []; prompts := []; copies := [] |}.

(** A child that emits the given events and leaves the files alone. *)
Definition silent_worker (evs : list ChildEvent)
  : SpawnCall -> gmap jsstring jsstring -> list ChildEvent * gmap jsstring jsstring :=
  fun _ fs => (evs, fs).

(** A child that writes one file and emits the given events. *)
Definition writing_worker (artifact content : jsstring) (evs : list ChildEvent)
  : SpawnCall -> gmap jsstring jsstring -> list ChildEvent * gmap jsstring jsstring :=
  fun _ fs => (evs, <[artifact := content]> fs).

Definition dialog_cancelled : SaveDialogResult := {| canceled := true; filePath := [] |}.

Definition save_as (dest : string) : SaveDialogResult :=
  {| canceled := false; filePath := u dest |}.

Definition sample_csv : CsvParams :=
  {| csv_symbols := u "btc"; csv_startDate := u "2025-09-01"; csv_endDate := u "2025-09-30" |}.

Definition sample_pdf (sec : string) (chart : option jsstring) : PdfParams :=
  {| section := u sec; symbols := u "BTC"; startDate := u "2025-09-01";
     endDate := u "2025-09-30"; chartImageBase64 := chart |}.

(** The user cancels. *)
Definition cancel_env : Env :=
  sample_env true dialog_cancelled 1700000000000 (silent_worker []).

(** The worker writes to standard error and exits with status 1. *)
Definition failing_worker_env : Env :=
  sample_env true (save_as "/tmp/out.csv") 1700000000000
    (silent_worker [StderrData (u "boom"); Close (Some 1%Z)]).

(** The worker writes its artifact and prints the artifact's path on one
    line. *)
Definition one_line_env : Env :=
  sample_env true (save_as "/tmp/out.csv") 1700000000000
    (writing_worker (u "/tmp/tmpXYZ.csv") (u "Date,Input USD,Output USD,Status")
       [StdoutData (u "/tmp/tmpXYZ.csv"); StdoutData [LF]; Close (Some 0%Z)]).

(** No file can be written. *)
Definition read_only_env : Env :=
  {| isPackaged := true;
     resourcesPath := resourcesPath failing_worker_env;
     dirname := dirname failing_worker_env;
     cwd := cwd failing_worker_env;
     userData := userData failing_worker_env;
     temp := temp failing_worker_env;
     user_choice := user_choice failing_worker_env;
     Date_now := Date_now failing_worker_env;
     child := child failing_worker_env;
     fetch := fetch failing_worker_env;
     toUpperCase := ascii_upper;
     base64_decode := fun s => s;
     URLSearchParams_toString := fun _ => [];
     write_error := fun _ => Some (mkError (u "EACCES: permission denied")) |}.

(** The interpreter cannot be started: the child emits ['error'] and is
    never closed. *)
Definition spawn_error_env : Env :=
  sample_env true (save_as "/tmp/out.csv") 1700000000000
    (silent_worker [ErrorEvent (mkError (u "spawn python3 ENOENT"))]).

(** The same, should a ['close'] with the negative status follow. *)
Definition spawn_error_closed_env : Env :=
  sample_env true (save_as "/tmp/out.csv") 1700000000000
    (silent_worker [ErrorEvent (mkError (u "spawn python3 ENOENT")); Close (Some (-2)%Z)]).

(** Two export jobs with a chart image each, and surroundings that differ
    in the clock reading only. *)
Definition chart_job_1 : PdfParams :=
  {| section := u "allium"; symbols := u "BTC"; startDate := u "2025-09-01";
     endDate := u "2025-09-30";
     chartImageBase64 := Some (u "data:image/png;base64,AAAA") |}.

Definition chart_job_2 : PdfParams :=
  {| section := u "allium"; symbols := u "ETH"; startDate := u "2025-08-01";
     endDate := u "2025-08-31";
     chartImageBase64 := Some (u "data:image/png;base64,BBBB") |}.

Definition env_at (now : N) : Env :=
  sample_env true (save_as "/tmp/out.pdf") now
    (silent_worker [StderrData (u "boom"); Close (Some 1%Z)]).

Definition sample_keys : KeySet :=
  [(u "BINANCE_API_KEY", u "k-123"); (u "BINANCE_API_SECRET", u "s3cr3t\/" ++ [QUOTE; LF])].

(** A world in which older credentials are stored. *)
Definition world_with_old_keys : World :=
  with_files {[ Main.apiKeysPath cancel_env := JSON_stringify [(u "ARKHAM_API_KEY", u "old")] ]}
    empty_world.

(** A page that shows the configuration screen, and a filled-in form. *)
Definition fresh_page : Page :=
  {| localStorage := ∅; alerts := [];
     configSection_display := u "block"; mainApp_display := u "none";
     shownSections := []; submit_listener := false;
     ethRefresh_listener := false; downloads := [];
     loadingDiv_display := Some (u "none") |}.

Definition sample_form : ConfigForm :=
  {| apiKey := u "  k-123 "; apiSecret := u "s3cr3t" ++ [LF];
     arkhamKey := []; cmcKey := []; alliumKey := u "allium-key";
     openaiKey := []; coingeckoKey := None |}.

(** The export controls on the "polar" sub-tab. *)
Definition polar_controls : ExportControls :=
  {| activeSubtab := u "polar"; inputSymbols_value := u " btc ";
     startInput_value := Some (u "2025-09-01"); endInput_value := None;
     firstChart := Some (Fulfilled (u "data:image/png;base64,AAAA")) |}.

(** The flows table of the Binance view, with two rows. *)
Definition sample_flows : list (list jsstring) :=
  [[u "2025-09-01"; u "$1,200,000"; u "$900,000"; u "Inflow"];
   [u "2025-09-02"; u "$10"; u "$2,500,000,000"; u "Outflow"]].

(** A splitter that breaks at line feeds only, for the samples. *)
Definition split_at_line_feeds (text : jsstring) (maxWidth : number) : list jsstring :=
  split_on LF text.

(** A page with the configuration form and both refresh buttons. *)
Definition sample_elements : StartupElements :=
  {| form := true; refreshBtn := true; ethRefreshBtn := true |}.

(* ===================================================================== *)
(** * Part II. Theorems                                                    *)
(* ===================================================================== *)

(** ** Strings *)

Lemma trimStart_app_ws s c :
  isWhiteSpace c = true ->
  trimStart (s ++ [c]) = [] /\ trimStart s = [] \/
  trimStart (s ++ [c]) = trimStart s ++ [c] /\ trimStart s <> [].
Proof.
  intros Hc. induction s as [|a s IH]; simpl.
  - rewrite Hc. now left.
  - destruct (isWhiteSpace a); [exact IH|]. right. split; [reflexivity|discriminate].
Qed.

Lemma trimStart_length s : (length (trimStart s) <= length s)%nat.
Proof.
  induction s as [|c s IH]; simpl; [lia|].
  destruct (isWhiteSpace c); simpl; lia.
Qed.

Lemma trimStart_fixed s :
  trimStart s = s -> s = [] \/ exists c t, s = c :: t /\ isWhiteSpace c = false.
Proof.
  destruct s as [|c t]; [now left|]. simpl.
  destruct (isWhiteSpace c) eqn:Hc; intros H.
  - pose proof (trimStart_length t) as L. rewrite H in L. simpl in L. lia.
  - right. now exists c, t.
Qed.

Lemma trimStart_idem s : trimStart (trimStart s) = trimStart s.
Proof.
  induction s as [|c s IH]; simpl; [reflexivity|].
  destruct (isWhiteSpace c) eqn:Hc; [exact IH|]. simpl. now rewrite Hc.
Qed.

Lemma trimStart_app_keep l c :
  isWhiteSpace c = false -> exists x, trimStart (l ++ [c]) = x ++ [c].
Proof.
  intros Hc. induction l as [|a l IH]; simpl.
  - rewrite Hc. now exists [].
  - destruct (isWhiteSpace a); [exact IH|]. now exists (a :: l).
Qed.

Lemma trimEnd_keeps_head c t :
  isWhiteSpace c = false -> exists x, trimEnd (c :: t) = c :: x.
Proof.
  intros Hc. unfold trimEnd. simpl.
  destruct (trimStart_app_keep (rev t) c Hc) as [x Hx].
  rewrite Hx, rev_app_distr. simpl. now exists (rev x).
Qed.

Lemma trim_no_outer_whitespace s : no_outer_whitespace (trim s).
Proof.
  unfold no_outer_whitespace, trim. split.
  - destruct (trimStart_fixed (trimStart s) (trimStart_idem s)) as [E|(c & t & E & Hc)].
    + rewrite E. reflexivity.
    + rewrite E. destruct (trimEnd_keeps_head c t Hc) as [x Hx].
      rewrite Hx. simpl. now rewrite Hc.
  - unfold trimEnd. rewrite rev_involutive, trimStart_idem. reflexivity.
Qed.

Lemma trim_fixed s : no_outer_whitespace s -> trim s = s.
Proof. intros [H1 H2]. unfold trim. now rewrite H1. Qed.

Lemma trim_idem s : trim (trim s) = trim s.
Proof. apply trim_fixed, trim_no_outer_whitespace. Qed.

Lemma trim_app_ws s c : isWhiteSpace c = true -> trim (s ++ [c]) = trim s.
Proof.
  intros Hc. unfold trim, trimEnd.
  destruct (trimStart_app_ws s c Hc) as [[E1 E2]|[E1 E2]].
  - now rewrite E1, E2.
  - rewrite E1, rev_app_distr. simpl. now rewrite Hc.
Qed.

(** ** The platform functions on the examples of their documentation *)

Example trim_example : trim (u "   Hello world!   ") = u "Hello world!".
Proof. reflexivity. Qed.

Example trim_line_terminators : trim (9 :: 160 :: u "/tmp/a b.csv" ++ [13; 10; 8233; 65279]) = u "/tmp/a b.csv".
Proof. reflexivity. Qed.

Example path_join_example :
  path_join [u "/foo"; u "bar"; u "baz/asdf"; u "quux"; u ".."] = u "/foo/bar/baz/asdf".
Proof. reflexivity. Qed.

Example path_join_empty : path_join [[]; []] = u ".".
Proof. reflexivity. Qed.

Example path_normalize_example :
  path_normalize (u "/foo/bar//baz/asdf/quux/..") = u "/foo/bar/baz/asdf".
Proof. reflexivity. Qed.

Example path_normalize_relative : path_normalize (u "a/../../b/") = u "../b/".
Proof. reflexivity. Qed.

Example path_basename_example :
  path_basename (u "/foo/bar/baz/asdf/quux.html") = u "quux.html".
Proof. reflexivity. Qed.

Example path_basename_trailing : path_basename (u "/foo/bar//") = u "bar".
Proof. reflexivity. Qed.

Example path_resolve_example :
  path_resolve (u "/home/myself/node") [u "/foo/bar"; u "./baz"] = u "/foo/bar/baz".
Proof. reflexivity. Qed.

Example path_resolve_absolute_last :
  path_resolve (u "/home/myself/node") [u "/foo/bar"; u "/tmp/file/"] = u "/tmp/file".
Proof. reflexivity. Qed.

Example path_resolve_relative :
  path_resolve (u "/home/myself/node")
    [u "wwwroot"; u "static_files/png/"; u "../gif/image.gif"]
  = u "/home/myself/node/wwwroot/static_files/gif/image.gif".
Proof. reflexivity. Qed.

Example JSON_stringify_example :
  JSON_stringify [(u "a", u "1"); (u "b", [9; 34])]
  = 123 :: LF :: u "  " ++ QUOTE :: u "a" ++ QUOTE :: u ": " ++ QUOTE :: u "1" ++ QUOTE :: 44
    :: LF :: u "  " ++ QUOTE :: u "b" ++ QUOTE :: u ": " ++ QUOTE :: u "\t\" ++ QUOTE :: QUOTE
    :: LF :: [125].
Proof. reflexivity. Qed.

Example JSON_parse_example :
  JSON_parse (u " [1, -2.50e3, true, null, {}, [ ]] ")
  = Some (VArray [VNumber 1 0; VNumber (-250) 1; VBool true; VNull; VObject []; VArray []]).
Proof. reflexivity. Qed.

Example JSON_parse_duplicate_key :
  JSON_parse (123 :: QUOTE :: u "a" ++ QUOTE :: u ":1," ++ QUOTE :: u "b" ++ QUOTE :: u ":2,"
              ++ QUOTE :: u "a" ++ QUOTE :: u ":3}")
  = Some (VObject [(u "a", VNumber 3 0); (u "b", VNumber 2 0)]).
Proof. reflexivity. Qed.

Example JSON_parse_rejects : JSON_parse (u "[1,]") = None /\ JSON_parse (u "{") = None.
Proof. split; reflexivity. Qed.

Example template_numbers :
  N_toString 1700000000000 = u "1700000000000" /\ Z_toString (-2) = u "-2"
  /\ code_toString None = u "null".
Proof. repeat split; reflexivity. Qed.

(** ** The promise of [runPythonScript] *)

Lemma fold_on_event_stdout evs st :
  stdout (fold_left on_event evs st) = stdout st ++ written_stdout evs.
Proof.
  revert st. induction evs as [|ev evs IH]; intros st; simpl.
  - now rewrite app_nil_r.
  - rewrite IH. destruct ev; simpl; try reflexivity. now rewrite <- app_assoc.
Qed.

Lemma fold_on_event_stderr evs st :
  stderr (fold_left on_event evs st) = stderr st ++ written_stderr evs.
Proof.
  revert st. induction evs as [|ev evs IH]; intros st; simpl.
  - now rewrite app_nil_r.
  - rewrite IH. destruct ev; simpl; try reflexivity. now rewrite <- app_assoc.
Qed.

Lemma fold_on_event_no_close evs st :
  no_close evs = true -> promise (fold_left on_event evs st) = promise st.
Proof.
  revert st. induction evs as [|ev evs IH]; intros st H; simpl in *; [reflexivity|].
  apply andb_prop in H as [Hev H]. rewrite (IH _ H).
  destruct ev; simpl in *; try reflexivity. discriminate.
Qed.

Lemma fold_on_event_settled evs st :
  promise st <> Pending -> promise (fold_left on_event evs st) = promise st.
Proof.
  revert st. induction evs as [|ev evs IH]; intros st H; simpl; [reflexivity|].
  assert (E : promise (on_event st ev) = promise st).
  { destruct ev; simpl; try reflexivity.
    destruct (promise st); simpl; [congruence|reflexivity|reflexivity]. }
  rewrite IH; rewrite E; [reflexivity|assumption].
Qed.

Lemma on_close_settles out err code : on_close out err code <> Pending.
Proof. unfold on_close. destruct code as [[| |]|]; discriminate. Qed.

(** The first ['close'] decides. *)
Lemma run_events_first_close pre code post :
  no_close pre = true ->
  promise (run_events (pre ++ Close code :: post))
  = on_close (written_stdout pre) (written_stderr pre) code.
Proof.
  intros H. unfold run_events. rewrite fold_left_app. simpl.
  set (st := fold_left on_event pre invocation_start).
  assert (Ep : promise st = Pending) by (unfold st; now rewrite fold_on_event_no_close).
  assert (Eo : stdout st = written_stdout pre) by (unfold st; now rewrite fold_on_event_stdout).
  assert (Ee : stderr st = written_stderr pre) by (unfold st; now rewrite fold_on_event_stderr).
  rewrite fold_on_event_settled; simpl; rewrite Ep, Eo, Ee; simpl;
    [reflexivity | apply on_close_settles].
Qed.

Lemma run_events_no_close evs :
  no_close evs = true -> promise (run_events evs) = Pending.
Proof. intros H. unfold run_events. now rewrite fold_on_event_no_close. Qed.

Lemma failure_message_nonempty err code : failure_message err code <> [].
Proof. destruct err; simpl; discriminate. Qed.

Lemma invoke_outcome s env script args w :
  invoke s env script args w
  = (match promise (run_events (fst (child env (invoke_call s env script args) (files w)))) with
     | Fulfilled v => Returned v
     | Rejected e => Thrown e
     | Pending => Unsettled
     end,
     {| files := snd (child env (invoke_call s env script args) (files w));
        spawned := spawned w ++ [invoke_call s env script args];
        opened := opened w; prompts := prompts w; copies := copies w |}).
Proof.
  destruct s; simpl;
    unfold Main.runPythonScript, MainDmg.runPythonScript, bind, spawn, await;
    destruct (child env _ (files w)) as [evs fs]; reflexivity.
Qed.

(** C1.  However the child's output arrives, once it closes with code 0
    the invocation resolves with everything it wrote to standard output,
    trimmed; once it closes with any other code (or with none, when a
    signal ended it) the invocation rejects with an error whose message is
    everything it wrote to standard error or, if that is empty, the text
    "Python exited with code N"; the message is never empty.  This holds
    for [runPythonScript] of both scripts. *)
Theorem runPythonScript_settles_by_exit_code
    (s : Script) (env : Env) (script : jsstring) (args : list jsstring) (w : World)
    (pre post : list ChildEvent) (code : option Z) :
  fst (child env (invoke_call s env script args) (files w)) = pre ++ Close code :: post ->
  no_close pre = true ->
  (code = Some 0%Z ->
     fst (invoke s env script args w) = Returned (trim (written_stdout pre))) /\
  (code <> Some 0%Z ->
     exists e, fst (invoke s env script args w) = Thrown e /\
       message e <> [] /\
       (written_stderr pre <> [] -> message e = written_stderr pre) /\
       (written_stderr pre = [] ->
          message e = u "Python exited with code " ++ code_toString code)).
Proof.
  intros Hev Hpre. rewrite invoke_outcome. simpl.
  rewrite Hev, (run_events_first_close pre code post Hpre). split.
  - intros ->. reflexivity.
  - intros Hcode.
    exists (mkError (failure_message (written_stderr pre) code)).
    assert (E : on_close (written_stdout pre) (written_stderr pre) code
                = Rejected (mkError (failure_message (written_stderr pre) code))).
    { unfold on_close. destruct code as [[| |]|]; try reflexivity. congruence. }
    rewrite E. simpl. repeat split.
    + apply failure_message_nonempty.
    + intros Hne. destruct (written_stderr pre); [congruence|reflexivity].
    + intros ->. reflexivity.
Qed.

Lemma runPythonScript_settles_by_exit_code_witness :
  exists e,
    fst (invoke DmgScript failing_worker_env (u "export_marketbrain_csv.py") [] empty_world)
    = Thrown e /\ message e = u "boom".
Proof.
  destruct (runPythonScript_settles_by_exit_code DmgScript failing_worker_env
              (u "export_marketbrain_csv.py") [] empty_world
              [StderrData (u "boom")] [] (Some 1%Z) eq_refl eq_refl) as [_ H].
  destruct (H ltac:(discriminate)) as (e & He & _ & Hm & _).
  exists e. split; [exact He | apply Hm; discriminate].
Defined.

(** C5 (the code departs from the claim).  When the interpreter cannot be
    started the child emits ['error'], for which [runPythonScript]
    registers no listener: the promise is not rejected, it stays pending,
    and so does the handler that awaits it.  Should a ['close'] follow, the
    rejection is worded like any exit status. *)
Theorem spawn_failure_is_not_reported :
  fst (invoke CompleteScript spawn_error_env (u "lido_staking.py") [] empty_world) = Unsettled /\
  fst (invoke DmgScript spawn_error_env (u "lido_staking.py") [] empty_world) = Unsettled /\
  fst (Main.runPython spawn_error_env (u "lido_staking.py") empty_world) = Unsettled /\
  unhandled (run_events [ErrorEvent (mkError (u "spawn python3 ENOENT"))])
  = [mkError (u "spawn python3 ENOENT")] /\
  fst (invoke CompleteScript spawn_error_closed_env (u "lido_staking.py") [] empty_world)
  = Thrown (mkError (u "Python exited with code -2")).
Proof. repeat split; vm_compute; reflexivity. Qed.

(** No ['close'], no settlement: whatever else the child emits. *)
Lemma invoke_without_close s env script args w :
  no_close (fst (child env (invoke_call s env script args) (files w))) = true ->
  fst (invoke s env script args w) = Unsettled.
Proof.
  intros H. rewrite invoke_outcome. simpl. now rewrite (run_events_no_close _ H).
Qed.

(** ** Running handlers symbolically *)

Arguments u : simpl never.
Arguments path_join : simpl never.
Arguments path_resolve : simpl never.
Arguments path_basename : simpl never.
Arguments trim : simpl never.
Arguments chart_path : simpl never.
Arguments JSON_stringify : simpl never.
Arguments JSON_parse : simpl never.
Arguments run_events : simpl never.

Ltac unfold_handlers :=
  unfold export_handler;
  unfold Main.marketbrain_exportCsv, Main.binance_market_exportCsv, Main.exportPDF,
    Main.saveApiKeys, Main.loadApiKeys, Main.loadData, Main.openPath,
    Main.runPython, Main.getLidoData,
    MainDmg.marketbrain_exportCsv, MainDmg.binance_market_exportCsv, MainDmg.exportPDF,
    MainDmg.saveApiKeys, MainDmg.loadApiKeys, MainDmg.loadData;
  unfold Main.exportPDF_select, MainDmg.exportPDF_select;
  unfold Main.runPythonScript, MainDmg.runPythonScript;
  unfold URLSearchParams_of.

Ltac unfold_monad :=
  unfold bind, ret, throw, try_catch, await, spawn, showSaveDialog, shell_openPath,
    writeFileSync, copyFileSync, existsSync, readFileSync, parse_json,
    set_file, note_copy, with_files.

Lemma fold_on_event_fulfilled evs st v :
  promise (fold_left on_event evs st) = Fulfilled v ->
  promise st = Fulfilled v \/ exists out, v = trim out.
Proof.
  revert st. induction evs as [|ev evs IH]; intros st H; simpl in *; [now left|].
  destruct (IH _ H) as [E|E]; [|now right].
  destruct ev; simpl in E; try (now left).
  destruct (promise st); simpl in E; try (now left).
  unfold on_close in E. destruct code as [[| |]|]; try discriminate.
  right. inversion E. eauto.
Qed.

(** Whatever an invocation resolves with is already trimmed. *)
Lemma run_events_fulfilled evs v :
  promise (run_events evs) = Fulfilled v -> trim v = v.
Proof.
  intros H. destruct (fold_on_event_fulfilled _ _ _ H) as [E|[out ->]].
  - discriminate.
  - apply trim_idem.
Qed.

Lemma wp_bind {A B} (m : M A) (k : A -> M B) w Q :
  wp m w (fun o w' =>
            match o with
            | Returned a => wp (k a) w' Q
            | Thrown e => Q (Thrown e) w'
            | Unsettled => Q Unsettled w'
            end) ->
  wp (bind m k) w Q.
Proof. unfold wp, bind. destruct (m w) as [[a|e|] w']; simpl; auto. Qed.

Lemma wp_try {A} (body : M A) (h : JsError -> M A) w Q :
  wp body w (fun o w' =>
               match o with
               | Thrown e => wp (h e) w' Q
               | _ => Q o w'
               end) ->
  wp (try_catch body h) w Q.
Proof. unfold wp, try_catch. destruct (body w) as [[a|e|] w']; simpl; auto. Qed.

Lemma wp_ret {A} (a : A) w (Q : Outcome A -> World -> Prop) :
  Q (Returned a) w -> wp (ret a) w Q.
Proof. auto. Qed.

Lemma wp_throw {A} e w (Q : Outcome A -> World -> Prop) :
  Q (Thrown e) w -> wp (throw e) w Q.
Proof. auto. Qed.

Lemma wp_await {A} (p : Promise A) w (Q : Outcome A -> World -> Prop) :
  match p with
  | Fulfilled v => Q (Returned v) w
  | Rejected e => Q (Thrown e) w
  | Pending => Q Unsettled w
  end ->
  wp (await p) w Q.
Proof. unfold wp, await. destruct p; auto. Qed.

Lemma wp_spawn env call w (Q : Outcome (list ChildEvent) -> World -> Prop) :
  Q (Returned (fst (child env call (files w))))
    {| files := snd (child env call (files w)); spawned := spawned w ++ [call];
       opened := opened w; prompts := prompts w; copies := copies w |} ->
  wp (spawn env call) w Q.
Proof. unfold wp, spawn. destruct (child env call (files w)); auto. Qed.

Lemma wp_showSaveDialog env o w (Q : Outcome SaveDialogResult -> World -> Prop) :
  Q (Returned (user_choice env o))
    {| files := files w; spawned := spawned w; opened := opened w;
       prompts := prompts w ++ [o]; copies := copies w |} ->
  wp (showSaveDialog env o) w Q.
Proof. auto. Qed.

Lemma wp_openPath p w (Q : Outcome unit -> World -> Prop) :
  Q (Returned tt)
    {| files := files w; spawned := spawned w; opened := opened w ++ [p];
       prompts := prompts w; copies := copies w |} ->
  wp (shell_openPath p) w Q.
Proof. auto. Qed.

Lemma wp_write env p data w (Q : Outcome unit -> World -> Prop) :
  match write_error env p with
  | Some e => Q (Thrown e) w
  | None => Q (Returned tt) (set_file p data w)
  end ->
  wp (writeFileSync env p data) w Q.
Proof. unfold wp, writeFileSync. destruct (write_error env p); auto. Qed.

Lemma wp_copy env src dest w (Q : Outcome unit -> World -> Prop) :
  match files w !! src with
  | None =>
      Q (Thrown (ENOENT "copyfile" (src ++ u "' -> '" ++ dest))) (note_copy src dest w)
  | Some data =>
      match write_error env dest with
      | Some e => Q (Thrown e) (note_copy src dest w)
      | None => Q (Returned tt) (set_file dest data (note_copy src dest w))
      end
  end ->
  wp (copyFileSync env src dest) w Q.
Proof.
  unfold wp, copyFileSync. cbn [files note_copy].
  destruct (files w !! src); [destruct (write_error env dest)|]; auto.
Qed.

Lemma wp_exists p w (Q : Outcome bool -> World -> Prop) :
  Q (Returned (bool_decide (is_Some (files w !! p)))) w -> wp (existsSync p) w Q.
Proof. auto. Qed.

Lemma wp_read p w (Q : Outcome jsstring -> World -> Prop) :
  match files w !! p with
  | Some data => Q (Returned data) w
  | None => Q (Thrown (ENOENT "open" p)) w
  end ->
  wp (readFileSync p) w Q.
Proof. unfold wp, readFileSync. destruct (files w !! p); auto. Qed.

Lemma wp_parse text w (Q : Outcome JsValue -> World -> Prop) :
  match JSON_parse text with
  | Some v => Q (Returned v) w
  | None => Q (Thrown (mkError (u "Unexpected token in JSON"))) w
  end ->
  wp (parse_json text) w Q.
Proof. unfold wp, parse_json. destruct (JSON_parse text); auto. Qed.

Ltac wp_step :=
  lazymatch goal with
  | |- wp (bind _ _) _ _ => apply wp_bind
  | |- wp (try_catch _ _) _ _ => apply wp_try
  | |- wp (ret _) _ _ => apply wp_ret
  | |- wp (throw _) _ _ => apply wp_throw
  | |- wp (await ?p) _ _ => apply wp_await; destruct p eqn:?
  | |- wp (spawn _ _) _ _ => apply wp_spawn
  | |- wp (showSaveDialog _ _) _ _ => apply wp_showSaveDialog
  | |- wp (shell_openPath _) _ _ => apply wp_openPath
  | |- wp (writeFileSync ?env ?p _) _ _ =>
      apply wp_write; destruct (write_error env p) eqn:?
  | |- wp (copyFileSync ?env ?src ?dest) ?w _ =>
      apply wp_copy;
      destruct (files w !! src) eqn:?; [destruct (write_error env dest) eqn:?|]
  | |- wp (existsSync _) _ _ => apply wp_exists
  | |- wp (readFileSync ?p) ?w _ => apply wp_read; destruct (files w !! p) eqn:?
  | |- wp (parse_json ?t) _ _ => apply wp_parse; destruct (JSON_parse t) eqn:?
  | |- wp (if ?b then _ else _) _ _ => destruct b eqn:?
  | |- wp (match ?x with _ => _ end) _ _ => destruct x eqn:?
  end; cbv beta iota zeta.

Ltac wp_run := unfold_handlers; cbv beta iota zeta; repeat wp_step.

Ltac world_simpl :=
  cbn [fst snd files spawned opened prompts copies canceled filePath
       set_file note_copy with_files] in *.

(** The part of C3 that holds.  When the user cancels the save dialog,
    every export handler of both scripts returns at once, starts no child
    process, writes no file, copies nothing and opens nothing.  What it
    returns is [cancel_value]: [{canceled: true}] for the CSV handlers of
    the complete script and for "marketbrain:exportCsv" of the DMG
    script, but [{success: false}] for "exportPDF" of the complete script
    and [undefined] for "binance_market:exportCsv" and "exportPDF" of the
    DMG script. *)
Theorem cancelled_export_starts_nothing
    (s : Script) (env : Env) (r : ExportRequest) (w : World) :
  (forall o, canceled (user_choice env o) = true) ->
  fst (export_handler s env r w) = Returned (cancel_value s r) /\
  spawned (snd (export_handler s env r w)) = spawned w /\
  files (snd (export_handler s env r w)) = files w /\
  copies (snd (export_handler s env r w)) = copies w /\
  opened (snd (export_handler s env r w)) = opened w.
Proof.
  intros Hc.
  destruct s, r; unfold_handlers; unfold_monad; simpl; rewrite Hc; simpl; auto.
Qed.

Lemma cancelled_export_starts_nothing_witness :
  fst (export_handler DmgScript cancel_env (MarketbrainCsv sample_csv) empty_world)
  = Returned (VObject [(u "canceled", VBool true)]) /\
  spawned (snd (export_handler DmgScript cancel_env (MarketbrainCsv sample_csv) empty_world)) = [].
Proof.
  destruct (cancelled_export_starts_nothing DmgScript cancel_env
              (MarketbrainCsv sample_csv) empty_world (fun _ => eq_refl))
    as (H1 & H2 & _).
  split; [exact H1 | exact H2].
Defined.

(** C3 (the code departs from the claim).  A cancelled PDF export of the
    complete script does not answer with the cancel marker: it answers
    [{success: false}], where the CSV handlers of the same script answer
    [{canceled: true}].  The caller's test of the answer,
    [!result || result.canceled], holds for every cancel value of both
    scripts but this one (it holds for the [undefined] of the DMG
    script), so that the PDF button takes the cancelled export of the
    complete script for a saved one. *)
Theorem cancelled_pdf_export_is_not_marked_cancelled :
  canceled (user_choice cancel_env
              {| title := None; defaultPath := []; filters := [] |}) = true /\
  fst (export_handler CompleteScript cancel_env (ExportPdf (sample_pdf "allium" None)) empty_world)
  = Returned (VObject [(u "success", VBool false)]) /\
  fst (export_handler CompleteScript cancel_env (ExportPdf (sample_pdf "allium" None)) empty_world)
  <> Returned (VObject [(u "canceled", VBool true)]) /\
  fst (export_handler DmgScript cancel_env (ExportPdf (sample_pdf "allium" None)) empty_world)
  = Returned VUndefined /\
  fst (export_handler CompleteScript cancel_env (MarketbrainCsv sample_csv) empty_world)
  = Returned (VObject [(u "canceled", VBool true)]) /\
  (forall s r,
     answer_cancelled (cancel_value s r)
     = match s, r with
       | CompleteScript, ExportPdf _ => false
       | _, _ => true
       end).
Proof.
  repeat split; try (vm_compute; reflexivity); try (vm_compute; discriminate).
  intros s r. destruct s, r; reflexivity.
Qed.

(** ** Errors at the IPC boundary *)

(** In the complete script every handler ends in [try/catch] (or cannot
    fail): none throws, once the parameters of "loadData" are converted
    (the conversion comes before its [try]). *)
Lemma complete_script_never_throws (env : Env) (r : Request) (h : M JsValue) (w : World) :
  handler CompleteScript env r = Some h ->
  request_converts r = true ->
  forall e, fst (h w) <> Thrown e.
Proof.
  intros Hh Hc.
  change (wp h w (fun o _ => forall e, o <> Thrown e)).
  destruct r as [keys| |p|[p|p|p]|p|sp|]; cbn [handler export_handler] in Hh;
    injection Hh as <-; wp_run; intros; try discriminate.
  all: cbn [request_converts] in Hc;
    match goal with
    | H1 : jsstring_eqb _ _ = false, H2 : forallb _ _ = false |- _ =>
        rewrite H1, H2 in Hc; discriminate
    end.
Qed.

(** So do the two handlers of the DMG script that have a [try/catch]. *)
Lemma dmg_guarded_handlers_never_throw (env : Env) (w : World) :
  (forall p e, request_converts (LoadData p) = true ->
     fst (MainDmg.loadData env p w) <> Thrown e) /\
  (forall p e, fst (MainDmg.marketbrain_exportCsv env p w) <> Thrown e).
Proof.
  split; intros p.
  - intros e Hc. revert e.
    change (wp (MainDmg.loadData env p) w (fun o _ => forall e, o <> Thrown e)).
    wp_run; intros; try discriminate.
    all: cbn [request_converts] in Hc;
      match goal with
      | H1 : jsstring_eqb _ _ = false, H2 : forallb _ _ = false |- _ =>
          rewrite H1, H2 in Hc; discriminate
      end.
  - change (wp (MainDmg.marketbrain_exportCsv env p) w (fun o _ => forall e, o <> Thrown e)).
    wp_run; intros; discriminate.
Qed.

(** C2 (the code departs from the claim).  In the DMG script the handlers
    of "binance_market:exportCsv", "exportPDF", "loadApiKeys" and
    "saveApiKeys" have no [try/catch]: a failing worker, a credentials file
    that is not JSON, or one that cannot be written, makes them throw
    across the IPC boundary, where the complete script answers with an
    error value. *)
Theorem dmg_handlers_throw :
  fst (MainDmg.binance_market_exportCsv failing_worker_env sample_csv empty_world)
  = Thrown (mkError (u "boom")) /\
  fst (MainDmg.exportPDF failing_worker_env (sample_pdf "binance_market" None) empty_world)
  = Thrown (mkError (u "boom")) /\
  fst (MainDmg.loadApiKeys failing_worker_env
         (with_files {[ MainDmg.apiKeysPath failing_worker_env := u "{" ]} empty_world))
  = Thrown (mkError (u "Unexpected token in JSON")) /\
  fst (MainDmg.saveApiKeys read_only_env sample_keys empty_world)
  = Thrown (mkError (u "EACCES: permission denied")) /\
  fst (Main.saveApiKeys read_only_env sample_keys empty_world)
  = Returned (VObject [(u "success", VBool false);
                       (u "error", VString (u "EACCES: permission denied"))]) /\
  fst (Main.binance_market_exportCsv failing_worker_env sample_csv empty_world)
  = Returned (VObject [(u "canceled", VBool false); (u "error", VString (u "boom"))]).
Proof. repeat split; vm_compute; reflexivity. Qed.

(** ** PDF export of a section without export *)

Lemma jsstring_eqb_eq a b : jsstring_eqb a b = true <-> a = b.
Proof. unfold jsstring_eqb. apply bool_decide_eq_true. Qed.




(** ** What reaches [copyFileSync] *)

Lemma split_on_not_nil sep s : split_on sep s <> [].
Proof.
  induction s as [|c t IH]; simpl; [discriminate|].
  destruct (c =? sep)%N; [discriminate|].
  destruct (split_on sep t); discriminate.
Qed.

Lemma split_on_single sep s l : split_on sep s = [l] -> s = l.
Proof.
  revert l. induction s as [|c t IH]; intros l H; simpl in H.
  - congruence.
  - destruct (c =? sep)%N.
    + exfalso. apply (split_on_not_nil sep t). now inversion H.
    + destruct (split_on sep t) as [|x xs] eqn:E;
        [now destruct (split_on_not_nil sep t)|].
      inversion H; subst. f_equal. now apply IH.
Qed.

Lemma split_on_closed sep s l : split_on sep s = [l; []] -> s = l ++ [sep].
Proof.
  revert l. induction s as [|c t IH]; intros l H; simpl in H.
  - discriminate.
  - destruct (c =? sep)%N eqn:Ec.
    + inversion H as [[E1 E2]]. apply N.eqb_eq in Ec. subst c.
      now rewrite (split_on_single _ _ _ E2).
    + destruct (split_on sep t) as [|x xs] eqn:E;
        [now destruct (split_on_not_nil sep t)|].
      inversion H; subst. simpl. f_equal. now apply IH.
Qed.

(** One line written: trimming all the output is trimming that line. *)
Lemma one_line_trim out :
  length (lines_written out) = 1%nat -> trim out = trim (final_line out).
Proof.
  unfold final_line, lines_written.
  destruct (split_on LF out) as [|a [|b [|c rest]]] eqn:E.
  - now destruct (split_on_not_nil LF out).
  - destruct a; simpl; intros H; [discriminate|].
    now rewrite (split_on_single _ _ _ E).
  - destruct b; simpl; intros H; [|discriminate].
    rewrite (split_on_closed _ _ _ E). now apply trim_app_ws.
  - intros H. exfalso. revert H.
    destruct (List.last (a :: b :: c :: rest) []) eqn:El.
    + destruct rest; simpl; discriminate.
    + simpl. discriminate.
Qed.

(** C7.  A worker that keeps its contract (it closes with code 0 having
    written exactly one line to standard output) makes [runPythonScript]
    resolve with that line, trimmed; the value has no white space at
    either end; and every [copyFileSync] an export handler then makes
    takes exactly this value as its source and the path chosen in the save
    dialog as its destination. *)
Theorem export_copies_trimmed_single_line
    (s : Script) (env : Env) (r : ExportRequest) (w : World)
    (pre post : list ChildEvent) :
  (forall call fs, fst (child env call fs) = pre ++ Close (Some 0%Z) :: post) ->
  no_close pre = true ->
  length (lines_written (written_stdout pre)) = 1%nat ->
  (forall script args w0,
      fst (invoke s env script args w0)
      = Returned (trim (final_line (written_stdout pre)))) /\
  no_outer_whitespace (trim (final_line (written_stdout pre))) /\
  (forall src dst,
      In (src, dst) (copies (snd (export_handler s env r w))) ->
      In (src, dst) (copies w) \/
      (src = trim (final_line (written_stdout pre)) /\
       exists o, dst = filePath (user_choice env o))).
Proof.
  intros Hev Hpre Hone.
  assert (Hp : forall call fs,
             promise (run_events (fst (child env call fs)))
             = Fulfilled (trim (final_line (written_stdout pre)))).
  { intros call fs. rewrite Hev, (run_events_first_close _ _ _ Hpre).
    simpl. now rewrite (one_line_trim _ Hone). }
  split; [|split].
  - intros script args w0. rewrite invoke_outcome. simpl. now rewrite Hp.
  - apply trim_no_outer_whitespace.
  - change (wp (export_handler s env r) w
              (fun _ w' => forall src dst, In (src, dst) (copies w') ->
                 In (src, dst) (copies w) \/
                 (src = trim (final_line (written_stdout pre)) /\
                  exists o, dst = filePath (user_choice env o)))).
    destruct s, r; wp_run; world_simpl; intros src dst Hin; auto.
    all: rewrite Hp in *; simplify_eq.
    all: rewrite ?trim_idem in Hin.
    all: apply in_app_or in Hin as [Hin|[Hin|[]]]; [now left|right].
    all: inversion Hin; subst; eauto.
Qed.

Lemma export_copies_trimmed_single_line_witness :
  fst (invoke CompleteScript one_line_env (u "export_binance_market_csv.py") [] empty_world)
  = Returned (trim (final_line (u "/tmp/tmpXYZ.csv" ++ [LF]))) /\
  copies (snd (export_handler CompleteScript one_line_env
                 (BinanceMarketCsv sample_csv) empty_world))
  = [(u "/tmp/tmpXYZ.csv", u "/tmp/out.csv")].
Proof.
  destruct (export_copies_trimmed_single_line CompleteScript one_line_env
              (BinanceMarketCsv sample_csv) empty_world
              [StdoutData (u "/tmp/tmpXYZ.csv"); StdoutData [LF]] []
              (fun _ _ => eq_refl) eq_refl eq_refl) as (H1 & _ & _).
  split; [exact (H1 _ _ _) | vm_compute; reflexivity].
Defined.

(** A whole export: the worker leaves its artifact and prints the path;
    afterwards the destination holds the artifact's content and is handed
    to the desktop shell. *)
Example binance_market_csv_export (s : Script) :
  let w := snd (export_handler s one_line_env (BinanceMarketCsv sample_csv) empty_world) in
  files w !! u "/tmp/out.csv" = Some (u "Date,Input USD,Output USD,Status") /\
  files w !! u "/tmp/out.csv" = files w !! u "/tmp/tmpXYZ.csv" /\
  opened w = [u "/tmp/out.csv"] /\
  map spawn_argv (spawned w)
  = [[packaged_scripts_dir s one_line_env ++ u "/export_binance_market_csv.py";
      u "BTC"; u "--start-date"; u "2025-09-01"; u "--end-date"; u "2025-09-30"]].
Proof. destruct s; repeat split; vm_compute; reflexivity. Qed.

(** ** A failed export and the destination *)

(** C10.  The destination is chosen; every worker run either fails (it
    rejects or never settles) or resolves with a path at which no file
    exists.  Then the export handler leaves the destination as it was: the
    worker itself not touching it, and the destination not being the
    temporary chart image, the file at the destination is the same before
    and after.  Moreover, when every worker run fails, the handler makes no
    [copyFileSync] call at all: the copy comes only after the invocation
    has resolved. *)
Theorem failed_export_leaves_destination
    (s : Script) (env : Env) (r : ExportRequest) (w : World) (dest : jsstring) :
  (forall o, user_choice env o = {| canceled := false; filePath := dest |}) ->
  (forall call fs,
      match promise (run_events (fst (child env call fs))) with
      | Fulfilled out => snd (child env call fs) !! out = None
      | _ => True
      end) ->
  (forall call fs, snd (child env call fs) !! dest = fs !! dest) ->
  dest <> chart_path (temp env) (Date_now env) ->
  files (snd (export_handler s env r w)) !! dest = files w !! dest /\
  ((forall call fs v, promise (run_events (fst (child env call fs))) <> Fulfilled v) ->
   copies (snd (export_handler s env r w)) = copies w).
Proof.
  intros Hd Hw Hf Hc.
  change (wp (export_handler s env r) w
            (fun _ w' => files w' !! dest = files w !! dest /\
               ((forall call fs v,
                    promise (run_events (fst (child env call fs))) <> Fulfilled v) ->
                copies w' = copies w))).
  destruct s, r; wp_run; world_simpl; rewrite ?Hd in *; world_simpl.
  all: try (split; [rewrite ?Hf; rewrite ?lookup_insert_ne by congruence; reflexivity
                   | intros; try reflexivity]).
  all: try match goal with
       | Hp : promise (run_events (fst (child ?env ?call ?fs))) = Fulfilled ?v,
         Hn : forall call fs v, promise (run_events (fst (child _ call fs))) <> Fulfilled v
         |- _ => exfalso; exact (Hn call fs v Hp)
       end.
  all: try match goal with
       | Hp : promise (run_events (fst (child ?env ?call ?fs))) = Fulfilled ?v,
         Hl : snd (child ?env ?call ?fs) !! _ = Some _ |- _ =>
           exfalso; pose proof (Hw call fs) as X; rewrite Hp in X;
           rewrite ?(run_events_fulfilled _ _ Hp) in Hl; congruence
       end.
Qed.

Lemma failed_export_leaves_destination_witness :
  files (snd (export_handler CompleteScript failing_worker_env
                (ExportPdf (sample_pdf "allium" (Some (u "data:image/png;base64,iVBORw0KGgo="))))
                empty_world)) !! u "/tmp/out.csv" = None.
Proof.
  destruct (failed_export_leaves_destination CompleteScript failing_worker_env
              (ExportPdf (sample_pdf "allium" (Some (u "data:image/png;base64,iVBORw0KGgo="))))
              empty_world (u "/tmp/out.csv")
              (fun _ => eq_refl) (fun _ _ => I) (fun _ _ => eq_refl)
              ltac:(vm_compute; discriminate)) as [H _].
  exact H.
Defined.

(** ** Paths *)

Lemma split_on_app_sep sep x y :
  split_on sep (x ++ sep :: y) = split_on sep x ++ split_on sep y.
Proof.
  induction x as [|c t IH]; simpl.
  - now rewrite N.eqb_refl.
  - destruct (c =? sep); rewrite IH; [reflexivity|].
    destruct (split_on sep t) as [|w ws] eqn:E; [now destruct (split_on_not_nil sep t)|].
    reflexivity.
Qed.

Lemma split_on_no_sep sep b :
  forallb (fun c => negb (c =? sep)) b = true -> split_on sep b = [b].
Proof.
  induction b as [|c t IH]; simpl; [reflexivity|].
  intros H. apply andb_prop in H as [Hc Ht].
  destruct (c =? sep); [discriminate|]. now rewrite (IH Ht).
Qed.

Lemma is_entry_name_spec b :
  is_entry_name b = true ->
  is_empty b = false /\ is_dot b = false /\ is_dotdot b = false /\
  forallb (fun c => negb (c =? SLASH)) b = true.
Proof.
  unfold is_entry_name. intros H.
  repeat (apply andb_prop in H as [H ?]).
  repeat split; try assumption; now apply negb_true_iff.
Qed.

Lemma norm_step_entry a stk b : is_entry_name b = true -> norm_step a stk b = b :: stk.
Proof.
  intros H. destruct (is_entry_name_spec b H) as (H1 & H2 & H3 & _).
  unfold norm_step. now rewrite H1, H2, H3.
Qed.

Lemma norm_stack_snoc a segs b :
  norm_stack a (segs ++ [b]) = norm_step a (norm_stack a segs) b.
Proof. unfold norm_stack. now rewrite fold_left_app. Qed.

Lemma join_with_slash_snoc l b :
  join_with_slash (l ++ [b])
  = match l with [] => b | _ :: _ => join_with_slash l ++ SLASH :: b end.
Proof.
  induction l as [|x l IH]; [reflexivity|].
  destruct l as [|y l]; [reflexivity|].
  change (join_with_slash ((x :: y :: l) ++ [b]))
    with (x ++ SLASH :: join_with_slash ((y :: l) ++ [b])).
  rewrite IH.
  change (join_with_slash (x :: y :: l)) with (x ++ SLASH :: join_with_slash (y :: l)).
  now rewrite <- app_assoc.
Qed.

Lemma starts_with_slash_app j x :
  j <> [] -> starts_with_slash (j ++ x) = starts_with_slash j.
Proof. destruct j; [congruence|reflexivity]. Qed.

Lemma ends_with_slash_entry j b :
  is_entry_name b = true -> ends_with_slash (j ++ b) = false.
Proof.
  intros H. destruct (is_entry_name_spec b H) as (H1 & _ & _ & H4).
  unfold ends_with_slash. rewrite rev_app_distr.
  destruct b as [|c b] using rev_ind; [discriminate|].
  rewrite rev_app_distr. simpl.
  rewrite forallb_app in H4. apply andb_prop in H4 as [_ H4]. simpl in H4.
  destruct (c =? SLASH); [discriminate|reflexivity].
Qed.

Lemma ends_with_slash_child j b :
  is_entry_name b = true -> ends_with_slash (j ++ SLASH :: b) = false.
Proof.
  intros H. change (j ++ SLASH :: b) with (j ++ [SLASH] ++ b).
  rewrite app_assoc. now apply ends_with_slash_entry.
Qed.

Lemma entry_not_absolute b : is_entry_name b = true -> starts_with_slash b = false.
Proof.
  intros H. destruct (is_entry_name_spec b H) as (H1 & _ & _ & H4).
  destruct b as [|c b]; [reflexivity|]. simpl in *.
  destruct (c =? SLASH); [discriminate|reflexivity].
Qed.

Lemma is_empty_false_app x c y : is_empty (x ++ c :: y) = false.
Proof. now destruct x. Qed.

(** [path.normalize] of a path followed by a further entry name. *)
Lemma path_normalize_child j b :
  j <> [] -> is_entry_name b = true ->
  path_normalize (j ++ SLASH :: b) = directory_prefix j ++ b.
Proof.
  intros Hj Hb. unfold path_normalize, directory_prefix, normalizeString.
  cbv zeta.
  rewrite is_empty_false_app.
  rewrite (starts_with_slash_app j _ Hj).
  rewrite (ends_with_slash_child j b Hb).
  rewrite split_on_app_sep.
  rewrite (split_on_no_sep SLASH b) by (now destruct (is_entry_name_spec b Hb) as (_&_&_&?)).
  rewrite norm_stack_snoc, (norm_step_entry _ _ _ Hb).
  cbn [rev]. rewrite join_with_slash_snoc.
  set (stk := norm_stack _ _).
  destruct (is_entry_name_spec b Hb) as (Hne & _).
  destruct stk as [|top below]; cbn [rev].
  - destruct b; [discriminate|]. cbn [is_empty app].
    destruct (starts_with_slash j); reflexivity.
  - destruct (rev below ++ [top]) as [|x l] eqn:E; [now destruct (rev below)|].
    rewrite <- E. cbn [is_empty].
    rewrite is_empty_false_app.
    destruct (starts_with_slash j); cbn [app]; now rewrite <- ?app_assoc.
Qed.

(** An entry name on its own is normal. *)
Lemma path_normalize_entry b : is_entry_name b = true -> path_normalize b = b.
Proof.
  intros Hb. destruct (is_entry_name_spec b Hb) as (Hne & _ & _ & Hs).
  unfold path_normalize, normalizeString. cbv zeta. rewrite Hne.
  rewrite (entry_not_absolute b Hb).
  rewrite (ends_with_slash_entry [] b Hb : ends_with_slash b = false).
  rewrite (split_on_no_sep SLASH b Hs).
  unfold norm_stack. cbn [fold_left]. rewrite (norm_step_entry _ _ _ Hb).
  cbn. now rewrite Hne.
Qed.

Lemma directory_prefix_entry b :
  is_entry_name b = true -> directory_prefix b = b ++ [SLASH].
Proof.
  intros Hb. destruct (is_entry_name_spec b Hb) as (Hne & _ & _ & Hs).
  unfold directory_prefix. cbv zeta. rewrite (entry_not_absolute b Hb).
  rewrite (split_on_no_sep SLASH b Hs).
  unfold norm_stack. cbn [fold_left]. rewrite (norm_step_entry _ _ _ Hb).
  reflexivity.
Qed.

Lemma directory_prefix_child j b :
  j <> [] -> is_entry_name b = true ->
  directory_prefix (j ++ SLASH :: b) = path_normalize (j ++ SLASH :: b) ++ [SLASH].
Proof.
  intros Hj Hb. rewrite (path_normalize_child j b Hj Hb).
  unfold directory_prefix. cbv zeta.
  rewrite (starts_with_slash_app j _ Hj).
  rewrite split_on_app_sep.
  rewrite (split_on_no_sep SLASH b) by (now destruct (is_entry_name_spec b Hb) as (_&_&_&?)).
  rewrite norm_stack_snoc, (norm_step_entry _ _ _ Hb).
  cbn [rev]. rewrite join_with_slash_snoc.
  set (stk := norm_stack _ _).
  destruct stk as [|top below]; cbn [rev].
  - now rewrite app_nil_r, <- app_assoc.
  - destruct (rev below ++ [top]) as [|x l] eqn:E; [now destruct (rev below)|].
    rewrite <- E. rewrite <- !app_assoc. reflexivity.
Qed.

Lemma filter_head_nonempty args x rest :
  List.filter (fun a => negb (is_empty a)) args = x :: rest -> x <> [].
Proof.
  intros H. assert (Hin : In x (List.filter (fun a => negb (is_empty a)) args))
    by (rewrite H; now left).
  apply filter_In in Hin as [_ Hx]. now destruct x.
Qed.

Lemma join_with_slash_not_nil x rest : x <> [] -> join_with_slash (x :: rest) <> [].
Proof. destruct x; [congruence|]. destruct rest; discriminate. Qed.

Lemma filter_nonempty_entry args b :
  is_entry_name b = true ->
  List.filter (fun a => negb (is_empty a)) (args ++ [b])
  = List.filter (fun a => negb (is_empty a)) args ++ [b].
Proof.
  intros Hb. destruct (is_entry_name_spec b Hb) as (Hne & _).
  rewrite List.filter_app. simpl. now rewrite Hne.
Qed.

(** [path.join] with an entry name as its last argument. *)
Lemma path_join_entry_last args b :
  is_entry_name b = true ->
  path_join (args ++ [b])
  = match List.filter (fun a => negb (is_empty a)) args with
    | [] => []
    | parts => directory_prefix (join_with_slash parts)
    end ++ b.
Proof.
  intros Hb. unfold path_join. rewrite (filter_nonempty_entry _ _ Hb).
  destruct (List.filter _ args) as [|x rest] eqn:E.
  - cbn [app join_with_slash]. destruct b; [discriminate|].
    now rewrite (path_normalize_entry _ Hb).
  - change (path_normalize (join_with_slash ((x :: rest) ++ [b]))
            = directory_prefix (join_with_slash (x :: rest)) ++ b).
    rewrite join_with_slash_snoc.
    apply path_normalize_child; [|exact Hb].
    apply join_with_slash_not_nil. eapply filter_head_nonempty; eauto.
Qed.

(** A further entry name after an entry name: one level below. *)
Lemma path_join_under args e b :
  is_entry_name e = true -> is_entry_name b = true ->
  path_join (args ++ [e; b]) = path_join (args ++ [e]) ++ SLASH :: b.
Proof.
  intros He Hb.
  change (args ++ [e; b]) with (args ++ [e] ++ [b]). rewrite app_assoc.
  rewrite (path_join_entry_last _ _ Hb).
  rewrite (filter_nonempty_entry _ _ He).
  unfold path_join. rewrite (filter_nonempty_entry _ _ He).
  destruct (List.filter _ args) as [|x rest] eqn:E.
  - cbn [app join_with_slash]. rewrite (directory_prefix_entry _ He).
    rewrite (path_normalize_entry _ He). now rewrite <- app_assoc.
  - change (directory_prefix (join_with_slash ((x :: rest) ++ [e])) ++ b
            = path_normalize (join_with_slash ((x :: rest) ++ [e])) ++ SLASH :: b).
    rewrite join_with_slash_snoc.
    rewrite directory_prefix_child; [now rewrite <- app_assoc| |exact He].
    apply join_with_slash_not_nil. eapply filter_head_nonempty; eauto.
Qed.

Lemma path_normalize_not_nil p : path_normalize p <> [].
Proof.
  unfold path_normalize. cbv zeta.
  destruct (is_empty p); [discriminate|].
  destruct (is_empty (normalizeString p _)) eqn:E.
  - destruct (starts_with_slash p); [discriminate|].
    destruct (ends_with_slash p); discriminate.
  - destruct (starts_with_slash p); [discriminate|].
    destruct (ends_with_slash p); destruct (normalizeString p _); try discriminate.
Qed.

Lemma path_join_not_nil args : path_join args <> [].
Proof.
  unfold path_join. destruct (List.filter _ args); [discriminate|].
  apply path_normalize_not_nil.
Qed.

(** Base names *)

Lemma split_on_segments sep s :
  Forall (fun seg => forallb (fun c => negb (c =? sep)) seg = true) (split_on sep s).
Proof.
  induction s as [|c t IH]; simpl.
  - repeat constructor.
  - destruct (c =? sep) eqn:Ec.
    + constructor; [reflexivity|exact IH].
    + destruct (split_on sep t) as [|w ws]; [repeat constructor; simpl; now rewrite Ec|].
      inversion IH; subst. constructor; [|assumption]. simpl. now rewrite Ec.
Qed.

Lemma last_Forall {A} (P : A -> Prop) (l : list A) d : P d -> Forall P l -> P (List.last l d).
Proof.
  intros Hd H. induction H as [|x l Hx Hl IH]; [exact Hd|].
  destruct l; [exact Hx|exact IH].
Qed.

Lemma path_basename_no_slash p :
  forallb (fun c => negb (c =? SLASH)) (path_basename p) = true.
Proof.
  unfold path_basename. apply last_Forall; [reflexivity|].
  apply List.Forall_forall. intros x Hx. apply filter_In in Hx as [Hx _].
  revert x Hx. apply List.Forall_forall, split_on_segments.
Qed.

Lemma path_basename_idem p : path_basename (path_basename p) = path_basename p.
Proof.
  unfold path_basename at 1.
  rewrite (split_on_no_sep SLASH _ (path_basename_no_slash p)).
  simpl. now destruct (path_basename p).
Qed.

Lemma path_join_same_parts args args' :
  join_with_slash (List.filter (fun a => negb (is_empty a)) args)
  = join_with_slash (List.filter (fun a => negb (is_empty a)) args') ->
  path_join args = path_join args'.
Proof.
  unfold path_join. intros H.
  destruct (List.filter _ args) as [|x l] eqn:E, (List.filter _ args') as [|y l'] eqn:E';
    try reflexivity.
  - exfalso. symmetry in H. revert H. apply join_with_slash_not_nil.
    eapply filter_head_nonempty; eauto.
  - exfalso. revert H. apply join_with_slash_not_nil.
    eapply filter_head_nonempty; eauto.
  - now rewrite H.
Qed.

(** C4 (as amended).  In the packaged application [runPythonScript] of the
    complete script keeps only the base name of the path it is given: the
    base name holds no slash, the resolved path is the same as for the
    base name alone, and whenever the base name is an entry name (not
    empty, not "." and not "..") the script resolves to that name directly
    inside the packaged scripts directory.  [getScriptPath] of the DMG
    script joins the name as it is given: a name that is one entry name
    resolves directly inside its scripts directory. *)
Theorem packaged_script_by_base_name (env : Env) (script : jsstring) :
  isPackaged env = true ->
  forallb (fun c => negb (c =? SLASH)) (path_basename script) = true /\
  resolve_script CompleteScript env script
  = resolve_script CompleteScript env (path_basename script) /\
  (is_entry_name (path_basename script) = true ->
   resolve_script CompleteScript env script
   = packaged_scripts_dir CompleteScript env ++ SLASH :: path_basename script) /\
  (is_entry_name script = true ->
   resolve_script DmgScript env script
   = packaged_scripts_dir DmgScript env ++ SLASH :: script).
Proof.
  intros Hp. split; [apply path_basename_no_slash|]. split; [|split].
  - simpl. unfold Main.realScriptPath, Main.isDev. rewrite Hp. simpl.
    now rewrite path_basename_idem.
  - intros Hb. simpl. unfold Main.realScriptPath, Main.isDev. rewrite Hp. cbn [negb].
    rewrite (path_join_same_parts _
               [resourcesPath env; u "python"; u "whalescope_scripts"; path_basename script])
      by (destruct (resourcesPath env), (path_basename script); reflexivity).
    rewrite (path_join_same_parts [resourcesPath env; u "python/whalescope_scripts"]
               [resourcesPath env; u "python"; u "whalescope_scripts"])
      by (destruct (resourcesPath env); reflexivity).
    apply (path_join_under [resourcesPath env; u "python"]); [reflexivity|exact Hb].
  - intros Hb. simpl. unfold MainDmg.getScriptPath, MainDmg.isDev. rewrite Hp. cbn [negb].
    apply (path_join_under [MainDmg.projectRoot env]); [reflexivity|exact Hb].
Qed.

Lemma packaged_script_by_base_name_witness :
  resolve_script CompleteScript one_line_env (u "/Users/other/evil/export_marketbrain_csv.py")
  = u "/Applications/WhaleScope.app/Contents/Resources/python/whalescope_scripts"
      ++ SLASH :: u "export_marketbrain_csv.py".
Proof.
  destruct (packaged_script_by_base_name one_line_env
              (u "/Users/other/evil/export_marketbrain_csv.py") eq_refl)
    as (_ & _ & H & _).
  exact (H eq_refl).
Defined.

(** C4 as stated fails: a path whose base name is ".." resolves to the
    parent of the scripts directory in the complete script, and the DMG
    script follows the ".." segments of the name it is given. *)
Lemma packaged_script_outside_directory :
  isPackaged one_line_env = true /\
  resolve_script CompleteScript one_line_env (u "scripts/..")
  = u "/Applications/WhaleScope.app/Contents/Resources/python" /\
  inside_directory (packaged_scripts_dir CompleteScript one_line_env)
    (resolve_script CompleteScript one_line_env (u "scripts/..")) = false /\
  resolve_script DmgScript one_line_env (u "../../evil.py")
  = u "/Applications/WhaleScope.app/Contents/Resources/evil.py" /\
  inside_directory (packaged_scripts_dir DmgScript one_line_env)
    (resolve_script DmgScript one_line_env (u "../../evil.py")) = false.
Proof. repeat split; vm_compute; reflexivity. Qed.

(** ** The temporary chart image *)

Lemma uint_units_inj d d' : uint_units d = uint_units d' -> d = d'.
Proof.
  revert d'. induction d; intros d' H; destruct d'; simpl in H;
    try discriminate; try reflexivity;
    injection H as H; f_equal; now apply IHd.
Qed.

Lemma N_toString_inj n m : N_toString n = N_toString m -> n = m.
Proof.
  unfold N_toString. intros H. apply uint_units_inj in H.
  rewrite <- (DecimalN.Unsigned.of_to n), <- (DecimalN.Unsigned.of_to m). now rewrite H.
Qed.

Lemma uint_units_no_slash d :
  forallb (fun c => negb (c =? SLASH)) (uint_units d) = true.
Proof. induction d; simpl; try reflexivity; exact IHd. Qed.

Lemma chart_file_name_entry now : is_entry_name (chart_file_name now) = true.
Proof.
  unfold is_entry_name, chart_file_name.
  rewrite !forallb_app. unfold N_toString. rewrite uint_units_no_slash.
  reflexivity.
Qed.

Lemma chart_file_name_inj t1 t2 : chart_file_name t1 = chart_file_name t2 -> t1 = t2.
Proof.
  unfold chart_file_name. intros H.
  apply app_inv_head in H. apply app_inv_tail in H. now apply N_toString_inj.
Qed.

Lemma chart_path_by_clock_only (tempdir : jsstring) (t1 t2 : N) :
  chart_path tempdir t1 = chart_path tempdir t2 <-> t1 = t2.
Proof.
  split; [|now intros ->].
  pose proof (path_join_entry_last [tempdir] _ (chart_file_name_entry t1)) as E1.
  pose proof (path_join_entry_last [tempdir] _ (chart_file_name_entry t2)) as E2.
  unfold chart_path. cbn [app] in E1, E2. rewrite E1, E2.
  intros H. apply app_inv_head in H. now apply chart_file_name_inj.
Qed.

Lemma last_spawn_argument_after w' l call args x :
  spawned w' = l ++ [call] -> spawn_argv call = args ++ [x] ->
  last_spawn_argument w' = x.
Proof.
  intros H1 H2. unfold last_spawn_argument.
  rewrite H1, map_app. cbn [map]. rewrite last_last, H2. apply last_last.
Qed.

(** The "allium" export with a chart image hands the chart path to its
    worker as the last argument. *)
Lemma allium_chart_argument (s : Script) (env : Env) (p : PdfParams) (w : World) :
  section p = u "allium" ->
  truthy (chartImageBase64 p) = true ->
  (forall o, canceled (user_choice env o) = false) ->
  write_error env (chart_path (temp env) (Date_now env)) = None ->
  last_spawn_argument (snd (export_handler s env (ExportPdf p) w))
  = chart_path (temp env) (Date_now env).
Proof.
  intros Hs Ht Hc Hw.
  assert (Ha : jsstring_eqb (section p) (u "allium") = true) by (rewrite Hs; reflexivity).
  assert (Hn : is_empty (chart_path (temp env) (Date_now env)) = false).
  { unfold chart_path. destruct (path_join _) eqn:E; [|reflexivity].
    now destruct (path_join_not_nil _ E). }
  change (wp (export_handler s env (ExportPdf p)) w
            (fun _ w' => last_spawn_argument w' = chart_path (temp env) (Date_now env))).
  destruct s; wp_run; world_simpl; try congruence.
  all: try (rewrite Hc in *; discriminate).
  all: eapply last_spawn_argument_after; [reflexivity|];
       cbn [spawn_argv Main.python_call MainDmg.python_call];
       rewrite ?Hn; cbv iota; cbn [app];
       match goal with
       | |- ?a :: ?b :: ?c :: ?d :: [?x] = _ => exact (eq_refl ([a; b; c; d] ++ [x]))
       end.
Qed.

(** C8 (as amended).  The chart image of an export job is named by the
    temporary directory and the millisecond clock reading alone: two jobs
    in the same temporary directory get different chart paths exactly
    when their clock readings differ. *)
Theorem chart_image_name_by_clock_only
    (s : Script) (env1 env2 : Env) (p1 p2 : PdfParams) (w1 w2 : World) :
  temp env1 = temp env2 ->
  section p1 = u "allium" -> section p2 = u "allium" ->
  truthy (chartImageBase64 p1) = true -> truthy (chartImageBase64 p2) = true ->
  (forall o, canceled (user_choice env1 o) = false) ->
  (forall o, canceled (user_choice env2 o) = false) ->
  write_error env1 (chart_path (temp env1) (Date_now env1)) = None ->
  write_error env2 (chart_path (temp env2) (Date_now env2)) = None ->
  (last_spawn_argument (snd (export_handler s env1 (ExportPdf p1) w1))
   = last_spawn_argument (snd (export_handler s env2 (ExportPdf p2) w2))
   <-> Date_now env1 = Date_now env2).
Proof.
  intros Ht S1 S2 T1 T2 C1 C2 W1 W2.
  rewrite (allium_chart_argument s env1 p1 w1 S1 T1 C1 W1).
  rewrite (allium_chart_argument s env2 p2 w2 S2 T2 C2 W2).
  rewrite Ht. apply chart_path_by_clock_only.
Qed.

Lemma chart_image_name_by_clock_only_witness :
  last_spawn_argument (snd (export_handler CompleteScript (env_at 1700000000000)
                              (ExportPdf chart_job_1) empty_world))
  <> last_spawn_argument (snd (export_handler CompleteScript (env_at 1700000000001)
                                 (ExportPdf chart_job_2) empty_world)).
Proof.
  intros H.
  apply (chart_image_name_by_clock_only CompleteScript
           (env_at 1700000000000) (env_at 1700000000001)
           chart_job_1 chart_job_2 empty_world empty_world
           eq_refl eq_refl eq_refl eq_refl eq_refl
           (fun _ => eq_refl) (fun _ => eq_refl) eq_refl eq_refl) in H.
  discriminate H.
Defined.

(** C8 as stated fails: two different jobs that read the same millisecond
    hand the same chart path to their workers, and the image of the second
    replaces the image of the first. *)
Lemma chart_images_collide_within_a_tick :
  chart_job_1 <> chart_job_2 /\
  last_spawn_argument (snd (export_handler CompleteScript (env_at 1700000000000)
                              (ExportPdf chart_job_1) empty_world))
  = u "/tmp/allium_chart_1700000000000.png" /\
  last_spawn_argument
    (snd (export_handler CompleteScript (env_at 1700000000000) (ExportPdf chart_job_2)
            (snd (export_handler CompleteScript (env_at 1700000000000)
                    (ExportPdf chart_job_1) empty_world))))
  = u "/tmp/allium_chart_1700000000000.png" /\
  files (snd (export_handler CompleteScript (env_at 1700000000000)
                (ExportPdf chart_job_1) empty_world))
    !! u "/tmp/allium_chart_1700000000000.png" = Some (u "AAAA") /\
  files (snd (export_handler CompleteScript (env_at 1700000000000) (ExportPdf chart_job_2)
                (snd (export_handler CompleteScript (env_at 1700000000000)
                        (ExportPdf chart_job_1) empty_world))))
    !! u "/tmp/allium_chart_1700000000000.png" = Some (u "BBBB").
Proof. repeat split; try (vm_compute; reflexivity). discriminate. Qed.

(** ** The credentials file *)

Lemma hex_value_digit d : d < 16 -> hex_value (hex_digit d) = Some d.
Proof.
  intros H. unfold hex_value, hex_digit.
  destruct (d <? 10) eqn:E.
  - apply N.ltb_lt in E.
    replace ((48 <=? 48 + d) && (48 + d <=? 57)) with true
      by (symmetry; apply andb_true_intro; split; apply N.leb_le; lia).
    f_equal. lia.
  - apply N.ltb_ge in E.
    replace ((48 <=? 87 + d) && (87 + d <=? 57)) with false
      by (symmetry; apply andb_false_intro2; apply N.leb_gt; lia).
    replace ((97 <=? 87 + d) && (87 + d <=? 102)) with true
      by (symmetry; apply andb_true_intro; split; apply N.leb_le; lia).
    f_equal. lia.
Qed.

Lemma hex4_value_hex4 c :
  c < 65536 ->
  hex4_value (hex_digit (c / 4096 mod 16)) (hex_digit (c / 256 mod 16))
             (hex_digit (c / 16 mod 16)) (hex_digit (c mod 16)) = Some c.
Proof.
  intros H. unfold hex4_value.
  rewrite !hex_value_digit by (apply N.mod_lt; discriminate).
  f_equal.
  assert (D1 : c / 16 / 16 = c / 256) by (now rewrite N.Div0.div_div).
  assert (D2 : c / 256 / 16 = c / 4096) by (now rewrite N.Div0.div_div).
  assert (D3 : c / 4096 / 16 = c / 65536) by (now rewrite N.Div0.div_div).
  pose proof (N.div_mod c 16 ltac:(discriminate)) as E0.
  pose proof (N.div_mod (c / 16) 16 ltac:(discriminate)) as E1.
  pose proof (N.div_mod (c / 256) 16 ltac:(discriminate)) as E2.
  pose proof (N.div_mod (c / 4096) 16 ltac:(discriminate)) as E3.
  rewrite D1 in E1. rewrite D2 in E2. rewrite D3 in E3.
  rewrite (N.div_small c 65536 H) in E3.
  lia.
Qed.

Lemma parse_escape c x :
  c < 65536 ->
  parse_string_body (unicode_escape c ++ x) = cons_unit c (parse_string_body x).
Proof.
  intros H. unfold unicode_escape, hex4. cbn [app parse_string_body].
  change (BACKSLASH =? QUOTE) with false. change (BACKSLASH =? BACKSLASH) with true.
  change (117 =? 117) with true. cbv iota.
  now rewrite (hex4_value_hex4 c H).
Qed.

Lemma parse_raw c x :
  (c =? QUOTE) = false -> (c =? BACKSLASH) = false -> (c <? 32) = false ->
  parse_string_body (c :: x) = cons_unit c (parse_string_body x).
Proof. intros H1 H2 H3. cbn [parse_string_body]. now rewrite H1, H2, H3. Qed.

Lemma parse_quote_unit c x :
  parse_string_body (quote_unit c ++ x) = cons_unit c (parse_string_body x).
Proof.
  unfold quote_unit.
  repeat match goal with
  | |- context [if ?a =? ?b then _ else _] =>
      let E := fresh "E" in
      destruct (a =? b) eqn:E;
      [apply N.eqb_eq in E; subst c; reflexivity|]
  end.
  destruct (c <? 32) eqn:E6.
  - apply parse_escape. apply N.ltb_lt in E6. lia.
  - now apply parse_raw.
Qed.

Lemma surrogate_is_raw c x :
  55296 <= c ->
  parse_string_body (c :: x) = cons_unit c (parse_string_body x).
Proof.
  intros H. apply parse_raw.
  - apply N.eqb_neq. unfold QUOTE. lia.
  - apply N.eqb_neq. unfold BACKSLASH. lia.
  - apply N.ltb_ge. lia.
Qed.

Lemma parse_quote_body_aux n : forall s rest,
  (length s <= n)%nat ->
  parse_string_body (quote_body s ++ QUOTE :: rest) = Some (s, rest).
Proof.
  induction n as [|n IH]; intros s rest Hn.
  - destruct s; [reflexivity|simpl in Hn; lia].
  - destruct s as [|c t]; [reflexivity|]. simpl in Hn.
    cbn [quote_body].
    destruct (is_lead_surrogate c) eqn:Hl.
    + assert (Hc : 55296 <= c /\ c < 65536).
      { unfold is_lead_surrogate in Hl. apply andb_prop in Hl as [H1 H2].
        apply N.leb_le in H1, H2. lia. }
      destruct t as [|d t'].
      * rewrite parse_escape by lia. reflexivity.
      * destruct (is_trail_surrogate d) eqn:Ht.
        -- assert (Hd : 55296 <= d).
           { unfold is_trail_surrogate in Ht. apply andb_prop in Ht as [H1 H2].
             apply N.leb_le in H1. lia. }
           cbn [app]. rewrite (surrogate_is_raw c) by lia.
           rewrite (surrogate_is_raw d) by lia.
           rewrite IH by (simpl in Hn; lia). reflexivity.
        -- rewrite <- app_assoc, parse_escape by lia.
           rewrite IH by (simpl in *; lia). reflexivity.
    + destruct (is_trail_surrogate c) eqn:Ht.
      * assert (Hc : c < 65536).
        { unfold is_trail_surrogate in Ht. apply andb_prop in Ht as [H1 H2].
          apply N.leb_le in H2. lia. }
        rewrite <- app_assoc, parse_escape by lia.
        rewrite IH by lia. reflexivity.
      * rewrite <- app_assoc, parse_quote_unit.
        rewrite IH by lia. reflexivity.
Qed.

Lemma parse_quote_body s rest :
  parse_string_body (quote_body s ++ QUOTE :: rest) = Some (s, rest).
Proof. apply (parse_quote_body_aux (length s)). lia. Qed.

Lemma stringify_member_eq k v :
  stringify_member (k, v)
  = 32 :: 32 :: QUOTE :: quote_body k
    ++ QUOTE :: 58 :: 32 :: QUOTE :: quote_body v ++ [QUOTE].
Proof.
  unfold stringify_member, JSON_quote. cbn [fst snd].
  change (u "  ") with [32; 32]. change (u ": ") with [58; 32].
  cbn [app]. now rewrite <- !app_assoc.
Qed.

Lemma set_prop_fresh acc k v :
  ~ In k (map fst acc) -> set_prop acc k v = acc ++ [(k, v)].
Proof.
  induction acc as [|[k' v'] acc IH]; intros H; simpl; [reflexivity|].
  simpl in H. unfold jsstring_eqb.
  rewrite bool_decide_eq_false_2 by tauto.
  f_equal. apply IH. tauto.
Qed.

(** One member, followed by whatever [rest]. *)
Lemma parse_member fuel acc k v rest :
  parse_members (S (S fuel)) acc (LF :: stringify_member (k, v) ++ rest)
  = match skip_ws rest with
    | 44 :: t4 => parse_members (S fuel) (set_prop acc k (VString v)) t4
    | 125 :: t4 => Some (VObject (set_prop acc k (VString v)), t4)
    | _ => None
    end.
Proof.
  rewrite stringify_member_eq.
  cbn [parse_members skip_ws app].
  change (is_json_ws LF) with true. change (is_json_ws 32) with true.
  change (is_json_ws QUOTE) with false. cbv iota.
  change (QUOTE :: quote_body k ++ ?x) with (QUOTE :: (quote_body k ++ x)).
  rewrite <- app_assoc. cbn [app].
  rewrite parse_quote_body.
  cbn [skip_ws]. change (is_json_ws 58) with false. cbv iota.
  cbn [parse_value skip_ws].
  change (is_json_ws 32) with true. change (is_json_ws QUOTE) with false. cbv iota.
  change (QUOTE =? 123) with false. change (QUOTE =? 91) with false.
  change (QUOTE =? QUOTE) with true. cbv iota.
  rewrite <- app_assoc. cbn [app].
  rewrite parse_quote_body. reflexivity.
Qed.

Lemma stringify_members_cons kv t :
  stringify_members (kv :: t)
  = stringify_member kv
    ++ match t with [] => [] | _ :: _ => 44 :: LF :: stringify_members t end.
Proof. destruct t; simpl; [now rewrite app_nil_r|reflexivity]. Qed.

Lemma parse_members_stringify (k : KeySet) : forall acc fuel tail,
  k <> [] ->
  List.NoDup (map fst acc ++ map fst k) ->
  (length k < fuel)%nat ->
  parse_members fuel acc (LF :: stringify_members k ++ LF :: 125 :: tail)
  = Some (VObject (acc ++ map (fun kv => (fst kv, VString (snd kv))) k), tail).
Proof.
  induction k as [|[key v] t IH]; intros acc fuel tail Hne Hnd Hf; [congruence|].
  destruct fuel as [|[|fuel]]; simpl in Hf; try lia.
  rewrite stringify_members_cons, <- app_assoc.
  rewrite parse_member.
  assert (Hfresh : ~ In key (map fst acc)).
  { cbn [map fst] in Hnd. apply NoDup_remove_2 in Hnd.
    intros Hin. apply Hnd. apply in_or_app. now left. }
  rewrite (set_prop_fresh _ _ _ Hfresh).
  destruct t as [|kv' t'].
  - cbn [app skip_ws]. change (is_json_ws LF) with true. cbv iota.
    cbn [skip_ws]. change (is_json_ws 125) with false. cbv iota.
    reflexivity.
  - cbn [app skip_ws]. change (is_json_ws 44) with false. cbv iota.
    rewrite IH.
    + cbn [map fst snd]. now rewrite <- app_assoc.
    + discriminate.
    + rewrite map_app. cbn [map fst]. rewrite <- app_assoc. exact Hnd.
    + simpl in *. lia.
Qed.

Lemma stringify_members_length (k : KeySet) :
  (length k <= length (stringify_members k))%nat.
Proof.
  induction k as [|[key v] t IH]; [simpl; lia|].
  rewrite stringify_members_cons, stringify_member_eq.
  destruct t; [simpl; lia|].
  rewrite length_app. cbn [length] in *. lia.
Qed.

(** [JSON.parse(JSON.stringify(keys, null, 2))] gives the credentials
    back. *)
Lemma JSON_parse_stringify (k : KeySet) :
  List.NoDup (map fst k) ->
  JSON_parse (JSON_stringify k) = Some (keyset_value k).
Proof.
  intros Hnd. destruct k as [|kv t]; [reflexivity|].
  unfold JSON_parse, JSON_stringify.
  set (members := stringify_members (kv :: t)).
  cbn [parse_value skip_ws length].
  change (is_json_ws 123) with false. cbv iota.
  change (123 =? 123) with true. cbv iota.
  assert (Hm : exists x, members = 32 :: 32 :: QUOTE :: x).
  { unfold members. rewrite stringify_members_cons. destruct kv as [key v].
    rewrite stringify_member_eq. eexists. reflexivity. }
  destruct Hm as [x Hx].
  assert (Hs : skip_ws (LF :: members ++ [LF; 125]) = QUOTE :: x ++ [LF; 125]).
  { rewrite Hx. reflexivity. }
  rewrite Hs.
  rewrite (parse_members_stringify (kv :: t) [] _ []).
  - reflexivity.
  - discriminate.
  - exact Hnd.
  - pose proof (stringify_members_length (kv :: t)) as L. fold members in L.
    rewrite length_app. simpl in *. lia.
Qed.

(** C9.  Saving a credentials object (its keys distinct, the file
    writable) leaves the credentials file holding exactly
    [JSON.stringify(keys, null, 2)], whatever it held before and with every
    other file as it was; loading afterwards answers
    [{success: true, keys}] with the very object that was saved; and loading
    while the file does not exist answers [{success: false, keys: {}}]
    rather than an error.  This holds for both scripts. *)
Theorem credentials_saved_wholesale_and_loaded_back
    (s : Script) (env : Env) (k : KeySet) (w : World) :
  List.NoDup (map fst k) ->
  write_error env (Main.apiKeysPath env) = None ->
  fst (saveApiKeys_of s env k w) = Returned (VObject [obj_success true]) /\
  files (snd (saveApiKeys_of s env k w))
  = <[Main.apiKeysPath env := JSON_stringify k]> (files w) /\
  fst (loadApiKeys_of s env (snd (saveApiKeys_of s env k w)))
  = Returned (VObject [obj_success true; (u "keys", keyset_value k)]) /\
  (forall w0,
      files w0 !! Main.apiKeysPath env = None ->
      fst (loadApiKeys_of s env w0)
      = Returned (VObject [obj_success false; (u "keys", VObject [])])).
Proof.
  intros Hnd Hw.
  assert (Hsave : saveApiKeys_of s env k w
                  = (Returned (VObject [obj_success true]),
                     set_file (Main.apiKeysPath env) (JSON_stringify k) w)).
  { destruct s; unfold saveApiKeys_of, Main.saveApiKeys, MainDmg.saveApiKeys,
      try_catch, bind, writeFileSync, ret;
      change (MainDmg.apiKeysPath env) with (Main.apiKeysPath env);
      now rewrite Hw. }
  rewrite Hsave. cbn [fst snd]. repeat split.
  - assert (Hl : files (set_file (Main.apiKeysPath env) (JSON_stringify k) w)
                 !! Main.apiKeysPath env = Some (JSON_stringify k))
      by (cbn [files set_file with_files]; apply lookup_insert_eq).
    destruct s; unfold loadApiKeys_of, Main.loadApiKeys, MainDmg.loadApiKeys,
      try_catch, bind, existsSync, readFileSync, parse_json, ret;
      change (MainDmg.apiKeysPath env) with (Main.apiKeysPath env);
      rewrite Hl; rewrite bool_decide_eq_true_2 by eauto;
      cbv beta iota; rewrite Hl; cbv beta iota;
      rewrite (JSON_parse_stringify k Hnd); reflexivity.
  - intros w0 H0.
    destruct s; unfold loadApiKeys_of, Main.loadApiKeys, MainDmg.loadApiKeys,
      try_catch, bind, existsSync, ret;
      change (MainDmg.apiKeysPath env) with (Main.apiKeysPath env);
      rewrite H0;
      rewrite bool_decide_eq_false_2 by (intros [x Hx]; discriminate);
      reflexivity.
Qed.

Lemma credentials_saved_wholesale_and_loaded_back_witness :
  files (snd (saveApiKeys_of DmgScript cancel_env sample_keys world_with_old_keys))
    !! Main.apiKeysPath cancel_env
  = Some (JSON_stringify sample_keys) /\
  fst (loadApiKeys_of DmgScript cancel_env
         (snd (saveApiKeys_of DmgScript cancel_env sample_keys world_with_old_keys)))
  = Returned (VObject [obj_success true; (u "keys", keyset_value sample_keys)]).
Proof.
  assert (Hnd : List.NoDup (map fst sample_keys)).
  { repeat constructor; simpl; intuition discriminate. }
  destruct (credentials_saved_wholesale_and_loaded_back DmgScript cancel_env
              sample_keys world_with_old_keys Hnd eq_refl)
    as (_ & H2 & H3 & _).
  split; [rewrite H2; apply lookup_insert_eq | exact H3].
Defined.

(** ** Paths: normal forms *)

Lemma norm_stack_app a l1 l2 :
  norm_stack a (l1 ++ l2) = fold_left (norm_step a) l2 (norm_stack a l1).
Proof. unfold norm_stack. apply fold_left_app. Qed.

Lemma norm_stack_skip a l : norm_stack a ([] :: l) = norm_stack a l.
Proof. reflexivity. Qed.

Lemma split_on_join (l : list jsstring) :
  l <> [] ->
  Forall (fun seg => forallb (fun c => negb (c =? SLASH)) seg = true) l ->
  split_on SLASH (join_with_slash l) = l.
Proof.
  induction l as [|x l IH]; [congruence|]. intros _ H.
  inversion H as [|? ? Hx Hl]; subst.
  destruct l as [|y l].
  - simpl. now apply split_on_no_sep.
  - change (join_with_slash (x :: y :: l)) with (x ++ SLASH :: join_with_slash (y :: l)).
    rewrite split_on_app_sep, (split_on_no_sep _ _ Hx), IH; [reflexivity|discriminate|assumption].
Qed.

Lemma is_dotdot_eq s : is_dotdot s = true <-> s = [DOT; DOT].
Proof. unfold is_dotdot. apply jsstring_eqb_eq. Qed.

Lemma entry_is_not_dotdot e : is_entry_name e = true -> is_dotdot e = false.
Proof. intros H. now destruct (is_entry_name_spec e H) as (_ & _ & ? & _). Qed.

Lemma norm_step_kept a stack seg :
  forallb (fun c => negb (c =? SLASH)) seg = true ->
  kept a stack -> kept a (norm_step a stack seg).
Proof.
  intros Hs (es & ds & -> & Hes & Hds & Ha). unfold norm_step.
  destruct (is_empty seg || is_dot seg) eqn:E1; [now exists es, ds|].
  apply orb_false_elim in E1 as [E1 E1'].
  destruct (is_dotdot seg) eqn:E2.
  - apply is_dotdot_eq in E2. subst seg.
    destruct es as [|e es]; cbn [app].
    + destruct ds as [|d ds].
      * destruct a; [|now exists [], []].
        exists [], [[DOT; DOT]]. repeat split; auto. discriminate.
      * inversion Hds; subst. change (is_dotdot [DOT; DOT]) with true. cbv iota.
        destruct a.
        -- exists [], ([DOT; DOT] :: [DOT; DOT] :: ds).
           repeat split; auto. discriminate.
        -- now exists [], ([DOT; DOT] :: ds).
    + inversion Hes; subst. rewrite entry_is_not_dotdot by assumption.
      now exists es, ds.
  - exists (seg :: es), ds. repeat split; auto. constructor; [|assumption].
    unfold is_entry_name. now rewrite E1, E1', E2, Hs.
Qed.

Lemma norm_stack_kept a p : kept a (norm_stack a (split_on SLASH p)).
Proof.
  unfold norm_stack.
  assert (G : forall segs stack,
             Forall (fun seg => forallb (fun c => negb (c =? SLASH)) seg = true) segs ->
             kept a stack -> kept a (fold_left (norm_step a) segs stack)).
  { induction segs as [|seg segs IH]; intros stack Hf Hk; [exact Hk|].
    inversion Hf; subst. simpl. apply IH; [assumption|]. now apply norm_step_kept. }
  apply G; [apply split_on_segments|]. exists [], []. repeat split; auto.
Qed.

Lemma fold_entries a es stack :
  Forall (fun e => is_entry_name e = true) es ->
  fold_left (norm_step a) (rev es) stack = es ++ stack.
Proof.
  induction es as [|e es IH]; intros H; [reflexivity|].
  inversion H; subst. cbn [rev]. rewrite fold_left_app, IH by assumption.
  simpl. now rewrite norm_step_entry.
Qed.

Lemma fold_dotdots ds :
  Forall (fun d => d = [DOT; DOT]) ds ->
  fold_left (norm_step true) (rev ds) [] = ds.
Proof.
  induction ds as [|d ds IH]; intros H; [reflexivity|].
  inversion H as [|? ? Hd Hds]; subst. cbn [rev]. rewrite fold_left_app, IH by assumption.
  simpl. destruct ds as [|d' ds']; [reflexivity|].
  inversion Hds; subst. reflexivity.
Qed.

Lemma kept_refold a stack :
  kept a stack -> fold_left (norm_step a) (rev stack) [] = stack.
Proof.
  intros (es & ds & -> & Hes & Hds & Ha).
  rewrite rev_app_distr, fold_left_app.
  destruct a.
  - now rewrite fold_dotdots, fold_entries.
  - rewrite (Ha eq_refl). simpl. now rewrite fold_entries.
Qed.

Lemma kept_slash_free a stack :
  kept a stack ->
  Forall (fun seg => forallb (fun c => negb (c =? SLASH)) seg = true) stack.
Proof.
  intros (es & ds & -> & Hes & Hds & _). apply List.Forall_app. split.
  - eapply List.Forall_impl; [|exact Hes]. intros e He.
    now destruct (is_entry_name_spec e He) as (_ & _ & _ & ?).
  - eapply List.Forall_impl; [|exact Hds]. now intros d ->.
Qed.

Lemma kept_nonempty a stack :
  kept a stack -> Forall (fun seg => seg <> []) stack.
Proof.
  intros (es & ds & -> & Hes & Hds & _). apply List.Forall_app. split.
  - eapply List.Forall_impl; [|exact Hes]. intros e He ->. discriminate.
  - eapply List.Forall_impl; [|exact Hds]. now intros d ->.
Qed.

(** Splitting what [normalizeString] wrote gives its stack back. *)
Lemma norm_stack_join_rev a stack :
  kept a stack -> norm_stack a (split_on SLASH (join_with_slash (rev stack))) = stack.
Proof.
  intros Hk. destruct stack as [|top below]; [reflexivity|].
  rewrite split_on_join.
  - now apply kept_refold.
  - cbn [rev]. now destruct (rev below).
  - apply List.Forall_rev. eapply kept_slash_free; eauto.
Qed.

Lemma join_rev_empty a stack :
  kept a stack -> is_empty (join_with_slash (rev stack)) = true -> stack = [].
Proof.
  intros Hk H. destruct stack as [|top below]; [reflexivity|exfalso].
  apply kept_nonempty in Hk. apply List.Forall_rev in Hk.
  destruct (rev (top :: below)) as [|x l] eqn:E.
  - cbn [rev] in E. now destruct (rev below).
  - inversion Hk as [|? ? Hx _]; subst. destruct x; [congruence|].
    destruct l; discriminate.
Qed.

Lemma join_rev_relative a stack x :
  kept a stack -> stack <> [] ->
  starts_with_slash (join_with_slash (rev stack) ++ x) = false.
Proof.
  intros Hk Hne.
  pose proof (kept_nonempty _ _ Hk) as Hn. apply List.Forall_rev in Hn.
  pose proof (kept_slash_free _ _ Hk) as Hs. apply List.Forall_rev in Hs.
  destruct (rev stack) as [|y l] eqn:E.
  - destruct stack; [congruence|]. cbn [rev] in E. now destruct (rev stack).
  - inversion Hn as [|? ? Hy _]; subst. inversion Hs as [|? ? Hy' _]; subst.
    destruct y as [|c y]; [congruence|].
    assert (Hc : (c =? SLASH) = false).
    { simpl in Hy'. now destruct (c =? SLASH). }
    destruct l; simpl; now rewrite Hc.
Qed.

(** What [path.normalize] returns is again absolute or relative as its
    argument, and has the same segments. *)
Lemma path_normalize_segments p :
  p <> [] ->
  starts_with_slash (path_normalize p) = starts_with_slash p /\
  norm_stack (negb (starts_with_slash p)) (split_on SLASH (path_normalize p))
  = norm_stack (negb (starts_with_slash p)) (split_on SLASH p).
Proof.
  intros Hp. unfold path_normalize, normalizeString. cbv zeta.
  destruct p as [|c0 p0]; [congruence|]. cbn [is_empty].
  set (p := c0 :: p0).
  set (a := negb (starts_with_slash p)).
  pose proof (norm_stack_kept a p) as Hk.
  set (stack := norm_stack a (split_on SLASH p)) in *.
  destruct (is_empty (join_with_slash (rev stack))) eqn:Eq.
  - rewrite (join_rev_empty _ _ Hk Eq).
    destruct (starts_with_slash p); [split; reflexivity|].
    destruct (ends_with_slash p); split; reflexivity.
  - assert (Hne : stack <> []) by (intros E; rewrite E in Eq; discriminate).
    assert (Hq : norm_stack a (split_on SLASH (join_with_slash (rev stack))) = stack)
      by now apply norm_stack_join_rev.
    assert (Hq' : norm_stack a (split_on SLASH (join_with_slash (rev stack) ++ [SLASH]))
                  = stack).
    { rewrite split_on_app_sep, norm_stack_app, Hq. reflexivity. }
    destruct (starts_with_slash p) eqn:Ea, (ends_with_slash p); split;
      try reflexivity;
      try (now apply (join_rev_relative a));
      try (rewrite <- (app_nil_r (join_with_slash (rev stack)));
           now apply (join_rev_relative a));
      try (change (SLASH :: ?x) with ([] ++ SLASH :: x);
           rewrite split_on_app_sep; cbn [split_on app]; rewrite norm_stack_skip);
      assumption.
Qed.

(** Two paths with the same segments are normalized alike. *)
Lemma path_normalize_ext p1 p2 :
  p1 <> [] -> p2 <> [] ->
  starts_with_slash p1 = starts_with_slash p2 ->
  ends_with_slash p1 = ends_with_slash p2 ->
  norm_stack (negb (starts_with_slash p1)) (split_on SLASH p1)
  = norm_stack (negb (starts_with_slash p1)) (split_on SLASH p2) ->
  path_normalize p1 = path_normalize p2.
Proof.
  intros H1 H2 Ha He Hs. unfold path_normalize, normalizeString. cbv zeta.
  destruct p1; [congruence|]. destruct p2; [congruence|]. cbn [is_empty].
  rewrite <- Ha, <- He, Hs. reflexivity.
Qed.

Lemma ends_with_slash_app x y :
  y <> [] -> ends_with_slash (x ++ y) = ends_with_slash y.
Proof.
  intros Hy. unfold ends_with_slash. rewrite rev_app_distr.
  apply starts_with_slash_app. intros E. apply Hy.
  apply (f_equal (@rev N)) in E. now rewrite rev_involutive in E.
Qed.

Lemma path_normalize_idem p : path_normalize (path_normalize p) = path_normalize p.
Proof.
  destruct p as [|c p0]; [reflexivity|].
  set (p := c :: p0).
  destruct (path_normalize_segments p) as [Ha Hs]; [discriminate|].
  unfold path_normalize at 1. unfold normalizeString. cbv zeta.
  destruct (path_normalize p) as [|d q0] eqn:E; [now destruct (path_normalize_not_nil p)|].
  cbn [is_empty]. rewrite Ha, Hs.
  unfold path_normalize, normalizeString in E. cbv zeta in E. cbn [is_empty p] in E.
  fold p in E.
  set (stack := norm_stack (negb (starts_with_slash p)) (split_on SLASH p)) in *.
  destruct (is_empty (join_with_slash (rev stack))) eqn:Eq.
  - destruct (starts_with_slash p); [now rewrite <- E|].
    destruct (ends_with_slash p); now rewrite <- E.
  - assert (Hq : join_with_slash (rev stack) <> [])
      by (intros X; rewrite X in Eq; discriminate).
    assert (Ht : ends_with_slash (d :: q0) = ends_with_slash p).
    { rewrite <- E. destruct (ends_with_slash p) eqn:Et.
      - destruct (starts_with_slash p).
        + change (SLASH :: ?x ++ [SLASH]) with ((SLASH :: x) ++ [SLASH]).
          now rewrite ends_with_slash_app.
        + now rewrite ends_with_slash_app.
      - pose proof (norm_stack_kept (negb (starts_with_slash p)) p) as Hk. fold stack in Hk.
        assert (Hl : ends_with_slash (join_with_slash (rev stack)) = false).
        { unfold ends_with_slash.
          destruct stack as [|top below]; [reflexivity|]. cbn [rev].
          rewrite join_with_slash_snoc.
          pose proof (kept_nonempty _ _ Hk) as Hn. inversion Hn as [|? ? Hn1 _]; subst.
          pose proof (kept_slash_free _ _ Hk) as Hf. inversion Hf as [|? ? Hf1 _]; subst.
          assert (Hlast : starts_with_slash (rev top) = false).
          { destruct top as [|t0 top] using rev_ind; [congruence|].
            rewrite rev_app_distr. simpl.
            rewrite forallb_app in Hf1. apply andb_prop in Hf1 as [_ Hf1]. simpl in Hf1.
            now destruct (t0 =? SLASH). }
          destruct (rev below).
          - exact Hlast.
          - change (?x ++ SLASH :: top) with (x ++ [SLASH] ++ top).
            rewrite app_assoc, rev_app_distr.
            rewrite starts_with_slash_app; [exact Hlast|].
            intros X. apply (f_equal (@rev N)) in X. rewrite rev_involutive in X.
            now subst top. }
        destruct (starts_with_slash p); [|exact Hl].
        change (SLASH :: ?x) with ([SLASH] ++ x).
        now rewrite ends_with_slash_app. }
    rewrite Ht. exact E.
Qed.

Lemma join_with_slash_app l1 l2 :
  l1 <> [] -> l2 <> [] ->
  join_with_slash (l1 ++ l2) = join_with_slash l1 ++ SLASH :: join_with_slash l2.
Proof.
  intros H1 H2. induction l1 as [|x l1 IH]; [congruence|].
  destruct l1 as [|y l1].
  - destruct l2; [congruence|]. reflexivity.
  - change (join_with_slash ((x :: y :: l1) ++ l2))
      with (x ++ SLASH :: join_with_slash ((y :: l1) ++ l2)).
    rewrite IH by discriminate.
    change (join_with_slash (x :: y :: l1)) with (x ++ SLASH :: join_with_slash (y :: l1)).
    now rewrite <- app_assoc.
Qed.

Lemma filter_nonempty_all l :
  Forall (fun a => a <> []) (List.filter (fun a => negb (is_empty a)) l).
Proof.
  apply List.Forall_forall. intros x Hx. apply filter_In in Hx as [_ Hx]. now destruct x.
Qed.

Lemma join_with_slash_nonempty l :
  l <> [] -> Forall (fun a => a <> []) l -> join_with_slash l <> [].
Proof.
  intros Hl H. destruct l as [|x l]; [congruence|].
  inversion H; subst. now apply join_with_slash_not_nil.
Qed.

Lemma starts_with_slash_join x l :
  x <> [] -> starts_with_slash (join_with_slash (x :: l)) = starts_with_slash x.
Proof.
  intros Hx. destruct l; [reflexivity|].
  change (join_with_slash (x :: ?y :: ?l)) with (x ++ SLASH :: join_with_slash (y :: l)).
  now apply starts_with_slash_app.
Qed.

(** [path.join(path.join(...args), ...tail)] is [path.join(...args, ...tail)]
    when no argument of the tail is absolute. *)
Lemma path_join_nested args tail :
  Forall (fun t => starts_with_slash t = false) tail ->
  path_join (path_join args :: tail) = path_join (args ++ tail).
Proof.
  intros Hrel. unfold path_join at 1 3. rewrite List.filter_app.
  cbn [List.filter].
  assert (Hne : is_empty (path_join args) = false).
  { destruct (path_join args) eqn:E; [now destruct (path_join_not_nil args)|reflexivity]. }
  rewrite Hne. cbn [negb].
  pose proof (filter_nonempty_all args) as HA.
  pose proof (filter_nonempty_all tail) as HT.
  assert (HTrel : Forall (fun t => starts_with_slash t = false)
                    (List.filter (fun a => negb (is_empty a)) tail)).
  { apply List.Forall_forall. intros x Hx. apply filter_In in Hx as [Hx _].
    revert x Hx. now apply List.Forall_forall. }
  unfold path_join.
  destruct (List.filter _ args) as [|x rest] eqn:EA;
    destruct (List.filter _ tail) as [|y more] eqn:ET; cbn [app].
  - reflexivity.
  - inversion HT as [|? ? Hy _]; subst. inversion HTrel as [|? ? Hy' _]; subst.
    change (join_with_slash ([DOT] :: y :: more))
      with ([DOT] ++ SLASH :: join_with_slash (y :: more)).
    assert (Hj : join_with_slash (y :: more) <> []) by now apply join_with_slash_not_nil.
    assert (Hr : starts_with_slash (join_with_slash (y :: more)) = false)
      by now rewrite starts_with_slash_join.
    apply path_normalize_ext; [discriminate|assumption| | |].
    + now rewrite Hr.
    + change ([DOT] ++ SLASH :: ?z) with ([DOT; SLASH] ++ z). now apply ends_with_slash_app.
    + rewrite split_on_app_sep. reflexivity.
  - rewrite app_nil_r. cbn [join_with_slash]. apply path_normalize_idem.
  - inversion HA as [|? ? Hx _]; subst. inversion HT as [|? ? Hy _]; subst.
    change (x :: rest ++ y :: more) with ((x :: rest) ++ y :: more).
    rewrite (join_with_slash_app (x :: rest) (y :: more)) by discriminate.
    change (join_with_slash (path_normalize ?j :: y :: more))
      with (path_normalize j ++ SLASH :: join_with_slash (y :: more)).
    set (j := join_with_slash (x :: rest)).
    assert (Hj : j <> []) by now apply join_with_slash_not_nil.
    assert (Ht : join_with_slash (y :: more) <> []) by now apply join_with_slash_not_nil.
    destruct (path_normalize_segments j Hj) as [Ha Hs].
    apply path_normalize_ext.
    + intros X. apply app_eq_nil in X as [_ X]. discriminate.
    + intros X. apply app_eq_nil in X as [_ X]. discriminate.
    + rewrite !starts_with_slash_app; [exact Ha|assumption|apply path_normalize_not_nil].
    + change (?a ++ SLASH :: ?b) with (a ++ [SLASH] ++ b).
      rewrite !app_assoc. now rewrite !ends_with_slash_app.
    + rewrite (starts_with_slash_app _ _ (path_normalize_not_nil j)), Ha.
      rewrite !split_on_app_sep, !norm_stack_app. now rewrite Hs.
Qed.

Lemma ends_with_slash_sep x y :
  y <> [] -> ends_with_slash (x ++ SLASH :: y) = ends_with_slash y.
Proof.
  intros Hy. change (x ++ SLASH :: y) with (x ++ [SLASH] ++ y).
  rewrite app_assoc. now apply ends_with_slash_app.
Qed.

(** An entry name followed by [".."] cancels. *)
Lemma path_join_cancel x e y :
  x <> [] -> y <> [] -> is_entry_name e = true ->
  path_join [x; e; [DOT; DOT]; y] = path_join [x; y].
Proof.
  intros Hx Hy He.
  destruct (is_entry_name_spec e He) as (Hne & _ & Hdd & Hsf).
  unfold path_join. cbn [List.filter].
  destruct x as [|cx x0]; [congruence|]. destruct y as [|cy y0]; [congruence|].
  rewrite Hne. cbn [is_empty negb].
  set (x := cx :: x0). set (y := cy :: y0).
  change (join_with_slash [x; e; [DOT; DOT]; y])
    with (x ++ SLASH :: e ++ SLASH :: [DOT; DOT] ++ SLASH :: y).
  change (join_with_slash [x; y]) with (x ++ SLASH :: y).
  apply path_normalize_ext.
  - discriminate.
  - discriminate.
  - reflexivity.
  - rewrite (ends_with_slash_sep x (e ++ _)) by (destruct e; discriminate).
    rewrite (ends_with_slash_sep e) by discriminate.
    rewrite (ends_with_slash_sep [DOT; DOT] y) by discriminate.
    now rewrite (ends_with_slash_sep x y) by discriminate.
  - rewrite !split_on_app_sep, !norm_stack_app.
    rewrite (split_on_no_sep _ _ Hsf).
    set (a := negb _). set (stack := norm_stack a _).
    change (split_on SLASH [DOT; DOT]) with [[DOT; DOT]].
    rewrite !fold_left_app. f_equal. cbn [fold_left].
    rewrite (norm_step_entry _ _ _ He). unfold norm_step.
    change (is_empty [DOT; DOT] || is_dot [DOT; DOT]) with false.
    change (is_dotdot [DOT; DOT]) with true. cbv iota. now rewrite Hdd.
Qed.

(** ** Paths: [path.resolve] *)

Lemma resolve_collect_acc l cwd acc1 acc :
  resolve_collect l cwd (acc1 ++ acc)
  = (fst (resolve_collect l cwd acc1) ++ acc, snd (resolve_collect l cwd acc1)).
Proof.
  revert acc1. induction l as [|a l IH]; intros acc1; simpl.
  - destruct (is_empty cwd); simpl; [reflexivity|]. now rewrite <- app_assoc.
  - destruct (is_empty a); [apply IH|].
    destruct (starts_with_slash a); simpl; [now rewrite <- app_assoc|].
    change (a ++ SLASH :: acc1 ++ acc) with (a ++ (SLASH :: acc1) ++ acc).
    rewrite app_assoc. apply IH.
Qed.

(** What [path.resolve] has collected is empty, or a path followed by a
    slash. *)
Lemma resolve_collect_shape l cwd acc :
  (fst (resolve_collect l cwd acc) = acc /\ snd (resolve_collect l cwd acc) = false) \/
  exists y, y <> [] /\ fst (resolve_collect l cwd acc) = y ++ SLASH :: acc /\
            starts_with_slash y = snd (resolve_collect l cwd acc).
Proof.
  revert acc. induction l as [|a l IH]; intros acc; simpl.
  - destruct cwd as [|c cwd]; simpl; [now left|].
    right. exists (c :: cwd). repeat split. discriminate.
  - destruct a as [|c a]; simpl; [apply IH|].
    destruct (c =? SLASH) eqn:Ec; simpl.
    + right. exists (c :: a). repeat split; [discriminate|]. simpl. now rewrite Ec.
    + destruct (IH (c :: a ++ SLASH :: acc)) as [[E1 E2]|(y & Hy & E1 & E2)].
      * right. exists (c :: a). repeat split; [discriminate|exact E1|].
        simpl. now rewrite Ec, E2.
      * right. exists (y ++ SLASH :: c :: a). repeat split.
        -- intros X. apply app_eq_nil in X as [_ X]. discriminate.
        -- rewrite E1. now rewrite <- app_assoc.
        -- now rewrite starts_with_slash_app.
Qed.

Lemma path_resolve_segments cwd args :
  let rp := fst (resolve_collect (rev args) cwd []) in
  let a := snd (resolve_collect (rev args) cwd []) in
  path_resolve cwd args <> [] /\
  starts_with_slash (path_resolve cwd args) = a /\
  norm_stack (negb a) (split_on SLASH (path_resolve cwd args))
  = norm_stack (negb a) (split_on SLASH rp).
Proof.
  intros rp a. unfold path_resolve, normalizeString.
  destruct (resolve_collect (rev args) cwd []) as [rp' a'] eqn:E.
  cbn [fst snd] in rp, a. subst rp a. cbv zeta.
  pose proof (norm_stack_kept (negb a') rp') as Hk.
  set (stack := norm_stack (negb a') (split_on SLASH rp')) in *.
  destruct a'; cbn [negb] in *.
  - split; [discriminate|]. split; [reflexivity|].
    change (SLASH :: ?x) with ([] ++ SLASH :: x).
    rewrite split_on_app_sep. cbn [split_on app]. rewrite norm_stack_skip.
    now apply norm_stack_join_rev.
  - destruct (is_empty (join_with_slash (rev stack))) eqn:Eq.
    + rewrite (join_rev_empty _ _ Hk Eq). repeat split. discriminate.
    + assert (Hne : stack <> []) by (intros X; rewrite X in Eq; discriminate).
      split; [intros X; rewrite X in Eq; discriminate|]. split.
      * rewrite <- (app_nil_r (join_with_slash (rev stack))).
        now apply (join_rev_relative true).
      * now apply norm_stack_join_rev.
Qed.

(** A further entry name after the arguments of [path.resolve]. *)
Lemma path_resolve_snoc cwd args e :
  is_entry_name e = true ->
  path_resolve cwd (args ++ [e]) = path_join [path_resolve cwd args; e].
Proof.
  intros He. destruct (is_entry_name_spec e He) as (Hne & _ & _ & Hsf).
  destruct (path_resolve_segments cwd args) as (Hp & Ha & Hs).
  change [path_resolve cwd args; e] with ([path_resolve cwd args] ++ [e]).
  rewrite (path_join_entry_last _ _ He). cbn [List.filter].
  destruct (path_resolve cwd args) as [|c0 p0] eqn:EP; [congruence|].
  cbn [is_empty negb join_with_slash]. rewrite <- EP in *. clear EP c0 p0.
  unfold directory_prefix. cbv zeta. rewrite Ha, Hs.
  unfold path_resolve at 1. rewrite rev_app_distr. cbn [rev app resolve_collect].
  rewrite Hne, (entry_not_absolute e He).
  change (e ++ [SLASH]) with ([] ++ e ++ [SLASH]).
  rewrite resolve_collect_acc. cbn [app].
  destruct (resolve_collect_shape (rev args) cwd []) as [[E1 E2]|(y & Hy & E1 & E2)].
  - rewrite E1, E2. cbn [app negb]. unfold normalizeString.
    rewrite split_on_app_sep, (split_on_no_sep _ _ Hsf). cbn [split_on app].
    unfold norm_stack. cbn [fold_left]. rewrite (norm_step_entry _ _ _ He).
    cbn. destruct e; [discriminate|reflexivity].
  - rewrite E1. set (a := snd (resolve_collect (rev args) cwd [])) in *.
    unfold normalizeString.
    change (y ++ [SLASH]) with (y ++ SLASH :: []).
    rewrite <- app_assoc. cbn [app].
    rewrite !split_on_app_sep, (split_on_no_sep _ _ Hsf). cbn [split_on].
    rewrite !norm_stack_app. cbn [fold_left app].
    set (stack := norm_stack (negb a) (split_on SLASH y)).
    rewrite (norm_step_entry _ _ _ He).
    change (norm_step (negb a) stack []) with stack.
    change (norm_step (negb a) (e :: stack) []) with (e :: stack).
    cbn [rev]. rewrite join_with_slash_snoc.
    destruct stack as [|top below]; cbn [rev].
    + destruct a; cbn [app]; [reflexivity|]. now rewrite Hne.
    + destruct (rev below ++ [top]) as [|x l] eqn:Ex; [now destruct (rev below)|].
      rewrite <- Ex. destruct a; cbn [app].
      * now rewrite <- app_assoc.
      * rewrite is_empty_false_app. now rewrite <- app_assoc.
Qed.

(** ** Where the scripts look for the interpreter and the workers *)

Lemma path_basename_child j b :
  is_entry_name b = true -> path_basename (j ++ SLASH :: b) = b.
Proof.
  intros Hb. destruct (is_entry_name_spec b Hb) as (Hne & _ & _ & Hsf).
  unfold path_basename. rewrite split_on_app_sep, (split_on_no_sep _ _ Hsf).
  rewrite List.filter_app. cbn [List.filter]. rewrite Hne. cbn [negb].
  now rewrite last_last.
Qed.

(** An entry name directly below the "python/whalescope_scripts" of a
    root. *)
Lemma below_python_scripts root x :
  is_entry_name x = true ->
  path_join [root; u "python/whalescope_scripts" ++ SLASH :: x]
  = path_join [root; u "python/whalescope_scripts"] ++ SLASH :: x.
Proof.
  intros Hx.
  rewrite (path_join_same_parts _ [root; u "python"; u "whalescope_scripts"; x])
    by (destruct root, x; try discriminate; reflexivity).
  rewrite (path_join_same_parts [root; u "python/whalescope_scripts"]
             [root; u "python"; u "whalescope_scripts"])
    by (destruct root; reflexivity).
  apply (path_join_under [root; u "python"]); [reflexivity|exact Hx].
Qed.

(** [realScriptPath] leaves the script paths the handlers build as they
    are, in both modes. *)
Lemma realScriptPath_of_handler_path env x :
  is_entry_name x = true ->
  Main.realScriptPath env
    (path_join [Main.projectRoot env; u "python/whalescope_scripts" ++ SLASH :: x])
  = scripts_dir CompleteScript env ++ SLASH :: x.
Proof.
  intros Hx. unfold Main.realScriptPath, scripts_dir.
  rewrite (below_python_scripts _ _ Hx).
  destruct (Main.isDev env) eqn:Ed; [reflexivity|].
  rewrite (path_basename_child _ _ Hx).
  assert (Er : Main.projectRoot env = resourcesPath env)
    by (unfold Main.projectRoot; now rewrite Ed).
  rewrite Er.
  rewrite (path_join_same_parts _
             [resourcesPath env; u "python"; u "whalescope_scripts"; x])
    by (destruct (resourcesPath env), x; try discriminate; reflexivity).
  rewrite (path_join_same_parts [resourcesPath env; u "python/whalescope_scripts"]
             [resourcesPath env; u "python"; u "whalescope_scripts"])
    by (destruct (resourcesPath env); reflexivity).
  apply (path_join_under [resourcesPath env; u "python"]); [reflexivity|exact Hx].
Qed.

Lemma getScriptPath_of_name env x :
  is_entry_name x = true ->
  MainDmg.getScriptPath env x = scripts_dir DmgScript env ++ SLASH :: x.
Proof.
  intros Hx. unfold MainDmg.getScriptPath, scripts_dir.
  assert (E : path_join [MainDmg.projectRoot env; u "whalescope_scripts"; x]
              = path_join [MainDmg.projectRoot env; u "whalescope_scripts"] ++ SLASH :: x)
    by (apply (path_join_under [MainDmg.projectRoot env]); [reflexivity|exact Hx]).
  destruct (MainDmg.isDev env); exact E.
Qed.

Lemma projectRoot_dev env :
  isPackaged env = false ->
  MainDmg.projectRoot env = path_join [Main.projectRoot env; u "python"].
Proof.
  intros Hp. unfold MainDmg.projectRoot, Main.projectRoot, MainDmg.isDev, Main.isDev.
  rewrite Hp. cbn [negb].
  change [dirname env; u ".."; u "python"] with ([dirname env; u ".."] ++ [u "python"]).
  now apply path_resolve_snoc.
Qed.

Lemma projectRoot_dev_not_nil env :
  isPackaged env = false -> Main.projectRoot env <> [].
Proof.
  intros Hp. unfold Main.projectRoot, Main.isDev. rewrite Hp. cbn [negb].
  apply path_resolve_segments.
Qed.

(** Both scripts run the same interpreter. *)
Lemma pythonPath_agree env : Main.pythonPath env = MainDmg.pythonPath env.
Proof.
  unfold Main.pythonPath, MainDmg.pythonPath.
  destruct (isPackaged env) eqn:Hp.
  - unfold Main.isDev, MainDmg.isDev, MainDmg.projectRoot, MainDmg.isDev.
    rewrite Hp. cbn [negb].
    rewrite (path_join_nested [resourcesPath env; u "pyapp"] [u "bin/python3"])
      by (repeat constructor).
    apply path_join_same_parts. destruct (resourcesPath env); reflexivity.
  - rewrite (projectRoot_dev env Hp).
    unfold Main.isDev, MainDmg.isDev. rewrite Hp. cbn [negb].
    rewrite (path_join_nested [Main.projectRoot env; u "python"]
               [u ".."; u ".venv/bin/python3"])
      by (repeat constructor).
    symmetry. apply path_join_cancel;
      [now apply projectRoot_dev_not_nil | discriminate | reflexivity].
Qed.

Lemma scripts_dir_dev env :
  isPackaged env = false -> scripts_dir CompleteScript env = scripts_dir DmgScript env.
Proof.
  intros Hp. unfold scripts_dir. rewrite (projectRoot_dev env Hp).
  rewrite (path_join_nested [Main.projectRoot env; u "python"] [u "whalescope_scripts"])
    by (repeat constructor).
  apply path_join_same_parts. destruct (Main.projectRoot env); reflexivity.
Qed.

(** Two strings that end differently. *)
Lemma suffix_clash (n : nat) (x y s t : jsstring) :
  x ++ s = y ++ t -> (n <= length s)%nat -> (n <= length t)%nat ->
  take n (rev s) = take n (rev t).
Proof.
  intros E Hs Ht. apply (f_equal (@rev N)) in E. rewrite !rev_app_distr in E.
  apply (f_equal (take n)) in E.
  rewrite !take_app_le in E by (rewrite length_rev; lia). exact E.
Qed.

Lemma scripts_dir_packaged env :
  isPackaged env = true ->
  scripts_dir CompleteScript env
  = path_join ([resourcesPath env] ++ [u "python"]) ++ u "/whalescope_scripts" /\
  scripts_dir DmgScript env
  = path_join ([resourcesPath env] ++ [u "pyapp"]) ++ u "/whalescope_scripts".
Proof.
  intros Hp. unfold scripts_dir, Main.projectRoot, MainDmg.projectRoot, Main.isDev,
    MainDmg.isDev. rewrite Hp. cbn [negb]. split.
  - rewrite (path_join_same_parts _ [resourcesPath env; u "python"; u "whalescope_scripts"])
      by (destruct (resourcesPath env); reflexivity).
    apply (path_join_under [resourcesPath env]); reflexivity.
  - rewrite (path_join_nested [resourcesPath env; u "pyapp"] [u "whalescope_scripts"])
      by (repeat constructor).
    apply (path_join_under [resourcesPath env]); reflexivity.
Qed.

(** X1.  Both scripts start the same interpreter, in development and in
    the packaged application.  In development they also look for the
    worker scripts in the same directory; in the packaged application the
    complete script looks below "python/whalescope_scripts" of the
    resources directory and the DMG script below
    "pyapp/whalescope_scripts", which are never the same directory. *)
Theorem scripts_agree_on_interpreter_not_on_packaged_workers (env : Env) :
  interpreter CompleteScript env = interpreter DmgScript env /\
  (isPackaged env = false -> scripts_dir CompleteScript env = scripts_dir DmgScript env) /\
  (isPackaged env = true -> scripts_dir CompleteScript env <> scripts_dir DmgScript env).
Proof.
  split; [apply pythonPath_agree|]. split; [apply scripts_dir_dev|].
  intros Hp E. destruct (scripts_dir_packaged env Hp) as [E1 E2].
  rewrite E1, E2 in E.
  rewrite !(path_join_entry_last [resourcesPath env]) in E by reflexivity.
  rewrite <- !app_assoc in E.
  apply (suffix_clash 20) in E; [|vm_compute; lia..].
  vm_compute in E. discriminate.
Qed.

Lemma scripts_agree_on_interpreter_not_on_packaged_workers_witness :
  interpreter DmgScript one_line_env
  = u "/Applications/WhaleScope.app/Contents/Resources/pyapp/bin/python3" /\
  scripts_dir CompleteScript one_line_env <> scripts_dir DmgScript one_line_env.
Proof.
  destruct (scripts_agree_on_interpreter_not_on_packaged_workers one_line_env)
    as (H1 & _ & H3).
  split; [rewrite <- H1; vm_compute; reflexivity | exact (H3 eq_refl)].
Defined.

(** X2.  [startPythonBackend] of both scripts starts the same backend: the
    same interpreter on the same script, "backend_ultra_pro.py" in the
    directory where the DMG script keeps its workers.  In the packaged
    application the two calls are the same altogether; in development the
    complete script runs the backend in the project root and the DMG
    script in the "python" directory below it. *)
Theorem both_scripts_start_the_same_backend (env : Env) :
  spawn_file (Main.startPythonBackend env) = spawn_file (MainDmg.startPythonBackend env) /\
  spawn_argv (Main.startPythonBackend env) = spawn_argv (MainDmg.startPythonBackend env) /\
  spawn_argv (MainDmg.startPythonBackend env)
  = [scripts_dir DmgScript env ++ SLASH :: u "backend_ultra_pro.py"] /\
  (isPackaged env = true -> Main.startPythonBackend env = MainDmg.startPythonBackend env) /\
  (isPackaged env = false ->
     spawn_cwd (Main.startPythonBackend env) = Some (Main.projectRoot env) /\
     spawn_cwd (MainDmg.startPythonBackend env)
     = Some (path_join [Main.projectRoot env; u "python"])).
Proof.
  assert (Hf : spawn_file (Main.startPythonBackend env)
               = spawn_file (MainDmg.startPythonBackend env))
    by (exact (pythonPath_agree env)).
  assert (Hb : MainDmg.getScriptPath env (u "backend_ultra_pro.py")
               = scripts_dir DmgScript env ++ SLASH :: u "backend_ultra_pro.py")
    by (now apply getScriptPath_of_name).
  assert (Ha : Main.backendScript env = MainDmg.getScriptPath env (u "backend_ultra_pro.py")).
  { rewrite Hb. unfold Main.backendScript.
    destruct (isPackaged env) eqn:Hp.
    - unfold scripts_dir, Main.isDev, MainDmg.projectRoot, MainDmg.isDev.
      rewrite Hp. cbn [negb].
      rewrite (path_join_nested [resourcesPath env; u "pyapp"] [u "whalescope_scripts"])
        by (repeat constructor).
      rewrite (path_join_same_parts _
                 [resourcesPath env; u "pyapp"; u "whalescope_scripts";
                  u "backend_ultra_pro.py"])
        by (destruct (resourcesPath env); reflexivity).
      apply (path_join_under [resourcesPath env; u "pyapp"]); reflexivity.
    - rewrite <- (scripts_dir_dev env Hp). unfold scripts_dir, Main.isDev.
      rewrite Hp. cbn [negb].
      apply (below_python_scripts (Main.projectRoot env) (u "backend_ultra_pro.py")).
      reflexivity. }
  split; [exact Hf|]. split; [cbn; now rewrite Ha|]. split; [cbn; now rewrite Hb|].
  split.
  - intros Hp. unfold Main.startPythonBackend, MainDmg.startPythonBackend in *.
    cbn [spawn_file] in Hf. rewrite Hf, Ha. f_equal.
    unfold Main.isDev, MainDmg.projectRoot, MainDmg.isDev. now rewrite Hp.
  - intros Hp. split.
    + cbn. unfold Main.isDev. now rewrite Hp.
    + cbn. now rewrite (projectRoot_dev env Hp).
Qed.

Lemma both_scripts_start_the_same_backend_witness :
  Main.startPythonBackend one_line_env
  = {| spawn_file := u "/Applications/WhaleScope.app/Contents/Resources/pyapp/bin/python3";
       spawn_argv := [u "/Applications/WhaleScope.app/Contents/Resources/pyapp/whalescope_scripts/backend_ultra_pro.py"];
       spawn_cwd := Some (u "/Applications/WhaleScope.app/Contents/Resources/pyapp") |}.
Proof.
  destruct (both_scripts_start_the_same_backend one_line_env) as (_ & _ & _ & H & _).
  rewrite (H eq_refl). vm_compute. reflexivity.
Defined.

(** ** The packaging hook *)

Lemma path_join_last3 args a b c :
  is_entry_name a = true -> is_entry_name b = true -> is_entry_name c = true ->
  exists pre, path_join (args ++ [a; b; c]) = pre ++ a ++ SLASH :: b ++ SLASH :: c.
Proof.
  intros Ha Hb Hc.
  exists (match List.filter (fun x => negb (is_empty x)) args with
          | [] => []
          | parts => directory_prefix (join_with_slash parts)
          end).
  change (args ++ [a; b; c]) with (args ++ [a] ++ [b; c]).
  rewrite app_assoc, (path_join_under _ _ _ Hb Hc).
  rewrite <- app_assoc. cbn [app].
  rewrite (path_join_under _ _ _ Ha Hb), (path_join_entry_last _ _ Ha).
  rewrite <- !app_assoc. reflexivity.
Qed.

Lemma afterPack_not_the_interpreter context env :
  isPackaged env = true -> afterPack_pythonPath context <> Main.pythonPath env.
Proof.
  intros Hp. unfold afterPack_pythonPath, Main.pythonPath, Main.isDev. rewrite Hp.
  cbn [negb]. cbv zeta.
  rewrite (path_join_same_parts [resourcesPath env; u "pyapp/bin/python3"]
             ([resourcesPath env] ++ [u "pyapp"; u "bin"; u "python3"]))
    by (destruct (resourcesPath env); reflexivity).
  destruct (path_join_last3 [resourcesPath env] (u "pyapp") (u "bin") (u "python3")
              eq_refl eq_refl eq_refl) as [pre1 E1].
  destruct (path_join_last3
              [appOutDir context; productFilename context ++ u ".app"; u "Contents";
               u "Resources"] (u "python") (u "bin") (u "python3")
              eq_refl eq_refl eq_refl) as [pre2 E2].
  rewrite E1. cbn [app] in E2. rewrite E2. clear E1 E2.
  set (s := u "python" ++ SLASH :: u "bin" ++ SLASH :: u "python3").
  set (t := u "pyapp" ++ SLASH :: u "bin" ++ SLASH :: u "python3").
  intros E.
  pose proof (suffix_clash 13 pre2 pre1 s t E) as X.
  assert (Hs : (13 <= length s)%nat) by (apply Nat.leb_le; vm_compute; reflexivity).
  assert (Ht : (13 <= length t)%nat) by (apply Nat.leb_le; vm_compute; reflexivity).
  specialize (X Hs Ht). vm_compute in X. discriminate.
Qed.

(** X3.  The packaging hook never fails the build: an error of [chmodSync]
    is caught.  It changes the permission bits of at most one file,
    "python/bin/python3" below the resources directory of the bundle,
    which it sets to [0o755] when the file exists and may be changed.
    This file is never the interpreter that the packaged application
    starts, "pyapp/bin/python3" below its resources directory. *)
Theorem afterPackFix_marks_one_file (chmod_error : jsstring -> option JsError)
    (context : PackContext) (modes : gmap jsstring N) (env : Env) :
  fst (afterPackFix chmod_error context modes) = Returned tt /\
  (forall p, p <> afterPack_pythonPath context ->
     snd (afterPackFix chmod_error context modes) !! p = modes !! p) /\
  snd (afterPackFix chmod_error context modes) !! afterPack_pythonPath context
  = match chmod_error (afterPack_pythonPath context) with
    | Some _ => modes !! afterPack_pythonPath context
    | None => (fun _ => 493) <$> modes !! afterPack_pythonPath context
    end /\
  (isPackaged env = true ->
     afterPack_pythonPath context <> interpreter CompleteScript env /\
     afterPack_pythonPath context <> interpreter DmgScript env).
Proof.
  unfold afterPackFix, chmodSync.
  destruct (modes !! afterPack_pythonPath context) as [m|] eqn:Em;
    destruct (chmod_error (afterPack_pythonPath context)) as [e|] eqn:Ee;
    cbn [fst snd]; rewrite ?Em; cbn [fmap option_fmap option_map].
  all: split; [reflexivity|]; split;
    [intros p Hp; rewrite ?lookup_insert_ne by congruence; reflexivity|]; split;
    [rewrite ?lookup_insert_eq; reflexivity|].
  all: intros Hp; cbn [interpreter]; rewrite <- (pythonPath_agree env);
    split; now apply afterPack_not_the_interpreter.
Qed.

Lemma afterPackFix_marks_one_file_witness :
  afterPack_pythonPath {| appOutDir := u "/Applications"; productFilename := u "WhaleScope" |}
  <> interpreter CompleteScript one_line_env.
Proof.
  destruct (afterPackFix_marks_one_file (fun _ => None)
              {| appOutDir := u "/Applications"; productFilename := u "WhaleScope" |}
              ∅ one_line_env) as (_ & _ & _ & H).
  exact (proj1 (H eq_refl)).
Defined.

(** ** What the handlers answer *)

(** X4.  The complete script has a handler for every request, and a
    handler rejects in one case only: "loadData" for a section other
    than "binance_polar" with a parameter that cannot be converted to a
    string (an object with a "toString" property of its own, or an array
    that holds one).  The query string is built before the [try]: the
    handler then rejects with the [TypeError] of the conversion, before
    it has asked the backend.  In every other case, whatever the child,
    the file system, the backend or the user do, the handler returns a
    value (or waits), so that no exception crosses the IPC boundary. *)
Theorem complete_script_answers_every_request (env : Env) (r : Request) (w : World) :
  exists h, handler CompleteScript env r = Some h /\
    (request_converts r = true -> forall e, fst (h w) <> Thrown e) /\
    (request_converts r = false -> h w = (Thrown conversion_error, w)).
Proof.
  destruct (handler CompleteScript env r) as [h|] eqn:E; [|destruct r; discriminate].
  exists h. split; [reflexivity|]. split.
  - intros Hc. exact (complete_script_never_throws env r h w E Hc).
  - intros Hc. destruct r as [keys| |p|x|p|sp|]; try discriminate.
    cbn [handler] in E. injection E as <-.
    cbn [request_converts] in Hc. apply orb_false_elim in Hc as [H1 H2].
    unfold Main.loadData, URLSearchParams_of, bind, throw.
    rewrite H1, H2. reflexivity.
Qed.

(** X5.  A completed export, in both scripts and for every export of a
    section with an export: the user confirms the destination, the worker
    resolves with a path at which it has left a file, and files can be
    written.  Then the destination holds the content of that file, the
    one [copyFileSync] call went from the path the worker printed to the
    destination, the destination is handed to the desktop shell, exactly
    one child was started, and the handler returns its success value. *)
Theorem completed_export_delivers_the_artifact
    (s : Script) (env : Env) (r : ExportRequest) (w : World)
    (dest out data : jsstring) :
  (forall o, user_choice env o = {| canceled := false; filePath := dest |}) ->
  (forall call fs, promise (run_events (fst (child env call fs))) = Fulfilled out) ->
  (forall call fs, snd (child env call fs) !! out = Some data) ->
  (forall p, write_error env p = None) ->
  runs_worker r = true ->
  fst (export_handler s env r w) = Returned (success_value s r dest) /\
  files (snd (export_handler s env r w)) !! dest = Some data /\
  copies (snd (export_handler s env r w)) = copies w ++ [(out, dest)] /\
  opened (snd (export_handler s env r w)) = opened w ++ [dest] /\
  length (spawned (snd (export_handler s env r w))) = S (length (spawned w)).
Proof.
  intros Hd Hp Hf Hw Hr.
  change (wp (export_handler s env r) w
            (fun o w' => o = Returned (success_value s r dest) /\
               files w' !! dest = Some data /\
               copies w' = copies w ++ [(out, dest)] /\
               opened w' = opened w ++ [dest] /\
               length (spawned w') = S (length (spawned w)))).
  destruct s, r; wp_run; world_simpl; rewrite ?Hd in *; world_simpl.
  all: rewrite ?Hp in *; simplify_eq.
  all: rewrite ?(run_events_fulfilled _ _ (Hp {| spawn_file := []; spawn_argv := []; spawn_cwd := None |} ∅)) in *.
  all: try (rewrite Hf in *; simplify_eq).
  all: try (rewrite Hw in *; simplify_eq).
  all: cbn [runs_worker] in Hr.
  all: try match goal with
       | H1 : jsstring_eqb ?a ?b = false, H2 : jsstring_eqb ?a ?c = false |- _ =>
           rewrite H1, H2 in Hr; discriminate
       end.
  all: repeat split; try reflexivity; try apply lookup_insert_eq.
  all: rewrite length_app; cbn [length]; lia.
Qed.

Lemma completed_export_delivers_the_artifact_witness :
  files (snd (export_handler DmgScript one_line_env (MarketbrainCsv sample_csv) empty_world))
  !! u "/tmp/out.csv" = Some (u "Date,Input USD,Output USD,Status") /\
  fst (export_handler DmgScript one_line_env (MarketbrainCsv sample_csv) empty_world)
  = Returned (VObject [obj_success true; (u "filePath", VString (u "/tmp/out.csv"))]).
Proof.
  destruct (completed_export_delivers_the_artifact DmgScript one_line_env
              (MarketbrainCsv sample_csv) empty_world
              (u "/tmp/out.csv") (u "/tmp/tmpXYZ.csv") (u "Date,Input USD,Output USD,Status")
              (fun _ => eq_refl) (fun _ _ => eq_refl)
              (fun _ fs => lookup_insert_eq fs _ _)
              (fun _ => eq_refl) eq_refl) as (H1 & H2 & _).
  split; [exact H2 | exact H1].
Defined.

(** ** The handlers that run a script for the renderer *)

(** X6.  "runPython" answers by the exit code of the script: with
    [{success: true, output}] and everything the script wrote to standard
    output, trimmed, when it closes with code 0; with
    [{success: false, error}] and the failure message otherwise.  It
    starts exactly one child, the script without further arguments. *)
Theorem runPython_answers_by_exit_code
    (env : Env) (scriptPath : jsstring) (w : World)
    (pre post : list ChildEvent) (code : option Z) :
  fst (child env (Main.python_call env scriptPath []) (files w)) = pre ++ Close code :: post ->
  no_close pre = true ->
  fst (Main.runPython env scriptPath w)
  = Returned
      (if bool_decide (code = Some 0%Z)
       then VObject [obj_success true; (u "output", VString (trim (written_stdout pre)))]
       else VObject [obj_success false;
                     (u "error", VString (failure_message (written_stderr pre) code))]) /\
  spawned (snd (Main.runPython env scriptPath w))
  = spawned w ++ [Main.python_call env scriptPath []].
Proof.
  intros Hev Hpre.
  pose proof (run_events_first_close pre code post Hpre) as Hp. rewrite <- Hev in Hp.
  unfold Main.runPython, Main.runPythonScript, try_catch, bind, spawn, await, ret.
  destruct (child env _ (files w)) as [evs fs] eqn:Ec. cbn [fst snd] in *.
  rewrite Hp. unfold on_close.
  destruct code as [[| |]|]; cbn [fst snd spawned obj_error message]; split; reflexivity.
Qed.

Lemma runPython_answers_by_exit_code_witness :
  fst (Main.runPython failing_worker_env (u "lido_staking.py") empty_world)
  = Returned (VObject [obj_success false; (u "error", VString (u "boom"))]).
Proof.
  destruct (runPython_answers_by_exit_code failing_worker_env (u "lido_staking.py")
              empty_world [StderrData (u "boom")] [] (Some 1%Z) eq_refl eq_refl) as [H _].
  exact H.
Defined.

(** X7.  "getLidoData" runs "lido_staking.py" from the workers' directory
    and answers with what the script printed, read as JSON; when the
    script fails, or prints something that is not JSON, the answer is an
    object with the one property [error]. *)
Theorem getLidoData_reads_the_output_as_JSON
    (env : Env) (w : World) (pre post : list ChildEvent) (code : option Z) :
  let call :=
    Main.python_call env
      (path_join [Main.projectRoot env; u "python/whalescope_scripts/lido_staking.py"]) [] in
  fst (child env call (files w)) = pre ++ Close code :: post ->
  no_close pre = true ->
  spawned (snd (Main.getLidoData env w)) = spawned w ++ [call] /\
  spawn_argv call = [scripts_dir CompleteScript env ++ SLASH :: u "lido_staking.py"] /\
  (code = Some 0%Z ->
     forall v, JSON_parse (trim (written_stdout pre)) = Some v ->
       fst (Main.getLidoData env w) = Returned v) /\
  (code = Some 0%Z ->
     JSON_parse (trim (written_stdout pre)) = None ->
       exists msg, fst (Main.getLidoData env w) = Returned (VObject [(u "error", VString msg)])) /\
  (code <> Some 0%Z ->
     fst (Main.getLidoData env w)
     = Returned (VObject [(u "error", VString (failure_message (written_stderr pre) code))])).
Proof.
  intros call Hev Hpre.
  pose proof (run_events_first_close pre code post Hpre) as Hp. rewrite <- Hev in Hp.
  assert (Hs : spawn_argv call = [scripts_dir CompleteScript env ++ SLASH :: u "lido_staking.py"]).
  { unfold call, Main.python_call. cbn [spawn_argv]. f_equal.
    apply (realScriptPath_of_handler_path env (u "lido_staking.py")). reflexivity. }
  unfold Main.getLidoData. fold call.
  unfold Main.runPythonScript, try_catch, bind, spawn, await, ret, parse_json, throw.
  fold call. fold call in Hp.
  destruct (child env call (files w)) as [evs fs] eqn:Ec. cbn [fst snd] in *.
  rewrite Hp. unfold on_close.
  split; [destruct code as [[| |]|]; cbn [fst snd spawned];
          try destruct (JSON_parse _); reflexivity|].
  split; [exact Hs|]. split; [|split].
  - intros -> v Hv. rewrite Hv. reflexivity.
  - intros -> Hn. rewrite Hn. eexists. reflexivity.
  - intros Hc. destruct code as [[| |]|]; try reflexivity. congruence.
Qed.

Lemma getLidoData_reads_the_output_as_JSON_witness :
  fst (Main.getLidoData failing_worker_env empty_world)
  = Returned (VObject [(u "error", VString (u "boom"))]).
Proof.
  destruct (getLidoData_reads_the_output_as_JSON failing_worker_env empty_world
              [StderrData (u "boom")] [] (Some 1%Z) eq_refl eq_refl) as (_ & _ & _ & _ & H).
  exact (H ltac:(discriminate)).
Defined.

(** ** The worker of an export *)

Lemma csv_script_path env x :
  (if Main.isDev env
   then path_join [Main.projectRoot env; x]
   else path_join [resourcesPath env; x])
  = path_join [Main.projectRoot env; x].
Proof.
  unfold Main.projectRoot. destruct (Main.isDev env); reflexivity.
Qed.

Lemma python_call_of_handler_path env x args r :
  is_entry_name x = true ->
  worker_script r = x -> worker_args env r = args ->
  Main.python_call env
    (path_join [Main.projectRoot env; u "python/whalescope_scripts" ++ SLASH :: x]) args
  = worker_call CompleteScript env r.
Proof.
  intros Hx Hs Ha. unfold Main.python_call, worker_call.
  rewrite (realScriptPath_of_handler_path env x Hx), Hs, Ha. reflexivity.
Qed.

Lemma python_call_of_name env x args r :
  is_entry_name x = true ->
  worker_script r = x -> worker_args env r = args ->
  MainDmg.python_call env x args = worker_call DmgScript env r.
Proof.
  intros Hx Hs Ha. unfold MainDmg.python_call, worker_call. cbv zeta.
  rewrite (getScriptPath_of_name env x Hx), Hs, Ha. reflexivity.
Qed.

Lemma chart_path_not_empty tempdir now : is_empty (chart_path tempdir now) = false.
Proof.
  unfold chart_path.
  pose proof (path_join_not_nil [tempdir; chart_file_name now]) as H.
  now destruct (path_join _).
Qed.

(** X8.  Once the save dialog is confirmed, an export request of a section
    with an export, whose worker call Node takes (no NUL code unit in the
    interpreter's path, the script's path, an argument or the working
    directory), starts exactly one child, whatever becomes of it: the
    interpreter of the script, on the worker script of the request in the
    script's workers directory, with the arguments of the request (the
    same arguments in both scripts, the path of the chart image last when
    one was sent).  The child finds the files as they were, with the chart
    image written.  When the child does not succeed, the handler does
    nothing more: the files are as the child left them, nothing is copied
    and nothing is opened. *)
Theorem export_starts_its_worker
    (s : Script) (env : Env) (r : ExportRequest) (w : World) :
  (forall o, canceled (user_choice env o) = false) ->
  write_error env (chart_path (temp env) (Date_now env)) = None ->
  runs_worker r = true ->
  spawn_accepts (worker_call s env r) = true ->
  spawned (snd (export_handler s env r w)) = spawned w ++ [worker_call s env r] /\
  length (prompts (snd (export_handler s env r w))) = S (length (prompts w)) /\
  ((forall v, promise (run_events
                (fst (child env (worker_call s env r) (prepared_files env r (files w)))))
              <> Fulfilled v) ->
   files (snd (export_handler s env r w))
   = snd (child env (worker_call s env r) (prepared_files env r (files w))) /\
   copies (snd (export_handler s env r w)) = copies w /\
   opened (snd (export_handler s env r w)) = opened w).
Proof.
  intros Hd Hw Hr _.
  change (wp (export_handler s env r) w
            (fun _ w' =>
               spawned w' = spawned w ++ [worker_call s env r] /\
               length (prompts w') = S (length (prompts w)) /\
               ((forall v, promise (run_events
                             (fst (child env (worker_call s env r)
                                     (prepared_files env r (files w)))))
                           <> Fulfilled v) ->
                files w' = snd (child env (worker_call s env r)
                                  (prepared_files env r (files w))) /\
                copies w' = copies w /\ opened w' = opened w))).
  pose proof (chart_path_not_empty (temp env) (Date_now env)) as Hne.
  destruct s, r as [p|p|p]; wp_run; world_simpl; rewrite ?Hd in *; try discriminate.
  all: rewrite ?csv_script_path in *.
  all: cbn [runs_worker] in Hr.
  all: try match goal with
       | H1 : jsstring_eqb ?a ?b = false, H2 : jsstring_eqb ?a ?c = false |- _ =>
           rewrite H1, H2 in Hr; discriminate
       end.
  all: try congruence.
  all: rewrite ?Hne in *; cbv iota in *.
  all: match goal with
       | |- context [worker_call CompleteScript ?e ?r] =>
           match goal with
           | |- context [Main.python_call e (path_join [Main.projectRoot e; ?lit]) ?args] =>
               let x := eval cbv in (drop 26 lit) in
               let E := fresh "E" in
               assert (E : Main.python_call e (path_join [Main.projectRoot e; lit]) args
                           = worker_call CompleteScript e r);
               [apply (python_call_of_handler_path e x args);
                [reflexivity
                |cbn [worker_script]; rewrite ?Heqb, ?Heqb0, ?Heqb1; reflexivity
                |cbn [worker_args]; rewrite ?Heqb, ?Heqb0, ?Heqb1, ?Heqb2; reflexivity]
               |rewrite !E in *; clear E]
           end
       | |- context [worker_call DmgScript ?e ?r] =>
           match goal with
           | |- context [MainDmg.python_call e ?x ?args] =>
               let E := fresh "E" in
               assert (E : MainDmg.python_call e x args = worker_call DmgScript e r);
               [apply (python_call_of_name e x args);
                [reflexivity
                |cbn [worker_script]; rewrite ?Heqb, ?Heqb0, ?Heqb1; reflexivity
                |cbn [worker_args]; rewrite ?Heqb, ?Heqb0, ?Heqb1, ?Heqb2; reflexivity]
               |rewrite !E in *; clear E]
           end
       end.
  all: cbn [prepared_files]; rewrite ?Heqb, ?Heqb0, ?Heqb1, ?Heqb2; cbn [andb].
  all: split; [reflexivity|]; split; [rewrite length_app; cbn [length]; lia|]; intros Hn.
  all: try (exfalso; eapply Hn; eassumption).
  all: repeat split; reflexivity.
Qed.

Lemma export_starts_its_worker_witness :
  map spawn_argv
    (spawned (snd (export_handler CompleteScript failing_worker_env
                     (ExportPdf (sample_pdf "binance_market" None)) empty_world)))
  = [[u "/Applications/WhaleScope.app/Contents/Resources/python/whalescope_scripts/export_pdf_binance_market.py";
      u "BTC"; u "--start-date"; u "2025-09-01"; u "--end-date"; u "2025-09-30"]] /\
  files (snd (export_handler CompleteScript failing_worker_env
                (ExportPdf (sample_pdf "binance_market" None)) empty_world)) = ∅.
Proof.
  destruct (export_starts_its_worker CompleteScript failing_worker_env
              (ExportPdf (sample_pdf "binance_market" None)) empty_world
              (fun _ => eq_refl) eq_refl eq_refl eq_refl) as (H1 & _ & H3).
  split; [rewrite H1; vm_compute; reflexivity|].
  destruct H3 as (H & _); [vm_compute; discriminate|].
  rewrite H. reflexivity.
Defined.

(** X9.  There is no timeout: as long as the child does not close,
    whatever else it emits, the handler that awaits it does not answer.
    This holds for every export of a section with an export, in both
    scripts, and for "runPython" and "getLidoData". *)
Theorem handlers_wait_for_close (s : Script) (env : Env) (w : World) :
  (forall call fs, no_close (fst (child env call fs)) = true) ->
  (forall o, canceled (user_choice env o) = false) ->
  write_error env (chart_path (temp env) (Date_now env)) = None ->
  (forall r, runs_worker r = true -> fst (export_handler s env r w) = Unsettled) /\
  (forall scriptPath, fst (Main.runPython env scriptPath w) = Unsettled) /\
  fst (Main.getLidoData env w) = Unsettled.
Proof.
  intros Hc Hd Hw.
  assert (Hp : forall call fs, promise (run_events (fst (child env call fs))) = Pending)
    by (intros; apply run_events_no_close, Hc).
  split; [|split].
  - intros r Hr.
    change (wp (export_handler s env r) w (fun o _ => o = Unsettled)).
    destruct s, r as [p|p|p]; wp_run; world_simpl; rewrite ?Hd, ?Hp in *;
      try discriminate; try congruence; try reflexivity.
    all: cbn [runs_worker] in Hr.
    all: match goal with
         | H1 : jsstring_eqb ?a ?b = false, H2 : jsstring_eqb ?a ?c = false |- _ =>
             rewrite H1, H2 in Hr; discriminate
         end.
  - intros scriptPath.
    change (wp (Main.runPython env scriptPath) w (fun o _ => o = Unsettled)).
    wp_run; rewrite ?Hp in *; try discriminate; reflexivity.
  - change (wp (Main.getLidoData env) w (fun o _ => o = Unsettled)).
    wp_run; rewrite ?Hp in *; try discriminate; reflexivity.
Qed.

Lemma handlers_wait_for_close_witness :
  fst (export_handler DmgScript spawn_error_env (BinanceMarketCsv sample_csv) empty_world)
  = Unsettled.
Proof.
  destruct (handlers_wait_for_close DmgScript spawn_error_env empty_world
              (fun _ _ => eq_refl) (fun _ => eq_refl) eq_refl) as (H & _).
  exact (H (BinanceMarketCsv sample_csv) eq_refl).
Defined.

(** ** The preload bridge and the channels *)

(** X10.  No script registers a channel twice (a second [ipcMain.handle]
    for a channel would throw at start-up), and a request has a handler
    exactly when its channel is registered.  Every method of the preload
    bridge that names a channel names one that the complete script
    handles; the DMG script handles them all but those of [openPath],
    [runPython] and [getLidoData], which it leaves without a handler.
    "loadApiKeys" is handled by both scripts and named by none of these
    methods: only the generic [invoke] reaches it. *)
Theorem preload_methods_and_registered_channels :
  (forall s, List.NoDup (ipcMain_channels s)) /\
  (forall s env r, is_Some (handler s env r) <-> In (request_channel r) (ipcMain_channels s)) /\
  (forall m, In (api_channel m) (ipcMain_channels CompleteScript)) /\
  (forall m, In (api_channel m) (ipcMain_channels DmgScript) <->
             m <> api_openPath /\ m <> api_runPython /\ m <> api_getLidoData) /\
  (forall s, In (u "loadApiKeys") (ipcMain_channels s)) /\
  (forall m, api_channel m <> u "loadApiKeys").
Proof.
  assert (Hdec : forall (x : jsstring) l, In x l <-> bool_decide (x ∈ l) = true).
  { intros x l. rewrite bool_decide_eq_true. symmetry. apply list_elem_of_In. }
  split; [|split; [|split; [|split; [|split]]]].
  - intros s. apply NoDup_ListNoDup.
    destruct s; apply (bool_decide_unpack _); vm_compute; reflexivity.
  - intros s env r. rewrite Hdec.
    destruct s, r as [k| |p|[p|p|p]|p|sp|]; cbn [handler request_channel];
      (split; intros H;
       [first [vm_compute; reflexivity | destruct H as [h H]; discriminate]
       |first [eexists; reflexivity | vm_compute in H; discriminate]]).
  - intros m. rewrite Hdec. destruct m; vm_compute; reflexivity.
  - intros m. rewrite Hdec. destruct m; split;
      try (intros _; repeat split; discriminate);
      try (intros _; vm_compute; reflexivity);
      try (intros H; vm_compute in H; discriminate);
      intros (H1 & H2 & H3); congruence.
  - intros s. rewrite Hdec. destruct s; vm_compute; reflexivity.
  - intros m. destruct m; vm_compute; discriminate.
Qed.

(** ** The renderer: the configuration form *)

Lemma compact_member_eq k v :
  compact_member (k, v)
  = QUOTE :: quote_body k ++ QUOTE :: 58 :: QUOTE :: quote_body v ++ [QUOTE].
Proof.
  unfold compact_member, JSON_quote. cbn [fst snd app].
  now rewrite <- !app_assoc.
Qed.

Lemma compact_members_cons kv t :
  compact_members (kv :: t)
  = compact_member kv ++ match t with [] => [] | _ :: _ => 44 :: compact_members t end.
Proof. destruct t; simpl; [now rewrite app_nil_r|reflexivity]. Qed.

(** One member without white space, followed by whatever [rest]. *)
Lemma parse_compact_member fuel acc k v rest :
  parse_members (S (S fuel)) acc (compact_member (k, v) ++ rest)
  = match skip_ws rest with
    | 44 :: t4 => parse_members (S fuel) (set_prop acc k (VString v)) t4
    | 125 :: t4 => Some (VObject (set_prop acc k (VString v)), t4)
    | _ => None
    end.
Proof.
  rewrite compact_member_eq.
  cbn [parse_members skip_ws app].
  change (is_json_ws QUOTE) with false. cbv iota.
  rewrite <- app_assoc. cbn [app].
  rewrite parse_quote_body.
  cbn [skip_ws]. change (is_json_ws 58) with false. cbv iota.
  cbn [parse_value skip_ws].
  change (is_json_ws QUOTE) with false. cbv iota.
  change (QUOTE =? 123) with false. change (QUOTE =? 91) with false.
  change (QUOTE =? QUOTE) with true. cbv iota.
  rewrite <- app_assoc. cbn [app].
  rewrite parse_quote_body. reflexivity.
Qed.

Lemma parse_compact_members (k : KeySet) : forall acc fuel tail,
  k <> [] ->
  List.NoDup (map fst acc ++ map fst k) ->
  (length k < fuel)%nat ->
  parse_members fuel acc (compact_members k ++ 125 :: tail)
  = Some (VObject (acc ++ map (fun kv => (fst kv, VString (snd kv))) k), tail).
Proof.
  induction k as [|[key v] t IH]; intros acc fuel tail Hne Hnd Hf; [congruence|].
  destruct fuel as [|[|fuel]]; simpl in Hf; try lia.
  rewrite compact_members_cons, <- app_assoc.
  rewrite parse_compact_member.
  assert (Hfresh : ~ In key (map fst acc)).
  { cbn [map fst] in Hnd. apply NoDup_remove_2 in Hnd.
    intros Hin. apply Hnd. apply in_or_app. now left. }
  rewrite (set_prop_fresh _ _ _ Hfresh).
  destruct t as [|kv' t'].
  - cbn [app skip_ws]. change (is_json_ws 125) with false. cbv iota. reflexivity.
  - cbn [app skip_ws]. change (is_json_ws 44) with false. cbv iota.
    rewrite IH.
    + cbn [map fst snd]. now rewrite <- app_assoc.
    + discriminate.
    + rewrite map_app. cbn [map fst]. rewrite <- app_assoc. exact Hnd.
    + simpl in *. lia.
Qed.

Lemma compact_members_length (k : KeySet) :
  (length k <= length (compact_members k))%nat.
Proof.
  induction k as [|[key v] t IH]; [simpl; lia|].
  rewrite compact_members_cons, compact_member_eq.
  destruct t; [simpl; lia|].
  rewrite length_app. cbn [length] in *. lia.
Qed.

(** [JSON.parse(JSON.stringify(cfg))] gives the object back. *)
Lemma JSON_parse_stringify_compact (k : KeySet) :
  List.NoDup (map fst k) ->
  JSON_parse (JSON_stringify_compact k) = Some (keyset_value k).
Proof.
  intros Hnd. destruct k as [|kv t]; [reflexivity|].
  unfold JSON_parse, JSON_stringify_compact.
  set (members := compact_members (kv :: t)).
  cbn [parse_value skip_ws length].
  change (is_json_ws 123) with false. cbv iota.
  change (123 =? 123) with true. cbv iota.
  assert (Hm : exists x, members = QUOTE :: x).
  { unfold members. rewrite compact_members_cons. destruct kv as [key v].
    rewrite compact_member_eq. eexists. reflexivity. }
  destruct Hm as [x Hx].
  assert (Hs : skip_ws (members ++ [125]) = QUOTE :: x ++ [125]).
  { rewrite Hx. reflexivity. }
  rewrite Hs.
  rewrite (parse_compact_members (kv :: t) [] _ []).
  - reflexivity.
  - discriminate.
  - exact Hnd.
  - pose proof (compact_members_length (kv :: t)) as L. fold members in L.
    rewrite length_app. simpl in *. lia.
Qed.

Lemma as_keyset_keyset_value k : as_keyset (keyset_value k) = Some k.
Proof.
  unfold as_keyset, keyset_value.
  induction k as [|[key v] t IH]; [reflexivity|].
  cbn [map fst snd as_keyset_props]. now rewrite IH.
Qed.

Lemma form_cfg_keys f : List.NoDup (map fst (form_cfg f)).
Proof.
  apply NoDup_ListNoDup. cbn [form_cfg map fst].
  apply (bool_decide_unpack _). vm_compute. reflexivity.
Qed.

(** What the credentials handlers do to a writable file. *)
Lemma saveApiKeys_writes s env k w :
  write_error env (Main.apiKeysPath env) = None ->
  ipc_invoke s env (SaveApiKeys k) w
  = (Returned (VObject [obj_success true]),
     set_file (Main.apiKeysPath env) (JSON_stringify k) w).
Proof.
  intros Hw.
  destruct s; unfold ipc_invoke; cbn [handler];
    unfold Main.saveApiKeys, MainDmg.saveApiKeys, try_catch, bind, writeFileSync, ret;
    change (MainDmg.apiKeysPath env) with (Main.apiKeysPath env);
    now rewrite Hw.
Qed.

Lemma loadApiKeys_reads s env k w :
  List.NoDup (map fst k) ->
  files w !! Main.apiKeysPath env = Some (JSON_stringify k) ->
  fst (loadApiKeys_of s env w)
  = Returned (VObject [obj_success true; (u "keys", keyset_value k)]).
Proof.
  intros Hnd Hl.
  destruct s; unfold loadApiKeys_of, Main.loadApiKeys, MainDmg.loadApiKeys,
    try_catch, bind, existsSync, readFileSync, parse_json, ret;
    change (MainDmg.apiKeysPath env) with (Main.apiKeysPath env);
    rewrite Hl; rewrite bool_decide_eq_true_2 by eauto;
    cbv beta iota; rewrite Hl; cbv beta iota;
    rewrite (JSON_parse_stringify k Hnd); reflexivity.
Qed.

Lemma restore_action_of_form f :
  trim (apiKey f) <> [] -> trim (apiSecret f) <> [] ->
  restore_action (Some (JSON_stringify_compact (form_cfg f)))
  = Resend (keyset_value (form_cfg f)).
Proof.
  intros H1 H2. unfold restore_action.
  rewrite (JSON_parse_stringify_compact _ (form_cfg_keys f)).
  change (is_empty (JSON_stringify_compact (form_cfg f))) with false. cbv iota.
  unfold keyset_value, form_cfg. cbn [map fst snd read_key own_property].
  change (jsstring_eqb (u "BINANCE_API_KEY") (u "BINANCE_API_KEY")) with true.
  change (jsstring_eqb (u "BINANCE_API_KEY") (u "BINANCE_API_SECRET")) with false.
  change (jsstring_eqb (u "BINANCE_API_SECRET") (u "BINANCE_API_SECRET")) with true.
  cbv iota. cbn [truthy_value].
  destruct (trim (apiKey f)); [congruence|].
  destruct (trim (apiSecret f)); [congruence|]. reflexivity.
Qed.

(** X11.  Submitting the configuration form.  When one of the two Binance
    keys is blank (empty once trimmed) the listener alerts and does
    nothing else: nothing is stored and the main process is not called.
    Otherwise, the credentials file being writable, the seven keys of the
    form, each trimmed, are stored in [localStorage] and written to the
    credentials file by the main process, and the application replaces
    the configuration screen; "loadApiKeys" then answers with exactly
    these keys; and at the next start the stored configuration is read
    back as the same object, sent to the main process again, which leaves
    the credentials file as it is, and the application is shown.  That
    start-up then registers the form's 'submit' listener and, on a page
    without #refreshBtn, the listener of #eth-refreshBtn; on a page with
    #refreshBtn it ends rejected instead, by the [ReferenceError] of
    [loadBitcoin].  This holds with either main script. *)
Theorem config_form_keys_reach_both_stores
    (s : Script) (env : Env) (f : ConfigForm) (pg : Page) (w : World) :
  (trim (apiKey f) = [] \/ trim (apiSecret f) = [] ->
     on_submit s env f (pg, w)
     = (Done, (with_alert (u "Please enter Binance API keys") pg, w))) /\
  (trim (apiKey f) <> [] -> trim (apiSecret f) <> [] ->
   write_error env (Main.apiKeysPath env) = None ->
   let pg' := with_storage (<[whalescopeConfig := JSON_stringify_compact (form_cfg f)]>
                              (localStorage pg)) pg in
   let w' := set_file (Main.apiKeysPath env) (JSON_stringify (form_cfg f)) w in
   on_submit s env f (pg, w) = (Done, (show_app pg', w')) /\
   fst (loadApiKeys_of s env w')
   = Returned (VObject [obj_success true; (u "keys", keyset_value (form_cfg f))]) /\
   (forall els pg0,
       localStorage pg0 = localStorage pg' ->
       exists w'',
         let shown := if form els then with_submit_listener (show_app pg0)
                      else show_app pg0 in
         on_DOMContentLoaded s env els (pg0, w')
         = Some (if refreshBtn els then (Rejects, (shown, w''))
                 else (Done, ((if ethRefreshBtn els then with_ethRefresh_listener shown
                               else shown), w''))) /\
         files w'' = files w')).
Proof.
  split.
  - intros H. unfold on_submit.
    assert (E : is_empty (trim (apiKey f)) || is_empty (trim (apiSecret f)) = true)
      by (destruct H as [-> | ->]; [reflexivity|apply orb_true_r]).
    now rewrite E.
  - intros H1 H2 Hw pg' w'. split; [|split].
    + unfold on_submit.
      assert (E : is_empty (trim (apiKey f)) || is_empty (trim (apiSecret f)) = false)
        by (destruct (trim (apiKey f)), (trim (apiSecret f)); try congruence; reflexivity).
      rewrite E. cbv zeta. now rewrite (saveApiKeys_writes s env _ w Hw).
    + apply loadApiKeys_reads; [apply form_cfg_keys|].
      unfold w'. cbn [files set_file with_files]. apply lookup_insert_eq.
    + intros els pg0 Hs. unfold on_DOMContentLoaded.
      rewrite Hs. unfold pg'. cbn [localStorage with_storage].
      rewrite lookup_insert_eq, (restore_action_of_form f H1 H2), as_keyset_keyset_value.
      rewrite (saveApiKeys_writes s env _ w' Hw).
      exists (set_file (Main.apiKeysPath env) (JSON_stringify (form_cfg f)) w').
      cbv zeta. split; [unfold bind_listeners; destruct (refreshBtn els); reflexivity|].
      unfold w'. cbn [files set_file with_files]. apply insert_insert_eq.
Qed.

Lemma config_form_keys_reach_both_stores_witness :
  fst (loadApiKeys_of DmgScript cancel_env
         (snd (snd (on_submit DmgScript cancel_env sample_form (fresh_page, empty_world)))))
  = Returned (VObject [obj_success true;
                       (u "keys",
                        VObject [(u "BINANCE_API_KEY", VString (u "k-123"));
                                 (u "BINANCE_API_SECRET", VString (u "s3cr3t"));
                                 (u "ARKHAM_API_KEY", VString []);
                                 (u "CMC_API_KEY", VString []);
                                 (u "ALLIUM_API_KEY", VString (u "allium-key"));
                                 (u "OPENAI_API_KEY", VString []);
                                 (u "COINGECKO_API_KEY", VString [])])]).
Proof.
  destruct (config_form_keys_reach_both_stores DmgScript cancel_env sample_form
              fresh_page empty_world) as [_ H].
  destruct (H ltac:(vm_compute; discriminate) ltac:(vm_compute; discriminate) eq_refl)
    as (H1 & H2 & _).
  rewrite H1. cbn [snd]. rewrite H2. vm_compute. reflexivity.
Defined.

(** X12.  A failed save.  The form holds both Binance keys and the
    credentials file cannot be written.  The configuration is stored in
    [localStorage] all the same, before the main process is called.  With
    the complete script, whose handler answers [{success: false, error}],
    the listener does not look at the answer: the application replaces
    the configuration screen although no credentials were written.  With
    the DMG script, whose handler throws, the listener's promise is
    rejected and the configuration screen stays.  The files are as they
    were in both cases. *)
Theorem config_form_after_a_failed_save
    (env : Env) (f : ConfigForm) (pg : Page) (w : World) (e : JsError) :
  trim (apiKey f) <> [] -> trim (apiSecret f) <> [] ->
  write_error env (Main.apiKeysPath env) = Some e ->
  let pg' := with_storage (<[whalescopeConfig := JSON_stringify_compact (form_cfg f)]>
                             (localStorage pg)) pg in
  on_submit CompleteScript env f (pg, w) = (Done, (show_app pg', w)) /\
  on_submit DmgScript env f (pg, w) = (Rejects, (pg', w)).
Proof.
  intros H1 H2 Hw pg'.
  assert (E : is_empty (trim (apiKey f)) || is_empty (trim (apiSecret f)) = false)
    by (destruct (trim (apiKey f)), (trim (apiSecret f)); try congruence; reflexivity).
  unfold on_submit, ipc_invoke. rewrite E. cbn [handler]. cbv zeta.
  unfold Main.saveApiKeys, MainDmg.saveApiKeys, try_catch, bind, writeFileSync, ret.
  change (MainDmg.apiKeysPath env) with (Main.apiKeysPath env).
  rewrite Hw. split; reflexivity.
Qed.

Lemma config_form_after_a_failed_save_witness :
  mainApp_display
    (fst (snd (on_submit CompleteScript read_only_env sample_form (fresh_page, empty_world))))
  = u "block" /\
  fst (on_submit DmgScript read_only_env sample_form (fresh_page, empty_world)) = Rejects.
Proof.
  destruct (config_form_after_a_failed_save read_only_env sample_form fresh_page empty_world
              (mkError (u "EACCES: permission denied"))
              ltac:(vm_compute; discriminate) ltac:(vm_compute; discriminate) eq_refl)
    as [H1 H2].
  rewrite H1, H2. split; reflexivity.
Defined.

(** X13.  A stored configuration that cannot be used.  When the text
    stored under "whalescopeConfig" is not JSON, or is the JSON text of
    [null], the start-up listener throws while restoring it: its promise
    is rejected before the 'submit' listener of the form is registered,
    the main process is not called, and the text stays in [localStorage],
    so that every later start ends the same way.  A stored JSON value that
    lacks one of the two Binance keys (or holds a falsy one) is removed
    instead and the form is set up; that start-up ends well on a page
    without #refreshBtn, and rejected by the [ReferenceError] of
    [loadBitcoin], the item removed and the form set up all the same, on
    a page with it. *)
Theorem unusable_stored_configuration
    (s : Script) (env : Env) (els : StartupElements) (pg : Page) (w : World)
    (text : jsstring) :
  localStorage pg !! whalescopeConfig = Some text ->
  text <> [] ->
  (JSON_parse text = None \/ JSON_parse text = Some VNull ->
     on_DOMContentLoaded s env els (pg, w) = Some (Rejects, (pg, w))) /\
  (forall parsed key secret,
      JSON_parse text = Some parsed ->
      read_key parsed (u "BINANCE_API_KEY") = Some key ->
      read_key parsed (u "BINANCE_API_SECRET") = Some secret ->
      truthy_value key && truthy_value secret = false ->
      let removed := with_storage (delete whalescopeConfig (localStorage pg)) pg in
      let bound := if form els then with_submit_listener removed else removed in
      on_DOMContentLoaded s env els (pg, w)
      = Some (if refreshBtn els then (Rejects, (bound, w))
              else (Done, ((if ethRefreshBtn els then with_ethRefresh_listener bound
                            else bound), w)))).
Proof.
  intros Hl Ht. unfold on_DOMContentLoaded, restore_action. rewrite Hl.
  destruct text as [|c t]; [congruence|]. cbn [is_empty]. split.
  - intros [-> | ->]; reflexivity.
  - intros parsed key secret -> Hk Hs Hf. rewrite Hk, Hs, Hf. cbv zeta.
    unfold bind_listeners. destruct (refreshBtn els); reflexivity.
Qed.

Lemma unusable_stored_configuration_witness :
  on_DOMContentLoaded CompleteScript cancel_env sample_elements
    (with_storage {[ whalescopeConfig := u "{" ]} fresh_page, empty_world)
  = Some (Rejects, (with_storage {[ whalescopeConfig := u "{" ]} fresh_page, empty_world)) /\
  fst <$> on_DOMContentLoaded CompleteScript cancel_env sample_elements
            (with_storage {[ whalescopeConfig := u "{}" ]} fresh_page, empty_world)
  = Some Rejects.
Proof.
  destruct (unusable_stored_configuration CompleteScript cancel_env sample_elements
              (with_storage {[ whalescopeConfig := u "{" ]} fresh_page) empty_world (u "{")
              ltac:(apply lookup_singleton_eq) ltac:(discriminate)) as [H _].
  destruct (unusable_stored_configuration CompleteScript cancel_env sample_elements
              (with_storage {[ whalescopeConfig := u "{}" ]} fresh_page) empty_world (u "{}")
              ltac:(apply lookup_singleton_eq) ltac:(discriminate)) as [_ H'].
  split; [exact (H (or_introl eq_refl))|].
  rewrite (H' (VObject []) VUndefined VUndefined eq_refl eq_refl eq_refl eq_refl).
  reflexivity.
Defined.

(** ** The renderer: the PDF button *)

(** X14.  The PDF button.  On a sub-tab other than "allium", "binance" and
    "polar" it alerts and makes no request.  Otherwise it asks the main
    process for one of the three sections that the complete script knows,
    so that the section test of the complete script never ends in its
    "Unknown PDF export section" error for a request of this button: what
    the test can throw is the error of writing the chart image only.  A
    chart image is attached on the "allium" sub-tab at most.  With the
    complete script the listener is never rejected. *)
Theorem pdf_button_asks_for_a_known_section
    (s : Script) (env : Env) (c : ExportControls) (pg : Page) (w : World) :
  (pdf_section (activeSubtab c) = None ->
     on_exportPdf_click s env c (pg, w)
     = (Done, (with_alert no_pdf_export_message pg, w))) /\
  (forall sec, pdf_section (activeSubtab c) = Some sec ->
     known_section sec = true /\
     forall img w0 e,
       fst (Main.exportPDF_select env (pdf_request env c sec img) w0) = Thrown e ->
       write_error env (chart_path (temp env) (Date_now env)) = Some e) /\
  (activeSubtab c <> u "allium" -> captured_chart c = Some None) /\
  fst (on_exportPdf_click CompleteScript env c (pg, w)) <> Rejects.
Proof.
  split; [|split; [|split]].
  - unfold on_exportPdf_click, captured_chart, pdf_section.
    destruct (jsstring_eqb (activeSubtab c) (u "allium")); [discriminate|].
    intros ->. reflexivity.
  - intros sec Hs. unfold pdf_section in Hs.
    assert (Hk : sec = u "allium" \/ sec = u "binance_market" \/ sec = u "binance_polar").
    { destruct (jsstring_eqb (activeSubtab c) (u "allium")); [inversion Hs; auto|].
      destruct (jsstring_eqb (activeSubtab c) (u "binance")); [inversion Hs; auto|].
      destruct (jsstring_eqb (activeSubtab c) (u "polar")); [inversion Hs; auto|].
      discriminate. }
    split; [destruct Hk as [->|[->| ->]]; reflexivity|].
    intros img w0 e.
    change (wp (Main.exportPDF_select env (pdf_request env c sec img)) w0
              (fun o _ => o = Thrown e ->
                 write_error env (chart_path (temp env) (Date_now env)) = Some e)).
    unfold Main.exportPDF_select. cbn [section pdf_request].
    destruct Hk as [->|[->| ->]];
      repeat wp_step; intros X; try discriminate; congruence.
  - intros Hn. unfold captured_chart.
    destruct (jsstring_eqb (activeSubtab c) (u "allium")) eqn:E; [|reflexivity].
    apply jsstring_eqb_eq in E. congruence.
  - unfold on_exportPdf_click.
    destruct (captured_chart c) as [img|]; [|discriminate].
    destruct (pdf_section (activeSubtab c)) as [sec|]; [|discriminate].
    unfold ipc_invoke. cbn [handler].
    pose proof (complete_script_never_throws env
                  (Export (ExportPdf (pdf_request env c sec img))) _ w eq_refl eq_refl) as Hn.
    destruct (export_handler CompleteScript env _ w) as [[v|e|] w'] eqn:E;
      cbn [fst] in *; try discriminate.
    exfalso. exact (Hn e eq_refl).
Qed.

Lemma pdf_button_asks_for_a_known_section_witness :
  known_section (u "binance_polar") = true /\
  captured_chart polar_controls = Some None.
Proof.
  destruct (pdf_button_asks_for_a_known_section CompleteScript cancel_env polar_controls
              fresh_page empty_world) as (_ & H2 & H3 & _).
  split; [exact (proj1 (H2 (u "binance_polar") eq_refl)) | apply H3; discriminate].
Defined.

(** ** The renderer: the CSV button *)

Lemma marketbrain_csv_spawns (s : Script) (env : Env) (p : CsvParams) (w : World) :
  (forall o, canceled (user_choice env o) = false) ->
  spawned (snd (export_handler s env (MarketbrainCsv p) w))
  = spawned w ++ [worker_call s env (MarketbrainCsv p)].
Proof.
  intros Hd.
  change (wp (export_handler s env (MarketbrainCsv p)) w
            (fun _ w' => spawned w' = spawned w ++ [worker_call s env (MarketbrainCsv p)])).
  destruct s; wp_run; world_simpl; rewrite ?Hd in *; try discriminate.
  all: rewrite ?csv_script_path in *.
  all: do 2 f_equal.
  all: first
    [ apply (python_call_of_handler_path env (u "export_marketbrain_csv.py"))
    | apply (python_call_of_name env (u "export_marketbrain_csv.py")) ].
  all: reflexivity.
Qed.

Lemma with_loading_display value pg :
  loadingDiv_display (with_loading value pg) = (fun _ => value) <$> loadingDiv_display pg.
Proof. unfold with_loading. cbn. destruct (loadingDiv_display pg); reflexivity. Qed.

Lemma with_loading_twice v1 v2 pg :
  loadingDiv_display (with_loading v2 (with_loading v1 pg))
  = (fun _ => v2) <$> loadingDiv_display pg.
Proof. rewrite !with_loading_display. destruct (loadingDiv_display pg); reflexivity. Qed.

Lemma exportBinanceMarketCSV_display env c table pg pg' :
  exportBinanceMarketCSV env c table pg = Some pg' ->
  loadingDiv_display pg' = loadingDiv_display pg.
Proof.
  unfold exportBinanceMarketCSV. intros H.
  destruct table as [[|row rows]|];
    repeat match type of H with
           | context [match ?x with _ => _ end] => destruct x
           end;
    inversion H; reflexivity.
Qed.

(** X15.  The CSV button.  The listener is never rejected, in either
    script: what the export throws is caught.  Once it has ended the
    spinner is hidden, whatever the export did.  It waits only on the
    "allium" sub-tab, exactly when the handler of "marketbrain:exportCsv"
    does not settle, and the spinner then stays on.  On every other
    sub-tab the main process is not asked for anything.  On the "allium"
    sub-tab the page gets neither an alert nor a download, and once the
    save dialog is confirmed the worker script is started on the symbol
    of the input field, trimmed and in upper case, and on the two dates
    (an absent date field counts as the empty text), provided Node takes
    the call: none of these texts holds a NUL code unit. *)
Theorem csv_button_hides_the_spinner
    (s : Script) (env : Env) (c : ExportControls)
    (table : option (list (list jsstring))) (pg : Page) (w : World) :
  fst (on_exportCsv_click s env c table (pg, w)) <> Rejects /\
  (fst (on_exportCsv_click s env c table (pg, w)) = Done ->
   loadingDiv_display (fst (snd (on_exportCsv_click s env c table (pg, w))))
   = (fun _ => u "none") <$> loadingDiv_display pg) /\
  (fst (on_exportCsv_click s env c table (pg, w)) = Waits <->
   activeSubtab c = u "allium" /\
   fst (export_handler s env (MarketbrainCsv (csv_request env c)) w) = Unsettled) /\
  (fst (on_exportCsv_click s env c table (pg, w)) = Waits ->
   loadingDiv_display (fst (snd (on_exportCsv_click s env c table (pg, w))))
   = (fun _ => u "block") <$> loadingDiv_display pg) /\
  (activeSubtab c <> u "allium" ->
   snd (snd (on_exportCsv_click s env c table (pg, w))) = w) /\
  (activeSubtab c = u "allium" ->
   alerts (fst (snd (on_exportCsv_click s env c table (pg, w)))) = alerts pg /\
   downloads (fst (snd (on_exportCsv_click s env c table (pg, w)))) = downloads pg /\
   ((forall o, canceled (user_choice env o) = false) ->
    spawn_accepts (worker_call s env (MarketbrainCsv (csv_request env c))) = true ->
    spawned (snd (snd (on_exportCsv_click s env c table (pg, w))))
    = spawned w
      ++ [worker_call s env
            (MarketbrainCsv {| csv_symbols := toUpperCase env (trim (inputSymbols_value c));
                               csv_startDate := or_empty (startInput_value c);
                               csv_endDate := or_empty (endInput_value c) |})])).
Proof.
  pose proof (marketbrain_csv_spawns s env (csv_request env c) w) as Hs.
  unfold on_exportCsv_click, ipc_invoke. cbn [handler].
  destruct (jsstring_eqb (activeSubtab c) (u "allium")) eqn:Ea.
  - apply jsstring_eqb_eq in Ea.
    destruct (export_handler s env (MarketbrainCsv (csv_request env c)) w)
      as [[v|e|] w'] eqn:E; cbn [fst snd] in *.
    all: repeat split; try discriminate; try congruence; try tauto.
    all: try (intros; apply with_loading_twice).
    all: try (intros; apply with_loading_display).
    all: try (intros [_ H]; discriminate).
    all: try (intros _ Hd _; exact (Hs Hd)).
    all: try (intros _; assumption).
  - assert (Hn : activeSubtab c <> u "allium").
    { intros H. rewrite H in Ea. vm_compute in Ea. discriminate. }
    destruct (jsstring_eqb (activeSubtab c) (u "binance")).
    + destruct (exportBinanceMarketCSV env c table (with_loading (u "block") pg))
        as [pg'|] eqn:E; cbn [fst snd].
      all: repeat split; try discriminate; try congruence; try tauto.
      all: try (intros; apply with_loading_twice).
      all: try (intros [H _]; congruence).
      intros _. rewrite with_loading_display.
      rewrite (exportBinanceMarketCSV_display _ _ _ _ _ E), with_loading_display.
      destruct (loadingDiv_display pg); reflexivity.
    + cbn [fst snd].
      repeat split; try discriminate; try congruence; try tauto.
      all: try (intros [H _]; congruence).
      intros _. rewrite with_loading_display. cbn [with_alert loadingDiv_display].
      rewrite with_loading_display. destruct (loadingDiv_display pg); reflexivity.
Qed.

Lemma csv_button_hides_the_spinner_witness :
  snd (snd (on_exportCsv_click DmgScript cancel_env polar_controls (Some sample_flows)
              (fresh_page, empty_world))) = empty_world /\
  loadingDiv_display
    (fst (snd (on_exportCsv_click DmgScript cancel_env polar_controls (Some sample_flows)
                 (fresh_page, empty_world)))) = Some (u "none").
Proof.
  destruct (csv_button_hides_the_spinner DmgScript cancel_env polar_controls
              (Some sample_flows) fresh_page empty_world) as (_ & H2 & _ & _ & H5 & _).
  split; [apply H5; discriminate | apply H2; reflexivity].
Defined.

(** ** The renderer: text layout of the PDF report *)

(** X16.  [addMultilineText] on a page whose top margin (20) is not below
    its bottom margin (the page height less 20): the lines that jsPDF
    splits the text into are printed once each and in order; no line is
    printed below the bottom margin; and the height returned is one line
    height below the last printed line (the height given, when the text
    has no line). *)
Theorem addMultilineText_keeps_the_bottom_margin
    (splitTextToSize : jsstring -> number -> list jsstring) (pageHeight : number)
    (text : jsstring) (x y maxWidth : number) (lineHeight : option number) :
  number_gt (number_of_Z 20) (number_sub pageHeight (number_of_Z 20)) = false ->
  map fst (printed (fst (addMultilineText splitTextToSize pageHeight text x y maxWidth
                           lineHeight)))
  = splitTextToSize text maxWidth /\
  Forall (fun p => number_gt (snd p) (number_sub pageHeight (number_of_Z 20)) = false)
    (printed (fst (addMultilineText splitTextToSize pageHeight text x y maxWidth
                     lineHeight))) /\
  snd (addMultilineText splitTextToSize pageHeight text x y maxWidth lineHeight)
  = match last (printed (fst (addMultilineText splitTextToSize pageHeight text x y
                                maxWidth lineHeight))) with
    | Some p => number_add (snd p) (default (number_of_Z 6) lineHeight)
    | None => y
    end.
Proof.
  intros Hpage. unfold addMultilineText.
  change (match lineHeight with Some h => h | None => number_of_Z 6 end)
    with (default (number_of_Z 6) lineHeight).
  generalize (default (number_of_Z 6) lineHeight) as h.
  generalize (splitTextToSize text maxWidth) as lines.
  intros lines h. revert y.
  induction lines as [|line rest IH]; intros y; cbn [addMultilineText_lines].
  - cbn. repeat split. constructor.
  - destruct (number_gt y (number_sub pageHeight (number_of_Z 20))) eqn:E.
    + specialize (IH (number_add (number_of_Z 20) h)).
      destruct (addMultilineText_lines pageHeight rest x
                  (number_add (number_of_Z 20) h) h) as [calls y'].
      cbn [fst snd] in *. destruct IH as (I1 & I2 & I3).
      cbn [app printed map fst]. rewrite I1, last_cons, I3.
      repeat split; [constructor; [exact Hpage|exact I2]|].
      destruct (last (printed calls)); reflexivity.
    + specialize (IH (number_add y h)).
      destruct (addMultilineText_lines pageHeight rest x (number_add y h) h)
        as [calls y'].
      cbn [fst snd] in *. destruct IH as (I1 & I2 & I3).
      cbn [app printed map fst]. rewrite I1, last_cons, I3.
      repeat split; [constructor; [exact E|exact I2]|].
      destruct (last (printed calls)); reflexivity.
Qed.

Lemma addMultilineText_keeps_the_bottom_margin_witness :
  map fst (printed (fst (addMultilineText split_at_line_feeds (number_of_Z 297)
                           (u "Inflows: 12" ++ LF :: u "Outflows: 7" ++ LF :: u "Net: 5")
                           (number_of_Z 14) (number_of_Z 270) (number_of_Z 180) None)))
  = [u "Inflows: 12"; u "Outflows: 7"; u "Net: 5"] /\
  snd (addMultilineText split_at_line_feeds (number_of_Z 297)
         (u "Inflows: 12" ++ LF :: u "Outflows: 7" ++ LF :: u "Net: 5")
         (number_of_Z 14) (number_of_Z 270) (number_of_Z 180) None)
  = number_of_Z 26.
Proof.
  destruct (addMultilineText_keeps_the_bottom_margin split_at_line_feeds (number_of_Z 297)
              (u "Inflows: 12" ++ LF :: u "Outflows: 7" ++ LF :: u "Net: 5")
              (number_of_Z 14) (number_of_Z 270) (number_of_Z 180) None eq_refl)
    as (H1 & _ & H3).
  split; [rewrite H1; reflexivity | rewrite H3; reflexivity].
Defined.
